(** * CompanionOS turn-processing core: a shallow embedding and its properties

    The development follows the layout of [backend/app]:
    - [Py]                 the Python values and built-ins the code relies on;
    - [Rt]                 the world the code runs in (database, clock, uuid
                           source, model backend) and the state-and-exception
                           monad the embedded code is written in;
    - [db]                 [db.py], the persistence layer;
    - [memory_extractor]   [memory_extractor.py], the MX1 validators;
    - [judge_agent]        [agents/Judge/judge_agent.py];
    - [tools]              [tools/registry.py], [tools/runner.py],
                           [tools/alerts/*], [tools/bootstrap.py];
    - [pipeline]           [pipeline.py], the post-chat pipeline;
    - [main]               [main.py], the chat endpoint and the session, memory
                           and alert endpoints;
    - [Demo]               a concrete environment, for the closed examples.
    The vocabulary of the properties and the properties themselves come
    after the definitions. *)

From Stdlib Require Import ZArith Floats String Ascii List DecimalString Lia.
From stdpp Require Import gmap strings list.

#[local] Set Warnings "-inexact-float,-register-all".
#[local] Open Scope string_scope.
#[local] Open Scope list_scope.

(* ===================================================================== *)
(** * Python values and built-ins *)
(* ===================================================================== *)

Module Py.

(** A Python value as [json.loads] produces it.  A [dict] keeps its items in
    insertion order; a character of a [string] stands for one code point
    (code points below 256). *)
Inductive json : Type :=
| JNull
| JBool (b : bool)
| JInt (z : Z)
| JFloat (f : float)
| JStr (s : string)
| JList (l : list json)
| JDict (d : list (string * json)).

(** Exceptions.  [HTTPException] is FastAPI's; every other exception is kept
    as its class name and its message ([str(e)]). *)
Inductive exn : Type :=
| HTTPException (status_code : Z) (detail : string)
| PyExc (cls : string) (msg : string).

Definition exn_str (e : exn) : string :=
  match e with
  | HTTPException _ d => d
  | PyExc _ m => m
  end.

(** The outcome of a call: a value, or a raised exception. *)
Inductive Result (A : Type) : Type :=
| Ok (a : A)
| Raise (e : exn).
#[global] Arguments Ok {A} a.
#[global] Arguments Raise {A} e.

(** [bool(x)] *)
Definition truthy (x : json) : bool :=
  match x with
  | JNull => false
  | JBool b => b
  | JInt z => negb (z =? 0)%Z
  | JFloat f => negb (PrimFloat.eqb f 0%float)
  | JStr s => negb (String.eqb s "")
  | JList l => match l with [] => false | _ => true end
  | JDict d => match d with [] => false | _ => true end
  end.

(** [a or b] *)
Definition py_or (a b : json) : json := if truthy a then a else b.

(** [x == s] for a string literal [s] *)
Definition eq_str (x : json) (s : string) : bool :=
  match x with
  | JStr t => String.eqb t s
  | _ => false
  end.

(** [x in (s1, ..., sn)] for a tuple of string literals *)
Definition in_strs (x : json) (ss : list string) : bool :=
  existsb (eq_str x) ss.

(** [type(x).__name__] *)
Definition type_name (x : json) : string :=
  match x with
  | JNull => "NoneType"
  | JBool _ => "bool"
  | JInt _ => "int"
  | JFloat _ => "float"
  | JStr _ => "str"
  | JList _ => "list"
  | JDict _ => "dict"
  end.

(** [d.get(k)] on the items of a dict *)
Fixpoint dict_get (d : list (string * json)) (k : string) : option json :=
  match d with
  | [] => None
  | (k', v) :: d' => if String.eqb k' k then Some v else dict_get d' k
  end.

(** [d.get(k, dflt)] *)
Definition get_or (d : list (string * json)) (k : string) (dflt : json) : json :=
  match dict_get d k with
  | Some v => v
  | None => dflt
  end.

(** [x.get]: only a dict has the method. *)
Definition as_dict (x : json) : Result (list (string * json)) :=
  match x with
  | JDict d => Ok d
  | _ => Raise (PyExc "AttributeError"
                  ("'" +:+ type_name x +:+ "' object has no attribute 'get'"))
  end.

(** [str.isspace] on one character *)
Definition is_space (c : ascii) : bool :=
  let n := nat_of_ascii c in
  ((9 <=? n)%nat && (n <=? 13)%nat) || ((28 <=? n)%nat && (n <=? 32)%nat)
  || (n =? 133)%nat || (n =? 160)%nat.

Fixpoint lstrip (s : string) : string :=
  match s with
  | EmptyString => EmptyString
  | String c s' => if is_space c then lstrip s' else s
  end.

Definition rstrip (s : string) : string := String.rev (lstrip (String.rev s)).

(** [s.strip()] *)
Definition strip (s : string) : string := rstrip (lstrip s).

(** [s[:n]] for [n >= 0] *)
Definition str_upto (n : nat) (s : string) : string := substring 0 n s.

(** [s.replace(a, b)] for single characters *)
Fixpoint replace_char (a b : ascii) (s : string) : string :=
  match s with
  | EmptyString => EmptyString
  | String c s' => String (if Ascii.eqb c a then b else c) (replace_char a b s')
  end.

(** [sep.join(l)] *)
Fixpoint join (sep : string) (l : list string) : string :=
  match l with
  | [] => ""
  | [x] => x
  | x :: l' => x +:+ sep +:+ join sep l'
  end.

(** [s.find(c)] for a single character: [None] stands for [-1]. *)
Fixpoint find_char (c : ascii) (s : string) : option nat :=
  match s with
  | EmptyString => None
  | String a s' =>
      if Ascii.eqb a c then Some 0
      else match find_char c s' with
           | Some i => Some (S i)
           | None => None
           end
  end.

(** [s.rfind(c)] for a single character *)
Fixpoint rfind_char (c : ascii) (s : string) : option nat :=
  match s with
  | EmptyString => None
  | String a s' =>
      match rfind_char c s' with
      | Some i => Some (S i)
      | None => if Ascii.eqb a c then Some 0 else None
      end
  end.

(** [s.startswith(p)] on character lists *)
Fixpoint starts_with (p cs : list ascii) : bool :=
  match p, cs with
  | [], _ => true
  | a :: p', c :: cs' => Ascii.eqb a c && starts_with p' cs'
  | _ :: _, [] => false
  end.

(** The text after a maximal run of whitespace: what [\s*] leaves when the
    next thing to match is not whitespace. *)
Fixpoint skip_space (cs : list ascii) : list ascii :=
  match cs with
  | c :: cs' => if is_space c then skip_space cs' else cs
  | [] => []
  end.

Definition backticks : list ascii := ["`"; "`"; "`"]%char.
Definition fence_open : list ascii := ["`"; "`"; "`"; "j"; "s"; "o"; "n"]%char.

(** After the [{] of a fenced block: the shortest text up to a [}] that
    whitespace and three backticks follow.  [acc] holds, reversed, what has
    been read of the group. *)
Fixpoint fence_close (cs acc : list ascii) : option (list ascii) :=
  match cs with
  | [] => None
  | c :: cs' =>
      if Ascii.eqb c "}" && starts_with backticks (skip_space cs')
      then Some (rev (c :: acc))
      else fence_close cs' (c :: acc)
  end.

(** Group 1 of [re.search(r"```json\s*(\{.*?\})\s*```", text, re.DOTALL)]:
    the leftmost place where the pattern matches, and there the shortest
    group. *)
Fixpoint fence_search (cs : list ascii) : option (list ascii) :=
  match cs with
  | [] => None
  | c :: cs' =>
      if starts_with fence_open cs then
        match skip_space (drop 7 cs) with
        | "{"%char :: rest =>
            match fence_close rest ["{"%char] with
            | Some group => Some group
            | None => fence_search cs'
            end
        | _ => fence_search cs'
        end
      else fence_search cs'
  end.

(** [l[i:]] for any integer [i]: a negative [i] counts from the end. *)
Definition slice_from {A} (i : Z) (l : list A) : list A :=
  if (i <? 0)%Z
  then drop (Z.to_nat (Z.of_nat (length l) + i)) l
  else drop (Z.to_nat i) l.

(** [l[:-1]] *)
Definition drop_last {A} (l : list A) : list A := take (length l - 1) l.

(** [str(n)] for an int *)
Definition str_of_int (z : Z) : string := NilZero.string_of_int (Z.to_int z).

(** The float nearest to an int (ties to even); it is infinite when the int
    is out of range. *)
Definition float_of_Z (z : Z) : float :=
  SF2Prim (binary_normalize 53 1024 z 0 false).

(** [a % b] on ints: the sign of the result follows [b]. *)
Definition py_mod (a b : Z) : Result Z :=
  if (b =? 0)%Z
  then Raise (PyExc "ZeroDivisionError" "integer modulo by zero")
  else Ok (a mod b)%Z.

(** The newline character *)
Definition nl : ascii := ascii_of_nat 10.

(** [min(a, b)] and [max(a, b)] on floats: the first argument is kept unless
    the second compares strictly smaller (larger). *)
Definition py_min (a b : float) : float := if PrimFloat.ltb b a then b else a.
Definition py_max (a b : float) : float := if PrimFloat.ltb a b then b else a.

End Py.
Export Py.

(* ===================================================================== *)
(** * The world the code runs in *)
(* ===================================================================== *)

Module Rt.

(** ** The tables of [init_db]

    A table is the list of its rows in insertion order, or a finite map on
    its primary key where the code only ever reaches a row by that key. *)

Record SessionRow := {
  s_persona_id : string;
  s_created_at : string }.

Record MessageRow := {
  m_id : string;
  m_session_id : string;
  m_role : string;
  m_content : string;
  m_created_at : string }.

Record MemoryRow := {
  mi_id : string;
  mi_scope : string;
  mi_session_id : option string;
  mi_key : string;
  mi_value : string;
  mi_confidence : float;
  mi_source_message_id : option string;
  mi_created_at : string;
  mi_updated_at : string }.

(** [open_loops] is stored as the JSON text of a list of strings and decoded
    again on reading; the row keeps the list. *)
Record SummaryRow := {
  ss_summary : string;
  ss_open_loops : list string;
  ss_updated_at : string }.

Record AlertRow := {
  a_scope : string;
  a_session_id : option string;
  a_title : string;
  a_body : string;
  a_due_at : option string;
  a_status : string;
  a_confidence : float;
  a_source_message_id : option string;
  a_created_at : string;
  a_updated_at : string }.

Record ToolSettingRow := {
  ts_id : string;
  ts_scope : string;
  ts_session_id : option string;
  ts_tool_id : string;
  ts_enabled : bool;
  ts_created_at : string;
  ts_updated_at : string }.

Record Db := {
  sessions : gmap string SessionRow;
  messages : list MessageRow;
  memory_items : list MemoryRow;
  session_summaries : gmap string SummaryRow;
  alerts : gmap string AlertRow;
  tool_settings : list ToolSettingRow }.

Definition empty_db : Db :=
  {| sessions := ∅; messages := []; memory_items := [];
     session_summaries := ∅; alerts := ∅; tool_settings := [] |}.

(** ** The state threaded through the code

    Besides the database, the state counts the calls made so far to each
    source of non-determinism; the count selects the answer the environment
    gives to the next call. *)
Record World := {
  w_db : Db;
  uuid_calls : nat;
  clock_calls : nat;
  chat_calls : nat;
  judge_calls : nat;
  mx1_calls : nat;
  alert_calls : nat }.

Definition init_world : World :=
  {| w_db := empty_db; uuid_calls := 0; clock_calls := 0; chat_calls := 0;
     judge_calls := 0; mx1_calls := 0; alert_calls := 0 |}.

Definition set_db (d : Db) (w : World) : World :=
  {| w_db := d; uuid_calls := uuid_calls w; clock_calls := clock_calls w;
     chat_calls := chat_calls w; judge_calls := judge_calls w;
     mx1_calls := mx1_calls w; alert_calls := alert_calls w |}.

(** A message of a prompt: [{"role": ..., "content": ...}]. *)
Record ChatMsg := { role : string; content : string }.

(** ** The environment

    Everything the code takes from outside: library functions that are not
    re-implemented here, the process configuration, the loaded personas and
    the answers of the model backend.  A backend call either raises (timeout,
    transport error, HTTP error status, malformed envelope) or returns the
    text of the reply; what is put into the prompt is what the call is given
    here.  The deployment is taken to be intact: the prompt files exist and
    the configuration variables parse. *)
Record Env := {
  (* libraries *)
  uuid4 : nat -> string;
  utcnow_iso : nat -> string;
  json_loads : string -> Result json;
  py_str : json -> string;
  float_of_str : string -> option float;
  sqlite_real_text : float -> string;
  (* configuration *)
  JUDGE_ENABLED : bool;
  MX1_CONFIDENCE_THRESHOLD : float;
  MX1_RECENT_MESSAGES : Z;
  SUMMARY_CADENCE : Z;
  ALLOW_GLOBAL_WRITE : bool;
  OLLAMA_BASE_URL : string;
  OLLAMA_MODEL : string;
  PERSONAS : gmap string json;
  (* model backend, by call site *)
  chat_backend : nat -> string -> list ChatMsg -> string -> Result string;
  judge_backend : nat -> json -> list json -> string -> string -> Result string;
  mx1_backend :
    nat -> json -> option (string * list string) -> list ChatMsg -> bool ->
    Result string;
  alerts_backend :
    nat -> json -> list json -> list ChatMsg -> json -> Result string;
  (* prompt construction *)
  build_system_prompt :
    json -> list json -> list (string * string) -> Result string }.

(** [str(x)]: the environment's [py_str] renders floats, lists and dicts. *)
Definition str_ (E : Env) (x : json) : string :=
  match x with
  | JStr s => s
  | JNull => "None"
  | JBool b => if b then "True" else "False"
  | JInt z => str_of_int z
  | JFloat _ | JList _ | JDict _ => py_str E x
  end.

(** ** The monad of the embedded code: state and exceptions

    An exception leaves the state as it was when raised: what was committed
    before stays committed. *)
Definition M (A : Type) : Type := World -> Result A * World.

#[global] Instance M_ret : MRet M := λ A a w, (Ok a, w).

#[global] Instance M_bind : MBind M := λ A B f m w,
  match m w with
  | (Ok a, w') => f a w'
  | (Raise e, w') => (Raise e, w')
  end.

#[global] Instance Result_ret : MRet Result := λ A a, Ok a.

#[global] Instance Result_bind : MBind Result := λ A B f r,
  match r with
  | Ok a => f a
  | Raise e => Raise e
  end.

Definition raise {A} (e : exn) : M A := λ w, (Raise e, w).

(** [try: m  except Exception as e: h e] *)
Definition try_except {A} (m : M A) (h : exn -> M A) : M A := λ w,
  match m w with
  | (Ok a, w') => (Ok a, w')
  | (Raise e, w') => h e w'
  end.

Definition lift {A} (r : Result A) : M A := λ w, (r, w).

Definition get_db : M Db := λ w, (Ok (w_db w), w).

Definition put_db (d : Db) : M unit := λ w, (Ok tt, set_db d w).

End Rt.
Export Rt.

(* ===================================================================== *)
(** * [db.py] *)
(* ===================================================================== *)

Module db.

(** ** SQL helpers *)

(** [a IS b] and [a = b] on nullable text; [=] is never true on NULL. *)
Definition sql_is (a b : option string) : bool :=
  match a, b with
  | None, None => true
  | Some x, Some y => String.eqb x y
  | _, _ => false
  end.

Definition sql_eq (a b : option string) : bool :=
  match a, b with
  | Some x, Some y => String.eqb x y
  | _, _ => false
  end.

(** [ORDER BY]: a stable sort. *)
Fixpoint insert_by {A} (le : A -> A -> bool) (x : A) (l : list A) : list A :=
  match l with
  | [] => [x]
  | y :: l' => if le x y then x :: l else y :: insert_by le x l'
  end.

Definition order_by {A} (le : A -> A -> bool) (l : list A) : list A :=
  foldr (insert_by le) [] l.

(** [LIMIT n]: a negative [n] is no limit. *)
Definition sql_limit {A} (n : Z) (l : list A) : list A :=
  if (n <? 0)%Z then l else take (Z.to_nat n) l.

(** [fetchone()] *)
Definition fetchone {A} (l : list A) : option A := head l.

Definition IntegrityError {A} (msg : string) : M A :=
  raise (PyExc "IntegrityError" msg).

Definition in_int64 (z : Z) : bool :=
  ((- 2 ^ 63 <=? z) && (z <? 2 ^ 63))%Z.

(** A Python int bound to a parameter of a statement, such as the [?] of
    [LIMIT ?]: one that does not fit 64 bits is refused when the statement
    is executed, before any row is read. *)
Definition bind_int (z : Z) : M Z :=
  if in_int64 z then mret z
  else raise (PyExc "OverflowError"
                "Python int too large to convert to SQLite INTEGER").

Section ops.
Context (E : Env).

(** A Python value bound to a parameter of a TEXT column: the text stored,
    or [None] for NULL.  A NaN is stored as NULL; a list or a dict cannot be
    bound. *)
Definition bind_text (x : json) : Result (option string) :=
  match x with
  | JNull => Ok None
  | JStr s => Ok (Some s)
  | JBool b => Ok (Some (if b then "1" else "0"))
  | JInt z =>
      if in_int64 z then Ok (Some (str_of_int z))
      else Raise (PyExc "OverflowError"
                    "Python int too large to convert to SQLite INTEGER")
  | JFloat f =>
      if PrimFloat.is_nan f then Ok None else Ok (Some (sqlite_real_text E f))
  | JList _ | JDict _ =>
      Raise (PyExc "ProgrammingError"
               ("Error binding parameter: type '" +:+ type_name x
                +:+ "' is not supported"))
  end.

Definition _utc_now : M string := λ w,
  (Ok (utcnow_iso E (clock_calls w) +:+ "Z"),
   {| w_db := w_db w; uuid_calls := uuid_calls w;
      clock_calls := S (clock_calls w); chat_calls := chat_calls w;
      judge_calls := judge_calls w; mx1_calls := mx1_calls w;
      alert_calls := alert_calls w |}).

(** [str(uuid4())] *)
Definition new_uuid : M string := λ w,
  (Ok (uuid4 E (uuid_calls w)),
   {| w_db := w_db w; uuid_calls := S (uuid_calls w);
      clock_calls := clock_calls w; chat_calls := chat_calls w;
      judge_calls := judge_calls w; mx1_calls := mx1_calls w;
      alert_calls := alert_calls w |}).

(** ** Sessions *)

Definition get_session (session_id : string) : M (option SessionRow) :=
  d ← get_db;
  mret (sessions d !! session_id).

(** ** Messages *)

Definition set_messages (l : list MessageRow) (d : Db) : Db :=
  {| sessions := sessions d; messages := l; memory_items := memory_items d;
     session_summaries := session_summaries d; alerts := alerts d;
     tool_settings := tool_settings d |}.

Definition add_message (session_id role : string) (content : json) : M string :=
  msg_id ← new_uuid;
  now ← _utc_now;
  text ← lift (bind_text content);
  d ← get_db;
  match text with
  | None => IntegrityError "NOT NULL constraint failed: messages.content"
  | Some c =>
      if negb (String.eqb role "user" || String.eqb role "assistant")
      then IntegrityError "CHECK constraint failed: role"
      else if existsb (λ r, String.eqb (m_id r) msg_id) (messages d)
      then IntegrityError "UNIQUE constraint failed: messages.id"
      else
        _ ← put_db (set_messages
                      (messages d ++
                       [{| m_id := msg_id; m_session_id := session_id;
                           m_role := role; m_content := c;
                           m_created_at := now |}]) d);
        mret msg_id
  end.

Definition session_messages (session_id : string) (d : Db) : list MessageRow :=
  filter (λ r, String.eqb (m_session_id r) session_id = true) (messages d).

Definition created_asc (a b : MessageRow) : bool :=
  String.leb (m_created_at a) (m_created_at b).

Definition get_messages (session_id : string) (limit : Z) : M (list MessageRow) :=
  d ← get_db;
  limit ← bind_int limit;
  mret (sql_limit limit (order_by created_asc (session_messages session_id d))).

Definition count_messages (session_id : string) : M Z :=
  d ← get_db;
  mret (Z.of_nat (length (session_messages session_id d))).

(** ** Memory *)

Definition set_memory_items (l : list MemoryRow) (d : Db) : Db :=
  {| sessions := sessions d; messages := messages d; memory_items := l;
     session_summaries := session_summaries d; alerts := alerts d;
     tool_settings := tool_settings d |}.

(** [WHERE scope = ? AND key = ? AND (session_id IS ? OR session_id = ?)] *)
Definition memory_match (scope key : string) (session_id : option string)
    (r : MemoryRow) : bool :=
  String.eqb (mi_scope r) scope && String.eqb (mi_key r) key
  && (sql_is (mi_session_id r) session_id || sql_eq (mi_session_id r) session_id).

Definition update_memory_row (value : string) (confidence : float)
    (source_message_id : option string) (now : string) (r : MemoryRow)
    : MemoryRow :=
  {| mi_id := mi_id r; mi_scope := mi_scope r; mi_session_id := mi_session_id r;
     mi_key := mi_key r; mi_value := value; mi_confidence := confidence;
     mi_source_message_id := source_message_id;
     mi_created_at := mi_created_at r; mi_updated_at := now |}.

Definition upsert_memory_item (scope key value : string) (confidence : float)
    (session_id source_message_id : option string) : M string :=
  mem_id ← new_uuid;
  now ← _utc_now;
  d ← get_db;
  let existing :=
    fetchone (filter (λ r, memory_match scope key session_id r = true)
                (memory_items d)) in
  match existing with
  | Some row =>
      let mem_id := mi_id row in
      if PrimFloat.is_nan confidence
      then IntegrityError "NOT NULL constraint failed: memory_items.confidence"
      else
        _ ← put_db (set_memory_items
                      (map (λ r, if String.eqb (mi_id r) mem_id
                                 then update_memory_row value confidence
                                        source_message_id now r
                                 else r) (memory_items d)) d);
        mret mem_id
  | None =>
      if negb (String.eqb scope "global" || String.eqb scope "session")
      then IntegrityError "CHECK constraint failed: scope"
      else if PrimFloat.is_nan confidence
      then IntegrityError "NOT NULL constraint failed: memory_items.confidence"
      else if existsb (λ r, String.eqb (mi_id r) mem_id) (memory_items d)
      then IntegrityError "UNIQUE constraint failed: memory_items.id"
      else
        _ ← put_db (set_memory_items
                      (memory_items d ++
                       [{| mi_id := mem_id; mi_scope := scope;
                           mi_session_id := session_id; mi_key := key;
                           mi_value := value; mi_confidence := confidence;
                           mi_source_message_id := source_message_id;
                           mi_created_at := now; mi_updated_at := now |}]) d);
        mret mem_id
  end.

Definition updated_desc (a b : MemoryRow) : bool :=
  String.leb (mi_updated_at b) (mi_updated_at a).

Definition list_memory_items (scope : string) (session_id : option string)
    (limit : Z) : M (list MemoryRow) :=
  d ← get_db;
  if String.eqb scope "global"
  then
    limit ← bind_int limit;
    mret (sql_limit limit (order_by updated_desc
            (filter (λ r, String.eqb (mi_scope r) "global" = true)
               (memory_items d))))
  else
    match session_id with
    | None | Some "" => mret []
    | Some sid =>
        limit ← bind_int limit;
        mret (sql_limit limit (order_by updated_desc
                (filter (λ r, (String.eqb (mi_scope r) "session"
                               && sql_eq (mi_session_id r) (Some sid)) = true)
                   (memory_items d))))
    end.

Definition delete_memory_item (mem_id : string) : M bool :=
  d ← get_db;
  let hit := existsb (λ r, String.eqb (mi_id r) mem_id) (memory_items d) in
  _ ← put_db (set_memory_items
                (filter (λ r, String.eqb (mi_id r) mem_id = false)
                   (memory_items d)) d);
  mret hit.

(** ** Session summary *)

Definition set_session_summaries (m : gmap string SummaryRow) (d : Db) : Db :=
  {| sessions := sessions d; messages := messages d;
     memory_items := memory_items d; session_summaries := m;
     alerts := alerts d; tool_settings := tool_settings d |}.

Definition get_session_summary (session_id : string) : M (option SummaryRow) :=
  d ← get_db;
  mret (session_summaries d !! session_id).

Definition upsert_session_summary (session_id summary : string)
    (open_loops : list string) : M unit :=
  now ← _utc_now;
  d ← get_db;
  let row := {| ss_summary := summary; ss_open_loops := open_loops;
                ss_updated_at := now |} in
  match session_summaries d !! session_id with
  | Some _ =>
      put_db (set_session_summaries
                (alter (λ _, row) session_id (session_summaries d)) d)
  | None =>
      put_db (set_session_summaries
                (<[session_id := row]> (session_summaries d)) d)
  end.

(** ** Alerts *)

Definition set_alerts (m : gmap string AlertRow) (d : Db) : Db :=
  {| sessions := sessions d; messages := messages d;
     memory_items := memory_items d;
     session_summaries := session_summaries d; alerts := m;
     tool_settings := tool_settings d |}.

Definition create_alert (scope title body : string) (due_at : option string)
    (confidence : float) (session_id : option string)
    (source_message_id : json) : M string :=
  alert_id ← new_uuid;
  now ← _utc_now;
  src ← lift (bind_text source_message_id);
  d ← get_db;
  if negb (String.eqb scope "global" || String.eqb scope "session")
  then IntegrityError "CHECK constraint failed: scope"
  else if PrimFloat.is_nan confidence
  then IntegrityError "NOT NULL constraint failed: alerts.confidence"
  else
    match alerts d !! alert_id with
    | Some _ => IntegrityError "UNIQUE constraint failed: alerts.id"
    | None =>
        _ ← put_db (set_alerts
                      (<[alert_id :=
                           {| a_scope := scope; a_session_id := session_id;
                              a_title := title; a_body := body;
                              a_due_at := due_at; a_status := "active";
                              a_confidence := confidence;
                              a_source_message_id := src;
                              a_created_at := now; a_updated_at := now |}]>
                         (alerts d)) d);
        mret alert_id
    end.

Definition set_status (status now : string) (r : AlertRow) : AlertRow :=
  {| a_scope := a_scope r; a_session_id := a_session_id r;
     a_title := a_title r; a_body := a_body r; a_due_at := a_due_at r;
     a_status := status; a_confidence := a_confidence r;
     a_source_message_id := a_source_message_id r;
     a_created_at := a_created_at r; a_updated_at := now |}.

Definition update_alert_status (alert_id status : string) : M bool :=
  if negb (String.eqb status "active" || String.eqb status "done"
           || String.eqb status "cancelled")
  then raise (PyExc "ValueError" "Invalid status")
  else
    now ← _utc_now;
    d ← get_db;
    _ ← put_db (set_alerts (alter (set_status status now) alert_id (alerts d)) d);
    mret (bool_decide (is_Some (alerts d !! alert_id))).

(** ** Tool settings *)

Definition apply_settings (rows : list ToolSettingRow)
    (enabled : gmap string bool) : gmap string bool :=
  foldl (λ en r, <[ts_tool_id r := ts_enabled r]> en) enabled rows.

Definition get_effective_tool_enabled_map (session_id : string)
    (tool_ids : list string) : M (gmap string bool) :=
  d ← get_db;
  let enabled : gmap string bool :=
    foldl (λ en tid, <[tid := true]> en) ∅ tool_ids in
  let g := filter (λ r, String.eqb (ts_scope r) "global" = true)
             (tool_settings d) in
  let enabled := apply_settings g enabled in
  let s := filter (λ r, (String.eqb (ts_scope r) "session"
                         && sql_eq (ts_session_id r) (Some session_id)) = true)
             (tool_settings d) in
  let enabled := apply_settings s enabled in
  mret (foldl (λ out tid, <[tid := default true (enabled !! tid)]> out)
          ∅ tool_ids).

(** ** The remaining operations *)

Definition set_sessions (m : gmap string SessionRow) (d : Db) : Db :=
  {| sessions := m; messages := messages d; memory_items := memory_items d;
     session_summaries := session_summaries d; alerts := alerts d;
     tool_settings := tool_settings d |}.

Definition create_session (persona_id : string) : M string :=
  session_id ← new_uuid;
  now ← _utc_now;
  d ← get_db;
  match sessions d !! session_id with
  | Some _ => IntegrityError "UNIQUE constraint failed: sessions.id"
  | None =>
      _ ← put_db (set_sessions
                    (<[session_id := {| s_persona_id := persona_id;
                                        s_created_at := now |}]> (sessions d))
                    d);
      mret session_id
  end.

Definition set_tool_settings (l : list ToolSettingRow) (d : Db) : Db :=
  {| sessions := sessions d; messages := messages d;
     memory_items := memory_items d;
     session_summaries := session_summaries d; alerts := alerts d;
     tool_settings := l |}.

(** [WHERE scope = ? AND tool_id = ? AND (session_id IS ? OR session_id = ?)] *)
Definition setting_match (scope tool_id : string) (session_id : option string)
    (r : ToolSettingRow) : bool :=
  String.eqb (ts_scope r) scope && String.eqb (ts_tool_id r) tool_id
  && (sql_is (ts_session_id r) session_id || sql_eq (ts_session_id r) session_id).

Definition update_setting_row (enabled : bool) (now : string)
    (r : ToolSettingRow) : ToolSettingRow :=
  {| ts_id := ts_id r; ts_scope := ts_scope r;
     ts_session_id := ts_session_id r; ts_tool_id := ts_tool_id r;
     ts_enabled := enabled; ts_created_at := ts_created_at r;
     ts_updated_at := now |}.

Definition upsert_tool_setting (scope tool_id : string) (enabled : bool)
    (session_id : option string) : M string :=
  setting_id ← new_uuid;
  now ← _utc_now;
  d ← get_db;
  let existing :=
    fetchone (filter (λ r, setting_match scope tool_id session_id r = true)
                (tool_settings d)) in
  match existing with
  | Some row =>
      let setting_id := ts_id row in
      _ ← put_db (set_tool_settings
                    (map (λ r, if String.eqb (ts_id r) setting_id
                               then update_setting_row enabled now r else r)
                       (tool_settings d)) d);
      mret setting_id
  | None =>
      if negb (String.eqb scope "global" || String.eqb scope "session")
      then IntegrityError "CHECK constraint failed: scope"
      else if existsb (λ r, String.eqb (ts_id r) setting_id) (tool_settings d)
      then IntegrityError "UNIQUE constraint failed: tool_settings.id"
      else
        _ ← put_db (set_tool_settings
                      (tool_settings d ++
                       [{| ts_id := setting_id; ts_scope := scope;
                           ts_session_id := session_id; ts_tool_id := tool_id;
                           ts_enabled := enabled; ts_created_at := now;
                           ts_updated_at := now |}]) d);
        mret setting_id
  end.

Definition setting_updated_desc (a b : ToolSettingRow) : bool :=
  String.leb (ts_updated_at b) (ts_updated_at a).

Definition list_tool_settings (scope : string) (session_id : option string)
    (limit : Z) : M (list ToolSettingRow) :=
  d ← get_db;
  if String.eqb scope "global"
  then
    limit ← bind_int limit;
    mret (sql_limit limit (order_by setting_updated_desc
            (filter (λ r, String.eqb (ts_scope r) "global" = true)
               (tool_settings d))))
  else
    match session_id with
    | None | Some "" => mret []
    | Some sid =>
        limit ← bind_int limit;
        mret (sql_limit limit (order_by setting_updated_desc
                (filter (λ r, (String.eqb (ts_scope r) "session"
                               && sql_eq (ts_session_id r) (Some sid)) = true)
                   (tool_settings d))))
    end.

(** The rows of [alerts] with their ids; where the order of a listing leaves
    rows tied, they come as the map enumerates them. *)
Definition alert_rows (d : Db) : list (string * AlertRow) :=
  map_to_list (alerts d).

(** [due_at <= ?]: never true of NULL. *)
Definition due_by (now : string) (r : AlertRow) : bool :=
  match a_due_at r with
  | Some due_at => String.leb due_at now
  | None => false
  end.

Definition due_asc (a b : string * AlertRow) : bool :=
  match a_due_at a.2, a_due_at b.2 with
  | Some x, Some y => String.leb x y
  | None, _ => true
  | Some _, None => false
  end.

Definition get_due_alerts (session_id : option string) (limit : Z)
    : M (list (string * AlertRow)) :=
  now ← _utc_now;
  d ← get_db;
  match session_id with
  | None | Some "" =>
      limit ← bind_int limit;
      mret (sql_limit limit (order_by due_asc
              (filter (λ r, (String.eqb (a_status r.2) "active"
                             && due_by now r.2) = true) (alert_rows d))))
  | Some sid =>
      limit ← bind_int limit;
      mret (sql_limit limit (order_by due_asc
              (filter (λ r, (String.eqb (a_status r.2) "active"
                             && due_by now r.2
                             && sql_eq (a_session_id r.2) (Some sid)) = true)
                 (alert_rows d))))
  end.

Definition alert_updated_desc (a b : string * AlertRow) : bool :=
  String.leb (a_updated_at b.2) (a_updated_at a.2).

Definition list_alerts (scope : string) (session_id status : option string)
    (limit : Z) : M (list (string * AlertRow)) :=
  d ← get_db;
  let with_status (r : string * AlertRow) : bool :=
    match status with
    | None | Some "" => true
    | Some st => String.eqb (a_status r.2) st
    end in
  if String.eqb scope "global"
  then
    limit ← bind_int limit;
    mret (sql_limit limit (order_by alert_updated_desc
            (filter (λ r, (String.eqb (a_scope r.2) "global"
                           && with_status r) = true) (alert_rows d))))
  else
    match session_id with
    | None | Some "" => mret []
    | Some sid =>
        limit ← bind_int limit;
        mret (sql_limit limit (order_by alert_updated_desc
                (filter (λ r, (String.eqb (a_scope r.2) "session"
                               && sql_eq (a_session_id r.2) (Some sid)
                               && with_status r) = true) (alert_rows d))))
    end.

End ops.
End db.

(* ===================================================================== *)
(** * [memory_extractor.py] *)
(* ===================================================================== *)

Module memory_extractor.

(** [re.fullmatch(r"[a-z0-9_]+", key)] *)
Definition key_char (c : ascii) : bool :=
  let n := nat_of_ascii c in
  ((97 <=? n)%nat && (n <=? 122)%nat) || ((48 <=? n)%nat && (n <=? 57)%nat)
  || (n =? 95)%nat.

Definition key_fullmatch (key : string) : bool :=
  negb (String.eqb key "") && forallb key_char (list_ascii_of_string key).

Definition _clamp01 (x : float) : float := py_max 0%float (py_min 1%float x).

(** An accepted item:
    [{"scope": ..., "key": ..., "value": ..., "confidence": ...}]. *)
Record MemoryCandidate := {
  mc_scope : string;
  mc_key : string;
  mc_value : string;
  mc_confidence : float }.

(** The normalised summary patch: [{"summary": ..., "open_loops": [...]}]. *)
Record SummaryPatch := {
  sp_summary : string;
  sp_open_loops : list string }.

Section validators.
Context (E : Env).

(** [float(x)] *)
Definition py_float (x : json) : Result float :=
  match x with
  | JFloat f => Ok f
  | JInt z =>
      let f := float_of_Z z in
      if PrimFloat.is_infinity f
      then Raise (PyExc "OverflowError" "int too large to convert to float")
      else Ok f
  | JBool b => Ok (if b then 1%float else 0%float)
  | JStr s =>
      match float_of_str E s with
      | Some f => Ok f
      | None => Raise (PyExc "ValueError"
                         ("could not convert string to float: " +:+ s))
      end
  | JNull | JList _ | JDict _ =>
      Raise (PyExc "TypeError"
               ("float() argument must be a string or a real number, not '"
                +:+ type_name x +:+ "'"))
  end.

(** The value of [conf_f] for a candidate with confidence field [conf]:
    [try: conf_f = _clamp01(float(conf))  except Exception: conf_f = 0.0] *)
Definition conf_f_of (conf : json) : float :=
  match py_float conf with
  | Ok f => _clamp01 f
  | Raise _ => 0%float
  end.

(** One turn of the loop over [items_in[:5]]: the accepted item, or [None]
    when the loop [continue]s.  Only a string is [in allow_scopes]. *)
Definition validate_item (confidence_threshold : float)
    (allow_scopes : list string) (it : json) : option MemoryCandidate :=
  match it with
  | JDict d =>
      let scope := get_or d "scope" JNull in
      let key := get_or d "key" JNull in
      let value := get_or d "value" JNull in
      let conf := get_or d "confidence" (JFloat 0%float) in
      match scope with
      | JStr scope =>
          if negb (in_strs (JStr scope) allow_scopes) then None
          else
            match key with
            | JStr key =>
                if negb ((1 <=? String.length key)%nat
                         && (String.length key <=? 64)%nat) then None
                else if negb (key_fullmatch key) then None
                else
                  match value with
                  | JStr value =>
                      if negb ((1 <=? String.length value)%nat
                               && (String.length value <=? 400)%nat) then None
                      else
                        let conf_f := conf_f_of conf in
                        if PrimFloat.ltb conf_f confidence_threshold then None
                        else Some {| mc_scope := scope; mc_key := key;
                                     mc_value := strip value;
                                     mc_confidence := conf_f |}
                  | _ => None
                  end
            | _ => None
            end
      | _ => None
      end
  | _ => None
  end.

Definition validate_mx1_output (data : list (string * json))
    (confidence_threshold : float) (allow_scopes : list string)
    : list MemoryCandidate * SummaryPatch :=
  let items_in :=
    match get_or data "items" (JList []) with
    | JList l => l
    | _ => []
    end in
  let accepted :=
    omap (validate_item confidence_threshold allow_scopes) (take 5 items_in) in
  let sp :=
    match get_or data "summary_patch" (JDict []) with
    | JDict d => d
    | _ => []
    end in
  let summary :=
    match get_or sp "summary" (JStr "") with
    | JStr s => s
    | _ => ""
    end in
  let open_loops :=
    match get_or sp "open_loops" (JList []) with
    | JList l => l
    | _ => []
    end in
  let open_loops_norm :=
    omap (λ x, match x with
               | JStr s => if negb (String.eqb (strip s) "")
                           then Some (strip s) else None
               | _ => None
               end) (take 10 open_loops) in
  (accepted, {| sp_summary := strip summary; sp_open_loops := open_loops_norm |}).

(** The second stage of [_extract_json_object]: the first [{] to the last
    [}], decoded; on failure the blob is cut after its last [}] and decoded
    once more. *)
Definition first_object (text : string) : option json :=
  match find_char "{" text, rfind_char "}" text with
  | Some i, Some j =>
      if (i <? j)%nat then
        let blob := substring i (j + 1 - i) text in
        match json_loads E blob with
        | Ok v => Some v
        | Raise _ =>
            match rfind_char "}" blob with
            | Some last_brace =>
                match json_loads E (str_upto (last_brace + 1) blob) with
                | Ok v => Some v
                | Raise _ => None
                end
            | None => None
            end
        end
      else None
  | _, _ => None
  end.

Definition _extract_json_object (text : string) : option json :=
  let text := strip text in
  match fence_search (list_ascii_of_string text) with
  | Some group =>
      match json_loads E (string_of_list_ascii group) with
      | Ok v => Some v
      | Raise _ => first_object text
      end
  | None => first_object text
  end.

(** [extract_mx1]: the prompt construction and the request are the
    environment's [mx1_backend]; a failed request raises. *)
Definition extract_mx1 (persona : json)
    (session_summary : option (string * list string))
    (recent_messages : list ChatMsg) (confidence_threshold : float)
    (allow_global_write : bool)
    : M (list MemoryCandidate * SummaryPatch * string) :=
  λ w,
  let w' := {| w_db := w_db w; uuid_calls := uuid_calls w;
               clock_calls := clock_calls w; chat_calls := chat_calls w;
               judge_calls := judge_calls w; mx1_calls := S (mx1_calls w);
               alert_calls := alert_calls w |} in
  match mx1_backend E (mx1_calls w) persona session_summary recent_messages
          allow_global_write with
  | Raise e => (Raise e, w')
  | Ok raw =>
      let data := py_or (default JNull (_extract_json_object raw)) (JDict []) in
      match as_dict data with
      | Raise e => (Raise e, w')
      | Ok data =>
          let '(accepted_items, summary_patch) :=
            validate_mx1_output data confidence_threshold
              (if allow_global_write then ["global"; "session"]
               else ["session"]) in
          (Ok (accepted_items, summary_patch, raw), w')
      end
  end.

End validators.
End memory_extractor.

(* ===================================================================== *)
(** * [agents/Judge/judge_agent.py] *)
(* ===================================================================== *)

Module judge_agent.

(** The dict [run_judge] returns; a key the dict lacks reads as [None]. *)
Record JudgeResult := {
  jr_verdict : string;
  jr_feedback : json;
  jr_rewritten_response : json;
  jr_reason : string;
  jr_risk_tags : list string }.

Section judge.
Context (E : Env).

(** The request to the backend: the prompt is built from the persona, the
    first 20 memory items and the stripped message and draft. *)
Definition _ollama_chat (persona : json) (memory_items : list json)
    (user_message assistant_draft : string) : M string := λ w,
  (judge_backend E (judge_calls w) persona (take 20 memory_items)
     (strip user_message) (strip assistant_draft),
   {| w_db := w_db w; uuid_calls := uuid_calls w;
      clock_calls := clock_calls w; chat_calls := chat_calls w;
      judge_calls := S (judge_calls w); mx1_calls := mx1_calls w;
      alert_calls := alert_calls w |}).

(** The body of the [try] block after the backend has answered [raw]. *)
Definition judge_reply (raw : string) : Result JudgeResult :=
  let raw_str := strip raw in
  let start := find_char "{" raw_str in
  let end_ := rfind_char "}" raw_str in
  match start, end_ with
  | Some start, Some end_ =>
      if (end_ <=? start)%nat
      then Raise (PyExc "ValueError"
                    ("Judge did not return JSON: " +:+ str_upto 200 raw_str))
      else
        obj ← json_loads E (substring start (end_ + 1 - start) raw_str);
        obj ← as_dict obj;
        let verdict :=
          match get_or obj "verdict" (JStr "PASS") with
          | JStr v => if in_strs (JStr v) ["PASS"; "REWRITE"; "BLOCK"]
                      then v else "PASS"
          | _ => "PASS"
          end in
        let rewritten := get_or obj "rewritten_response" JNull in
        let feedback := get_or obj "feedback" (JStr "") in
        let '(verdict, rewritten, feedback) :=
          if String.eqb verdict "PASS" then (verdict, JNull, JNull)
          else if String.eqb verdict "REWRITE" then
            if negb (truthy rewritten) && negb (truthy feedback)
            then ("PASS", rewritten, feedback)
            else (verdict, rewritten, feedback)
          else (verdict, rewritten, feedback) in
        let reason := get_or obj "reason" (JStr "") in
        let risk_tags :=
          match get_or obj "risk_tags" (JList []) with
          | JList l => l
          | _ => []
          end in
        mret {| jr_verdict := verdict;
                jr_feedback := feedback;
                jr_rewritten_response := rewritten;
                jr_reason := str_upto 200 (str_ E reason);
                jr_risk_tags :=
                  map (λ t, str_upto 40 (str_ E t)) (take 10 risk_tags) |}
  | _, _ =>
      Raise (PyExc "ValueError"
               ("Judge did not return JSON: " +:+ str_upto 200 raw_str))
  end.

(** The prompts are loaded and formatted before the [try]; with the prompt
    files in place that part does not fail. *)
Definition run_judge (persona : json) (user_message assistant_draft : string)
    (memory_items : list json) : M JudgeResult :=
  if negb (JUDGE_ENABLED E)
  then mret {| jr_verdict := "PASS"; jr_feedback := JNull;
               jr_rewritten_response := JNull; jr_reason := "judge_disabled";
               jr_risk_tags := [] |}
  else
    try_except
      (raw ← _ollama_chat persona memory_items user_message assistant_draft;
       lift (judge_reply raw))
      (λ e,
       mret {| jr_verdict := "PASS"; jr_feedback := JNull;
               jr_rewritten_response := JNull;
               jr_reason := "judge_failed:" +:+ exn_str e;
               jr_risk_tags := ["judge_error"] |}).

End judge.
End judge_agent.

(* ===================================================================== *)
(** * [tools/] *)
(* ===================================================================== *)

Module tools.

(** [tools/base.py] *)
Record ToolContext := {
  ctx_session_id : string;
  ctx_persona : json;
  ctx_memory_items : list json;
  ctx_session_summary : option SummaryRow;
  ctx_recent_messages : list ChatMsg;
  ctx_user_message : string;
  ctx_assistant_final : json;
  ctx_ollama_base_url : string;
  ctx_ollama_model : string }.

(** A plugin: [run] returns its events ([None] when it returns nothing) or
    raises, and may change the world while it does. *)
Record ToolPlugin := {
  tool_id : string;
  tool_name : string;
  tool_description : string;
  should_run : ToolContext -> bool;
  run : ToolContext -> M (option (list json)) }.

(** [tools/registry.py]: the dict [_tools], in insertion order. *)
Record ToolsRegistry := { _tools : list (string * ToolPlugin) }.

Fixpoint dict_set {V} (k : string) (v : V) (d : list (string * V))
    : list (string * V) :=
  match d with
  | [] => [(k, v)]
  | (k', v') :: d' =>
      if String.eqb k' k then (k, v) :: d' else (k', v') :: dict_set k v d'
  end.

Definition register (tool : ToolPlugin) (reg : ToolsRegistry) : ToolsRegistry :=
  {| _tools := dict_set (tool_name tool) tool (_tools reg) |}.

(** [self._tools.get(name)] *)
Fixpoint dict_lookup {V} (k : string) (d : list (string * V)) : option V :=
  match d with
  | [] => None
  | (k', v) :: d' => if String.eqb k' k then Some v else dict_lookup k d'
  end.

Definition get (name : string) (reg : ToolsRegistry) : option ToolPlugin :=
  dict_lookup name (_tools reg).

Definition list_tools (reg : ToolsRegistry) : list ToolPlugin :=
  map snd (_tools reg).

(** [tools/runner.py] *)
Definition skipped_event (t : ToolPlugin) : json :=
  JDict [("tool_id", JStr (tool_id t)); ("event", JStr "skipped");
         ("title", JStr "Tool disabled");
         ("message", JStr (tool_id t +:+ " is disabled for this session."));
         ("data", JDict [])].

Definition error_event (t : ToolPlugin) (e : exn) : json :=
  JDict [("tool_id", JStr (tool_id t)); ("event", JStr "error");
         ("title", JStr "Tool failed");
         ("message", JStr (exn_str e));
         ("data", JDict [])].

(** The loop of [run_tools] over the tools still to visit, with the events
    collected so far. *)
Fixpoint run_tools_from (ts : list ToolPlugin) (ctx : ToolContext)
    (enabled_map : gmap string bool) (events : list json) : M (list json) :=
  match ts with
  | [] => mret events
  | tool :: ts' =>
      if negb (default true (enabled_map !! tool_id tool))
      then run_tools_from ts' ctx enabled_map (events ++ [skipped_event tool])
      else
        events ← try_except
                   (tool_events ← run tool ctx;
                    mret (events ++ default [] tool_events))
                   (λ e, mret (events ++ [error_event tool e]));
        run_tools_from ts' ctx enabled_map events
  end.

Definition run_tools (registry : ToolsRegistry) (ctx : ToolContext)
    (enabled_map : gmap string bool) : M (list json) :=
  run_tools_from (list_tools registry) ctx enabled_map [].

Section alerts.
Context (E : Env).

(** [tools/alerts/alert_extractor.py] *)

Definition _ollama_chat (persona : json) (memory_items : list json)
    (recent_messages : list ChatMsg) (assistant_final_text : json)
    : M string := λ w,
  (alerts_backend E (alert_calls w) persona (take 20 memory_items)
     recent_messages assistant_final_text,
   {| w_db := w_db w; uuid_calls := uuid_calls w;
      clock_calls := clock_calls w; chat_calls := chat_calls w;
      judge_calls := judge_calls w; mx1_calls := mx1_calls w;
      alert_calls := S (alert_calls w) |}).

(** [json.loads] under [except json.JSONDecodeError: pass]: [Ok None]
    stands for the pass. *)
Definition loads_or_pass (text : string) : Result (option json) :=
  match json_loads E text with
  | Ok v => Ok (Some v)
  | Raise (PyExc "JSONDecodeError" _) => Ok None
  | Raise e => Raise e
  end.

Definition first_object (text : string) : Result (option json) :=
  match find_char "{" text with
  | Some first_brace =>
      match rfind_char "}" text with
      | Some last_brace =>
          if (first_brace <? last_brace)%nat
          then loads_or_pass
                 (substring first_brace (last_brace + 1 - first_brace) text)
          else Ok None
      | None => Ok None
      end
  | None => Ok None
  end.

Definition _extract_json_from_response (text : string) : Result (option json) :=
  let text := strip text in
  match fence_search (list_ascii_of_string text) with
  | Some group =>
      r ← loads_or_pass (string_of_list_ascii group);
      match r with
      | Some v => Ok (Some v)
      | None => first_object text
      end
  | None => first_object text
  end.

(** One turn of the validation loop over [create_list[:2]]. *)
Definition validate_alert (alert : json) : option json :=
  match alert with
  | JDict d =>
      let title := strip (str_ E (py_or (get_or d "title" JNull) (JStr ""))) in
      let due_at := strip (str_ E (py_or (get_or d "due_at" JNull) (JStr ""))) in
      if String.eqb title "" || String.eqb due_at "" then None
      else
        let repeat_rule := get_or d "repeat_rule" JNull in
        let repeat_rule :=
          if truthy repeat_rule && negb (in_strs repeat_rule ["DAILY"; "WEEKLY"])
          then JNull else repeat_rule in
        Some (JDict [("title", JStr title);
                     ("body",
                      py_or (JStr (strip (str_ E (py_or (get_or d "body" JNull)
                                                    (JStr "")))))
                        JNull);
                     ("due_at", JStr due_at);
                     ("repeat_rule", repeat_rule)])
  | _ => None
  end.

(** The body of the [try] of [extract_alerts] after the backend has answered:
    the ["create"] list of the result. *)
Definition alerts_of_reply (response_text : string) : Result (list json) :=
  result ← _extract_json_from_response response_text;
  match result with
  | Some (JDict d) =>
      match d with
      | [] => Ok []
      | _ =>
          match get_or d "create" (JList []) with
          | JList create_list => Ok (omap validate_alert (take 2 create_list))
          | _ => Ok []
          end
      end
  | Some _ | None => Ok []
  end.

(** [extract_alerts], as the list under ["create"]. *)
Definition extract_alerts (persona : json) (memory_items : list json)
    (recent_messages : list ChatMsg) (assistant_final_text : json)
    : M (list json) :=
  try_except
    (response_text ← _ollama_chat persona memory_items recent_messages
                       assistant_final_text;
     lift (alerts_of_reply response_text))
    (λ _, mret []).

(** [tools/alerts/alert_service.py] *)

(** [float(confidence)] clamped, with 0.8 on [ValueError] and [TypeError];
    another exception leaves the inner [try]. *)
Definition alert_confidence (confidence : json) : Result float :=
  match memory_extractor.py_float E confidence with
  | Ok f => Ok (py_max 0%float (py_min 1%float f))
  | Raise (PyExc "ValueError" _) | Raise (PyExc "TypeError" _) => Ok 0.8%float
  | Raise e => Raise e
  end.

(** The body of the [try] for one alert: the event appended, or [None] on
    [continue]. *)
Definition create_one (session_id : option string) (scope : string)
    (alert_data : json) : M (option json) :=
  d ← lift (as_dict alert_data);
  let title := strip (str_ E (py_or (get_or d "title" JNull) (JStr ""))) in
  let body := strip (str_ E (py_or (get_or d "body" JNull) (JStr ""))) in
  let due_at := strip (str_ E (py_or (get_or d "due_at" JNull) (JStr ""))) in
  let confidence := get_or d "confidence" (JFloat 0.8%float) in
  let source_message_id := get_or d "source_message_id" JNull in
  if String.eqb title "" || String.eqb due_at "" then mret None
  else
    confidence ← lift (alert_confidence confidence);
    alert_id ← db.create_alert E scope title body (Some due_at) confidence
                 (if String.eqb scope "session" then session_id else None)
                 source_message_id;
    mret (Some (JDict [("type", JStr "alert_created");
                       ("alert_id", JStr alert_id);
                       ("title", JStr title);
                       ("due_at", JStr due_at)])).

Fixpoint create_each (session_id : option string) (scope : string)
    (alerts : list json) (tool_events : list json) : M (list json) :=
  match alerts with
  | [] => mret tool_events
  | alert_data :: rest =>
      tool_events ← try_except
                      (r ← create_one session_id scope alert_data;
                       mret (tool_events ++ from_option (λ e, [e]) [] r))
                      (λ _, mret tool_events);
      create_each session_id scope rest tool_events
  end.

Definition execute_alert_creation (alerts : list json)
    (session_id : option string) (scope : string) : M (list json) :=
  create_each session_id scope (take 2 alerts) [].

Definition mark_alert_done (alert_id : string) : M bool :=
  db.update_alert_status E alert_id "done".

Definition mark_alert_cancelled (alert_id : string) : M bool :=
  db.update_alert_status E alert_id "cancelled".

(** [tools/alerts/tool.py] *)
Definition AlertsTool_run (ctx : ToolContext) : M (option (list json)) :=
  alerts_to_create ← extract_alerts (ctx_persona ctx) (ctx_memory_items ctx)
                       (ctx_recent_messages ctx) (ctx_assistant_final ctx);
  match alerts_to_create with
  | [] => mret (Some [])
  | _ =>
      created ← execute_alert_creation alerts_to_create
                  (Some (ctx_session_id ctx)) "session";
      match created with
      | [] => mret (Some [])
      | _ =>
          mret (Some [JDict [("type", JStr "alert_created");
                             ("count", JInt (Z.of_nat (length created)));
                             ("items", JList created)]])
      end
  end.

Definition AlertsTool : ToolPlugin :=
  {| tool_id := "alerts";
     tool_name := "Alerts";
     tool_description :=
       "WORKING alert/reminder system. When user asks to set a reminder, CONFIRM you will do it. The alert is saved and will appear in their Alerts Panel. Say: 'Done! I've set a reminder for [time].' Do NOT say you cannot set alerts.";
     should_run := λ _, true;
     run := AlertsTool_run |}.

(** [tools/bootstrap.py] *)
Definition build_tools_registry : ToolsRegistry :=
  register AlertsTool {| _tools := [] |}.

End alerts.
End tools.

(* ===================================================================== *)
(** * [pipeline.py] *)
(* ===================================================================== *)

Module pipeline.

(** The [debug] dict. *)
Record Debug := {
  dbg_session_id : string;
  dbg_msg_count : option Z;
  dbg_should_update_summary : option bool;
  dbg_memory_items_upserted : nat;
  dbg_summary_updated : bool;
  dbg_summary_len : nat;
  dbg_errors : list string }.

(** The pipeline mutates [debug] as it goes, and what it has written stays
    when an exception is raised: its code runs in [P], the monad [M] with
    the [debug] dict as further state. *)
Definition P (A : Type) : Type := Debug -> World -> Result A * Debug * World.

#[global] Instance P_ret : MRet P := λ A a dbg w, (Ok a, dbg, w).

#[global] Instance P_bind : MBind P := λ A B f m dbg w,
  match m dbg w with
  | (Ok a, dbg', w') => f a dbg' w'
  | (Raise e, dbg', w') => (Raise e, dbg', w')
  end.

Definition call {A} (m : M A) : P A := λ dbg w,
  let '(r, w') := m w in (r, dbg, w').

Definition update_debug (f : Debug -> Debug) : P unit := λ dbg w,
  (Ok tt, f dbg, w).

Definition p_try {A} (m : P A) (h : exn -> P A) : P A := λ dbg w,
  match m dbg w with
  | (Ok a, dbg', w') => (Ok a, dbg', w')
  | (Raise e, dbg', w') => h e dbg' w'
  end.

Definition set_counts (msg_count : Z) (should : bool) (d : Debug) : Debug :=
  {| dbg_session_id := dbg_session_id d; dbg_msg_count := Some msg_count;
     dbg_should_update_summary := Some should;
     dbg_memory_items_upserted := dbg_memory_items_upserted d;
     dbg_summary_updated := dbg_summary_updated d;
     dbg_summary_len := dbg_summary_len d; dbg_errors := dbg_errors d |}.

Definition set_upserted (n : nat) (d : Debug) : Debug :=
  {| dbg_session_id := dbg_session_id d; dbg_msg_count := dbg_msg_count d;
     dbg_should_update_summary := dbg_should_update_summary d;
     dbg_memory_items_upserted := n;
     dbg_summary_updated := dbg_summary_updated d;
     dbg_summary_len := dbg_summary_len d; dbg_errors := dbg_errors d |}.

Definition set_summary_updated (len : nat) (d : Debug) : Debug :=
  {| dbg_session_id := dbg_session_id d; dbg_msg_count := dbg_msg_count d;
     dbg_should_update_summary := dbg_should_update_summary d;
     dbg_memory_items_upserted := dbg_memory_items_upserted d;
     dbg_summary_updated := true;
     dbg_summary_len := len; dbg_errors := dbg_errors d |}.

Definition add_error (msg : string) (d : Debug) : Debug :=
  {| dbg_session_id := dbg_session_id d; dbg_msg_count := dbg_msg_count d;
     dbg_should_update_summary := dbg_should_update_summary d;
     dbg_memory_items_upserted := dbg_memory_items_upserted d;
     dbg_summary_updated := dbg_summary_updated d;
     dbg_summary_len := dbg_summary_len d;
     dbg_errors := dbg_errors d ++ [msg] |}.

Definition to_chat (m : MessageRow) : ChatMsg :=
  {| role := m_role m; content := m_content m |}.

Definition _fallback_summary_from_recent (recent : list ChatMsg) (msg_count : Z)
    : string :=
  match recent with
  | [] => "Session with " +:+ str_of_int msg_count +:+ " messages."
  | _ =>
      let tail := slice_from (-4) recent in
      let snippets :=
        omap (λ m,
              let content := replace_char nl " " (strip (content m)) in
              if negb (String.eqb content "")
              then Some (role m +:+ ": " +:+ str_upto 80 content)
              else None) tail in
      let joined := join " | " (take 3 snippets) in
      "Session with " +:+ str_of_int msg_count +:+ " messages. Recent: "
      +:+ joined
  end.

Section pipeline.
Context (E : Env).

(** Step 1: the messages handed to MX1 as recent context. *)
Definition recent_context (msgs : list MessageRow) : list ChatMsg :=
  slice_from (- MX1_RECENT_MESSAGES E) (map to_chat msgs).

(** Step 5: the loop over the accepted items. *)
Fixpoint upsert_items (session_id : string)
    (items : list memory_extractor.MemoryCandidate) (upserted : nat) : M nat :=
  match items with
  | [] => mret upserted
  | it :: rest =>
      let scope := memory_extractor.mc_scope it in
      _ ← db.upsert_memory_item E scope (memory_extractor.mc_key it)
            (memory_extractor.mc_value it) (memory_extractor.mc_confidence it)
            (if String.eqb scope "session" then Some session_id else None)
            None;
      upsert_items session_id rest (S upserted)
  end.

(** The body of the outer [try]. *)
Definition pipeline_body (session_id : string) (persona : json) : P unit :=
  msgs ← call (db.get_messages session_id 50);
  let recent := recent_context msgs in
  msg_count ← call (db.count_messages session_id);
  r ← call (lift (py_mod msg_count (SUMMARY_CADENCE E)));
  let should_update_summary := (r =? 0)%Z in
  _ ← update_debug (set_counts msg_count should_update_summary);
  session_summary ← call (db.get_session_summary session_id);
  '(items, summary_patch, raw) ←
     call (memory_extractor.extract_mx1 E persona
             ((λ r, (ss_summary r, ss_open_loops r)) <$> session_summary)
             recent (MX1_CONFIDENCE_THRESHOLD E) (ALLOW_GLOBAL_WRITE E));
  upserted ← call (upsert_items session_id items 0);
  _ ← update_debug (set_upserted upserted);
  if should_update_summary then
    let summary_text := strip (memory_extractor.sp_summary summary_patch) in
    if negb (String.eqb summary_text "") then
      _ ← call (db.upsert_session_summary E session_id summary_text
                  (memory_extractor.sp_open_loops summary_patch));
      update_debug (set_summary_updated (String.length summary_text))
    else
      let fallback := _fallback_summary_from_recent recent msg_count in
      _ ← call (db.upsert_session_summary E session_id fallback
                  (memory_extractor.sp_open_loops summary_patch));
      _ ← update_debug (set_summary_updated (String.length fallback));
      update_debug
        (add_error "MX1 returned empty summary at cadence; used fallback summary.")
  else mret tt.

(** The body of the inner [try]: the emergency summary. *)
Definition emergency_body (session_id : string) : P unit :=
  msg_count ← call (db.count_messages session_id);
  r ← call (lift (py_mod msg_count (SUMMARY_CADENCE E)));
  if (r =? 0)%Z then
    let emergency := "Session with " +:+ str_of_int msg_count
                     +:+ " messages. Summary temporarily unavailable." in
    _ ← call (db.upsert_session_summary E session_id emergency []);
    _ ← update_debug (set_counts msg_count true);
    _ ← update_debug (set_summary_updated (String.length emergency));
    update_debug (add_error "MX1 failed at cadence; wrote emergency summary.")
  else mret tt.

Definition run_post_chat_pipeline (session_id : string) (persona : json)
    : M Debug := λ w,
  let debug := {| dbg_session_id := session_id; dbg_msg_count := None;
                  dbg_should_update_summary := None;
                  dbg_memory_items_upserted := 0;
                  dbg_summary_updated := false; dbg_summary_len := 0;
                  dbg_errors := [] |} in
  let '(_, debug, w) :=
    p_try (pipeline_body session_id persona)
      (λ e,
       _ ← update_debug (add_error ("pipeline_error: " +:+ exn_str e));
       p_try (emergency_body session_id)
         (λ e2,
          update_debug
            (add_error ("emergency_summary_failed: " +:+ exn_str e2))))
      debug w in
  (Ok debug, w).

End pipeline.
End pipeline.

(* ===================================================================== *)
(** * [main.py] *)
(* ===================================================================== *)

Module main.

Import judge_agent tools.

(** The variables of the retry loop.  [assistant_draft] is unbound and
    [judge_result] is [{}] until the first turn of the loop assigns them. *)
Record LoopState := {
  current_history : list ChatMsg;
  final_text : json;
  verdict : string;
  judge_result : option JudgeResult;
  assistant_draft : option string }.

(** The body of the response of [/chat/send]. *)
Record ChatResponse := {
  r_session_id : string;
  r_persona_id : string;
  r_assistant : json;
  r_verdict : string;
  r_reason : option string;
  r_risk_tags : list string;
  r_pipeline : pipeline.Debug;
  r_tool_events : list json }.

(** [dict(r)] for a row of [memory_items] *)
Definition memory_row_dict (r : MemoryRow) : json :=
  let opt := from_option JStr JNull in
  JDict [("id", JStr (mi_id r)); ("scope", JStr (mi_scope r));
         ("session_id", opt (mi_session_id r)); ("key", JStr (mi_key r));
         ("value", JStr (mi_value r)); ("confidence", JFloat (mi_confidence r));
         ("source_message_id", opt (mi_source_message_id r));
         ("created_at", JStr (mi_created_at r));
         ("updated_at", JStr (mi_updated_at r))].

Definition max_retries : Z := 3.

Section api.
Context (E : Env).

Definition TOOLS_REGISTRY : ToolsRegistry := build_tools_registry E.

Definition ollama_chat (system_prompt : string) (history : list ChatMsg)
    (user_message : string) : M string := λ w,
  (chat_backend E (chat_calls w) system_prompt history user_message,
   {| w_db := w_db w; uuid_calls := uuid_calls w;
      clock_calls := clock_calls w; chat_calls := S (chat_calls w);
      judge_calls := judge_calls w; mx1_calls := mx1_calls w;
      alert_calls := alert_calls w |}).

(** Step 1 of [chat_send_api]: the memory read path. *)
Definition read_memory (persona : list (string * json)) (session_id : string)
    : M (list json) :=
  mem_policy ← lift (as_dict (get_or persona "memory_policy" (JDict [])));
  if truthy (get_or mem_policy "enabled" JNull) then
    let scope := get_or mem_policy "scope" (JStr "session") in
    if eq_str scope "global" then
      rows ← db.list_memory_items "global" None 50;
      mret (map memory_row_dict rows)
    else
      global_mem ← db.list_memory_items "global" None 50;
      session_mem ← db.list_memory_items "session" (Some session_id) 50;
      mret (map memory_row_dict (global_mem ++ session_mem))
  else mret [].

(** The [for attempt in range(max_retries)] loop, over the attempts still
    to make. *)
Fixpoint retry_loop (persona : json) (mem_items : list json)
    (system_prompt message : string) (attempts : list Z) (st : LoopState)
    : M LoopState :=
  match attempts with
  | [] => mret st
  | attempt :: rest =>
      assistant_draft ←
        try_except (ollama_chat system_prompt (current_history st) message)
          (λ e, raise (HTTPException 502
                         ("Ollama chat failed: " +:+ exn_str e)));
      judge_result ← run_judge E persona message assistant_draft mem_items;
      let verdict := jr_verdict judge_result in
      let feedback := jr_feedback judge_result in
      let st := {| current_history := current_history st;
                   final_text := final_text st;
                   verdict := verdict;
                   judge_result := Some judge_result;
                   assistant_draft := Some assistant_draft |} in
      let break_with (text : json) : M LoopState :=
        mret {| current_history := current_history st;
                final_text := text;
                verdict := verdict;
                judge_result := Some judge_result;
                assistant_draft := Some assistant_draft |} in
      if String.eqb verdict "PASS" then
        break_with (JStr assistant_draft)
      else if String.eqb verdict "REWRITE" then
        if truthy feedback && (attempt <? max_retries - 1)%Z then
          retry_loop persona mem_items system_prompt message rest
            {| current_history :=
                 current_history st ++
                 [{| role := "assistant"; content := assistant_draft |};
                  {| role := "system";
                     content :=
                       "Your previous response was rejected. Feedback: "
                       +:+ str_ E feedback
                       +:+ ". Rewrite it following these instructions." |}];
               final_text := final_text st;
               verdict := verdict;
               judge_result := Some judge_result;
               assistant_draft := Some assistant_draft |}
        else
          break_with (py_or (jr_rewritten_response judge_result)
                        (JStr assistant_draft))
      else if String.eqb verdict "BLOCK" then
        break_with (py_or (jr_rewritten_response judge_result)
                      (JStr "I cannot answer that."))
      else
        retry_loop persona mem_items system_prompt message rest st
  end.

(** [range(max_retries)] *)
Definition attempts : list Z := [0; 1; 2]%Z.

(** [chat_send_api] from the memory read path on, for the session's
    persona. *)
Definition chat_turn (session_id message persona_id : string) (persona : json)
    : M ChatResponse :=
  (* 1) memory read path *)
  persona_d ← lift (as_dict persona);
  mem_items ← read_memory persona_d session_id;
  (* 2) persist user message *)
  _ ← db.add_message E session_id "user" (JStr message);
  msgs ← db.get_messages session_id 50;
  let history :=
    map pipeline.to_chat
      (filter (λ m, (String.eqb (m_role m) "user"
                     || String.eqb (m_role m) "assistant") = true) msgs) in
  (* 3) draft and 4) judge retry loop *)
  let all_tools := list_tools TOOLS_REGISTRY in
  system_prompt ←
    lift (build_system_prompt E persona mem_items
            (map (λ t, (tool_name t, tool_description t)) all_tools));
  let current_history := drop_last history in
  st ← retry_loop persona mem_items system_prompt message attempts
         {| current_history := current_history;
            final_text := JStr "";
            verdict := "PASS";
            judge_result := None;
            assistant_draft := None |};
  final_text ←
    (if negb (truthy (final_text st)) then
       match assistant_draft st with
       | Some d => mret (JStr d)
       | None => raise (PyExc "UnboundLocalError" "assistant_draft")
       end
     else mret (final_text st));
  let verdict :=
    if String.eqb (verdict st) "REWRITE" && truthy final_text
    then "PASS" else verdict st in
  (* persist assistant final *)
  _ ← db.add_message E session_id "assistant" final_text;
  pipeline_debug ← pipeline.run_post_chat_pipeline E session_id persona;
  (* tools *)
  let tool_ids := map tool_id (list_tools TOOLS_REGISTRY) in
  enabled_map ← db.get_effective_tool_enabled_map session_id tool_ids;
  msgs_latest ← db.get_messages session_id 50;
  let recent10 := slice_from (-10) (map pipeline.to_chat msgs_latest) in
  session_summary ← db.get_session_summary session_id;
  let tool_ctx :=
    {| ctx_session_id := session_id;
       ctx_persona := persona;
       ctx_memory_items := mem_items;
       ctx_session_summary := session_summary;
       ctx_recent_messages := recent10;
       ctx_user_message := message;
       ctx_assistant_final := final_text;
       ctx_ollama_base_url := OLLAMA_BASE_URL E;
       ctx_ollama_model := OLLAMA_MODEL E |} in
  tool_events ← run_tools TOOLS_REGISTRY tool_ctx enabled_map;
  mret {| r_session_id := session_id;
          r_persona_id := persona_id;
          r_assistant := final_text;
          r_verdict := verdict;
          r_reason := jr_reason <$> judge_result st;
          r_risk_tags := from_option jr_risk_tags [] (judge_result st);
          r_pipeline := pipeline_debug;
          r_tool_events := tool_events |}.

Definition chat_send_api (session_id message : string) : M ChatResponse :=
  s ← db.get_session session_id;
  match s with
  | None => raise (HTTPException 404 "Session not found")
  | Some s =>
      let persona_id := s_persona_id s in
      match PERSONAS E !! persona_id with
      | None | Some JNull | Some (JDict []) =>
          raise (HTTPException 500 "Session persona missing")
      | Some persona => chat_turn session_id message persona_id persona
      end
  end.

(** [POST /alerts/{alert_id}/done] and [POST /alerts/{alert_id}/cancel] *)
Definition mark_alert_done_api (alert_id : string) : M unit :=
  ok ← mark_alert_done E alert_id;
  if ok : bool then mret tt else raise (HTTPException 404 "Alert not found").

Definition mark_alert_cancel_api (alert_id : string) : M unit :=
  ok ← mark_alert_cancelled E alert_id;
  if ok : bool then mret tt else raise (HTTPException 404 "Alert not found").

(** [POST /sessions] *)
Definition create_session_api (persona_id : string) : M string :=
  match PERSONAS E !! persona_id with
  | None => raise (HTTPException 400 "Invalid persona_id")
  | Some _ => db.create_session E persona_id
  end.

(** The body of the response of [GET /sessions/{session_id}/summary]. *)
Record SummaryInfo := {
  si_session : SessionRow;
  si_summary : option SummaryRow;
  si_message_count : Z;
  si_should_update_at_next : bool;
  si_next_update_at : Z }.

Definition session_summary_api (session_id : string) : M SummaryInfo :=
  s ← db.get_session session_id;
  match s with
  | None => raise (HTTPException 404 "Session not found")
  | Some s =>
      summary ← db.get_session_summary session_id;
      msg_count ← db.count_messages session_id;
      mret {| si_session := s;
              si_summary := summary;
              si_message_count := msg_count;
              si_should_update_at_next := (msg_count mod 6 =? 0)%Z;
              si_next_update_at := ((msg_count / 6 + 1) * 6)%Z |}
  end.

(** [DELETE /memory/{mem_id}] *)
Definition delete_memory_api (mem_id : string) : M unit :=
  ok ← db.delete_memory_item mem_id;
  if ok : bool then mret tt
  else raise (HTTPException 404 "Memory item not found").

(** [POST /memory], on a request body that passed validation. *)
Definition upsert_memory_api (scope key value : string) (confidence : float)
    (session_id : option string) : M string :=
  let no_session :=
    match session_id with None | Some "" => true | Some _ => false end in
  if String.eqb scope "session" && no_session
  then raise (HTTPException 400 "session_id is required for session scope")
  else db.upsert_memory_item E scope key value confidence session_id None.

(** [PUT /tools/settings], on a request body that passed validation. *)
Definition upsert_tool_setting_api (scope tool_id : string) (enabled : bool)
    (session_id : option string) : M string :=
  let no_session :=
    match session_id with None | Some "" => true | Some _ => false end in
  if String.eqb scope "session" && no_session
  then raise (HTTPException 400 "session_id is required for session scope")
  else db.upsert_tool_setting E scope tool_id enabled session_id.

(** [GET /alerts/due] *)
Definition get_due_alerts_api (session_id : option string) (limit : Z)
    : M (list (string * AlertRow)) :=
  db.get_due_alerts E session_id limit.

End api.
End main.

(* ===================================================================== *)
(** * A concrete environment *)
(* ===================================================================== *)

(** The closed examples below run the code in this environment: a
    deterministic uuid source and clock, a decoder for a fragment of JSON
    and a scripted model backend. *)
Module Demo.

(** ** A decoder for a fragment of JSON

    Objects, arrays, strings without escapes, integers and the three
    literals; on any other text it reports a decode error. *)

Definition is_json_ws (c : ascii) : bool :=
  let n := nat_of_ascii c in
  (n =? 32)%nat || (n =? 9)%nat || (n =? 10)%nat || (n =? 13)%nat.

Fixpoint skip_ws (cs : list ascii) : list ascii :=
  match cs with
  | c :: cs' => if is_json_ws c then skip_ws cs' else cs
  | [] => []
  end.

Definition quote : ascii := ascii_of_nat 34.
Definition backslash : ascii := ascii_of_nat 92.

(** The characters up to the closing quote. *)
Fixpoint str_body (cs : list ascii) : option (string * list ascii) :=
  match cs with
  | [] => None
  | c :: cs' =>
      if Ascii.eqb c quote then Some ("", cs')
      else if Ascii.eqb c backslash || (nat_of_ascii c <? 32)%nat then None
      else match str_body cs' with
           | Some (s, rest) => Some (String c s, rest)
           | None => None
           end
  end.

Definition digit_val (c : ascii) : option Z :=
  let n := nat_of_ascii c in
  if (48 <=? n)%nat && (n <=? 57)%nat then Some (Z.of_nat (n - 48)) else None.

Fixpoint digits (cs : list ascii) (acc : Z) : Z * list ascii :=
  match cs with
  | c :: cs' =>
      match digit_val c with
      | Some d => digits cs' (10 * acc + d)%Z
      | None => (acc, cs)
      end
  | [] => (acc, [])
  end.

Definition starts_fraction (cs : list ascii) : bool :=
  match cs with
  | c :: _ => Ascii.eqb c "." || Ascii.eqb c "e" || Ascii.eqb c "E"
  | [] => false
  end.

(** An integer: no leading zero, no fraction, no exponent. *)
Definition int_lit (cs : list ascii) : option (Z * list ascii) :=
  match cs with
  | c :: cs' =>
      match digit_val c with
      | Some d =>
          let '(z, rest) := digits cs' d in
          if (d =? 0)%Z && negb (length rest =? length cs')%nat then None
          else if starts_fraction rest then None
          else Some (z, rest)
      | None => None
      end
  | [] => None
  end.

Fixpoint strip_prefix (p cs : list ascii) : option (list ascii) :=
  match p, cs with
  | [], _ => Some cs
  | a :: p', c :: cs' => if Ascii.eqb a c then strip_prefix p' cs' else None
  | _ :: _, [] => None
  end.

Fixpoint members (fuel : nat) (pv : list ascii -> option (json * list ascii))
    (cs : list ascii) (acc : list (string * json))
    : option (list (string * json) * list ascii) :=
  match fuel with
  | 0 => None
  | S fuel' =>
      match skip_ws cs with
      | c :: cs1 =>
          if negb (Ascii.eqb c quote) then None
          else
            match str_body cs1 with
            | Some (k, cs2) =>
                match skip_ws cs2 with
                | ":"%char :: cs3 =>
                    match pv cs3 with
                    | Some (v, cs4) =>
                        let acc := tools.dict_set k v acc in
                        match skip_ws cs4 with
                        | ","%char :: cs5 => members fuel' pv cs5 acc
                        | "}"%char :: cs5 => Some (acc, cs5)
                        | _ => None
                        end
                    | None => None
                    end
                | _ => None
                end
            | None => None
            end
      | [] => None
      end
  end.

Fixpoint elements (fuel : nat) (pv : list ascii -> option (json * list ascii))
    (cs : list ascii) (acc : list json) : option (list json * list ascii) :=
  match fuel with
  | 0 => None
  | S fuel' =>
      match pv cs with
      | Some (v, cs1) =>
          match skip_ws cs1 with
          | ","%char :: cs2 => elements fuel' pv cs2 (acc ++ [v])
          | "]"%char :: cs2 => Some (acc ++ [v], cs2)
          | _ => None
          end
      | None => None
      end
  end.

Fixpoint value (fuel : nat) (cs : list ascii) : option (json * list ascii) :=
  match fuel with
  | 0 => None
  | S fuel' =>
      match skip_ws cs with
      | [] => None
      | c :: cs1 =>
          if Ascii.eqb c "{" then
            match skip_ws cs1 with
            | "}"%char :: cs2 => Some (JDict [], cs2)
            | _ =>
                match members (length cs) (value fuel') cs1 [] with
                | Some (d, rest) => Some (JDict d, rest)
                | None => None
                end
            end
          else if Ascii.eqb c "[" then
            match skip_ws cs1 with
            | "]"%char :: cs2 => Some (JList [], cs2)
            | _ =>
                match elements (length cs) (value fuel') cs1 [] with
                | Some (l, rest) => Some (JList l, rest)
                | None => None
                end
            end
          else if Ascii.eqb c quote then
            match str_body cs1 with
            | Some (s, rest) => Some (JStr s, rest)
            | None => None
            end
          else if Ascii.eqb c "-" then
            match int_lit cs1 with
            | Some (z, rest) => Some (JInt (- z), rest)
            | None => None
            end
          else
            match int_lit (c :: cs1) with
            | Some (z, rest) => Some (JInt z, rest)
            | None =>
                match strip_prefix (list_ascii_of_string "true") (c :: cs1),
                      strip_prefix (list_ascii_of_string "false") (c :: cs1),
                      strip_prefix (list_ascii_of_string "null") (c :: cs1) with
                | Some rest, _, _ => Some (JBool true, rest)
                | _, Some rest, _ => Some (JBool false, rest)
                | _, _, Some rest => Some (JNull, rest)
                | _, _, _ => None
                end
            end
      end
  end.

Definition loads (s : string) : Result json :=
  let cs := list_ascii_of_string s in
  match value (S (length cs)) cs with
  | Some (v, rest) =>
      match skip_ws rest with
      | [] => Ok v
      | _ => Raise (PyExc "JSONDecodeError" "Extra data")
      end
  | None => Raise (PyExc "JSONDecodeError" "Expecting value")
  end.

(** [text] between double quotes *)
Definition qt (text : string) : string :=
  String quote text +:+ String quote "".

(** ** Clock and uuid source *)

Definition pad6 (n : nat) : string :=
  let s := str_of_int (Z.of_nat n) in
  string_of_list_ascii (replicate (6 - String.length s) "0"%char) +:+ s.

(** ** Scripted backend *)

(** The judge asks for one rewrite, then passes. *)
Definition judge_script (n : nat) : string :=
  match n with
  | 0 => "{" +:+ qt "verdict" +:+ ": " +:+ qt "REWRITE" +:+ ", "
         +:+ qt "feedback" +:+ ": " +:+ qt "be kinder" +:+ ", "
         +:+ qt "reason" +:+ ": " +:+ qt "tone" +:+ "}"
  | _ => "Verdict: {" +:+ qt "verdict" +:+ ": " +:+ qt "PASS" +:+ "}"
  end.

(** A reply whose verdict is known and whose replacement text is a number. *)
Definition block_reply : string :=
  "{" +:+ qt "verdict" +:+ ": " +:+ qt "BLOCK" +:+ ", "
  +:+ qt "rewritten_response" +:+ ": 42}".

(** A REWRITE that brings a number for feedback and an empty list for the
    rewrite. *)
Definition empty_rewrite_reply : string :=
  "{" +:+ qt "verdict" +:+ ": " +:+ qt "REWRITE" +:+ ", "
  +:+ qt "feedback" +:+ ": 0, " +:+ qt "rewritten_response" +:+ ": [], "
  +:+ qt "reason" +:+ ": " +:+ qt "tone" +:+ "}".

Definition mx1_script : string :=
  "{" +:+ qt "items" +:+ ": [{" +:+ qt "scope" +:+ ": " +:+ qt "session"
  +:+ ", " +:+ qt "key" +:+ ": " +:+ qt "pet_name" +:+ ", "
  +:+ qt "value" +:+ ": " +:+ qt "Milo" +:+ ", "
  +:+ qt "confidence" +:+ ": 1}], " +:+ qt "summary_patch" +:+ ": {"
  +:+ qt "summary" +:+ ": " +:+ qt "Talked about Milo." +:+ "}}".

(** The alert extraction finds one reminder, in a fenced block. *)
Definition alerts_script : string :=
  "Here you go: ```json {" +:+ qt "create" +:+ ": [{" +:+ qt "title" +:+ ": "
  +:+ qt "Call mum" +:+ ", " +:+ qt "due_at" +:+ ": "
  +:+ qt "2026-01-02T09:00:00+05:30" +:+ ", " +:+ qt "repeat_rule" +:+ ": "
  +:+ qt "HOURLY" +:+ "}]} ```".

Definition coach : json :=
  JDict [("id", JStr "coach"); ("name", JStr "Coach");
         ("description", JStr "A direct coach");
         ("sliders", JDict []); ("style", JDict []);
         ("memory_policy",
          JDict [("enabled", JBool true); ("scope", JStr "session")]);
         ("ethical_bounds", JDict []); ("tool_permissions", JDict [])].

Definition env_full (judge_enabled : bool) (cadence : Z)
    (chat : nat -> list ChatMsg -> Result string)
    (judge : nat -> Result string) (mx1 : list ChatMsg -> Result string)
    : Env :=
  {| uuid4 := λ n, "uuid-" +:+ str_of_int (Z.of_nat n);
     utcnow_iso := λ n, "2026-01-01T00:00:00." +:+ pad6 (S n);
     json_loads := loads;
     py_str := λ _, "?";
     float_of_str := λ _, None;
     sqlite_real_text := λ _, "?";
     JUDGE_ENABLED := judge_enabled;
     MX1_CONFIDENCE_THRESHOLD := 0.8%float;
     MX1_RECENT_MESSAGES := 10;
     SUMMARY_CADENCE := cadence;
     ALLOW_GLOBAL_WRITE := true;
     OLLAMA_BASE_URL := "http://ollama:11434";
     OLLAMA_MODEL := "llama3.2:3b";
     PERSONAS := {[ "coach" := coach ]};
     chat_backend := λ n _ history _, chat n history;
     judge_backend := λ n _ _ _ _, judge n;
     mx1_backend := λ _ _ _ recent _, mx1 recent;
     alerts_backend := λ _ _ _ _ _, Ok alerts_script;
     build_system_prompt := λ _ _ _, Ok "- You are the persona 'Coach'" |}.

(** The drafts are numbered: "draft 0", "draft 1", ... *)
Definition env_with (judge_enabled : bool) (cadence : Z)
    (judge : nat -> Result string) (mx1 : list ChatMsg -> Result string)
    : Env :=
  env_full judge_enabled cadence
    (λ n _, Ok ("draft " +:+ str_of_int (Z.of_nat n))) judge mx1.

Definition env (judge_enabled : bool) (cadence : Z) : Env :=
  env_with judge_enabled cadence (λ n, Ok (judge_script n))
    (λ _, Ok mx1_script).

(** A database with one session and no message. *)
Definition world0 : World :=
  {| w_db := {| sessions := {[ "s1" := {| s_persona_id := "coach";
                                          s_created_at := "2026-01-01T00:00:00Z" |} ]};
                messages := []; memory_items := []; session_summaries := ∅;
                alerts := ∅; tool_settings := [] |};
     uuid_calls := 0; clock_calls := 0; chat_calls := 0; judge_calls := 0;
     mx1_calls := 0; alert_calls := 0 |}.

(** An extraction that summarises the conversation by the content of the
    last message it was given. *)
Definition mx1_echo (recent : list ChatMsg) : Result string :=
  Ok ("{" +:+ qt "summary_patch" +:+ ": {" +:+ qt "summary" +:+ ": "
      +:+ qt (from_option content "" (last recent)) +:+ "}}").

(** The [n] messages of a long conversation, in the order they were sent. *)
Definition conversation (n : nat) : list MessageRow :=
  map (λ k, {| m_id := "m" +:+ str_of_int (Z.of_nat k);
               m_session_id := "s1";
               m_role := if Nat.odd k then "user" else "assistant";
               m_content := "message " +:+ str_of_int (Z.of_nat k);
               m_created_at := "2026-01-01T00:00:00." +:+ pad6 k +:+ "Z" |})
    (seq 1 n).

Definition world_with (msgs : list MessageRow) : World :=
  set_db (db.set_messages msgs (w_db world0)) world0.

(** The same database with one alert that has been marked done. *)
Definition world_done : World :=
  set_db {| sessions := sessions (w_db world0); messages := [];
            memory_items := []; session_summaries := ∅;
            alerts := {[ "a1" := {| a_scope := "session";
                                    a_session_id := Some "s1";
                                    a_title := "Call mum"; a_body := "";
                                    a_due_at := Some "2026-01-02T09:00:00+05:30";
                                    a_status := "done"; a_confidence := 0.8%float;
                                    a_source_message_id := None;
                                    a_created_at := "2026-01-01T00:00:00Z";
                                    a_updated_at := "2026-01-01T00:05:00Z" |} ]};
            tool_settings := [] |} world0.

(** Three plugins: one that reports, one that fails after drawing a uuid,
    one that reports the number of uuids drawn so far. *)
Definition note (tool text : string) : json :=
  JDict [("tool_id", JStr tool); ("event", JStr "note"); ("message", JStr text)].

Definition tool_a : tools.ToolPlugin :=
  {| tools.tool_id := "a"; tools.tool_name := "A";
     tools.tool_description := "reports";
     tools.should_run := λ _, true;
     tools.run := λ _, mret (Some [note "a" "ran"]) |}.

Definition tool_b : tools.ToolPlugin :=
  {| tools.tool_id := "b"; tools.tool_name := "B";
     tools.tool_description := "fails";
     tools.should_run := λ _, true;
     tools.run := λ _, _ ← db.new_uuid (env true 6);
                       raise (PyExc "RuntimeError" "boom") |}.

Definition tool_c : tools.ToolPlugin :=
  {| tools.tool_id := "c"; tools.tool_name := "C";
     tools.tool_description := "counts";
     tools.should_run := λ _, true;
     tools.run := λ _, λ w,
       (Ok (Some [note "c" (str_of_int (Z.of_nat (uuid_calls w)))]), w) |}.

Definition registry_abc : tools.ToolsRegistry :=
  tools.register tool_c
    (tools.register tool_b (tools.register tool_a {| tools._tools := [] |})).

Definition ctx0 : tools.ToolContext :=
  {| tools.ctx_session_id := "s1"; tools.ctx_persona := coach;
     tools.ctx_memory_items := []; tools.ctx_session_summary := None;
     tools.ctx_recent_messages := []; tools.ctx_user_message := "hello";
     tools.ctx_assistant_final := JStr "hi";
     tools.ctx_ollama_base_url := "http://ollama:11434";
     tools.ctx_ollama_model := "llama3.2:3b" |}.

(** The response to a first message in [world0], up to the reply, the
    verdict and the reason, which vary with the judge. *)
Definition first_response (reply : json) (verdict reason : string)
    : main.ChatResponse :=
  {| main.r_session_id := "s1"; main.r_persona_id := "coach";
     main.r_assistant := reply; main.r_verdict := verdict;
     main.r_reason := Some reason; main.r_risk_tags := [];
     main.r_pipeline :=
       {| pipeline.dbg_session_id := "s1";
          pipeline.dbg_msg_count := Some 2%Z;
          pipeline.dbg_should_update_summary := Some false;
          pipeline.dbg_memory_items_upserted := 1;
          pipeline.dbg_summary_updated := false;
          pipeline.dbg_summary_len := 0;
          pipeline.dbg_errors := [] |};
     main.r_tool_events :=
       [JDict
          [("type", JStr "alert_created"); ("count", JInt 1);
           ("items",
            JList
              [JDict
                 [("type", JStr "alert_created");
                  ("alert_id", JStr "uuid-3");
                  ("title", JStr "Call mum");
                  ("due_at", JStr "2026-01-02T09:00:00+05:30")]])]] |}.

End Demo.

(* ===================================================================== *)
(** * Vocabulary of the properties *)
(* ===================================================================== *)

(** ** Frames *)

(** [keeps R m]: whatever its outcome, [m] takes a world to one related to
    it by [R]. *)
Definition keeps {A} (R : World -> World -> Prop) (m : M A) : Prop :=
  ∀ w, R w (m w).2.

(** [same f]: the worlds agree on the observation [f]. *)
Definition same {X} (f : World -> X) : World -> World -> Prop :=
  λ w w', f w' = f w.

(** An observation of the world that depends on the database and on the
    number of draft calls only. *)
Class Observation {X} (f : World -> X) : Prop :=
  obs_ext : ∀ w w', w_db w' = w_db w -> chat_calls w' = chat_calls w ->
                    f w' = f w.

(** [keeps] for the pipeline's monad. *)
Definition keepsP {A} (R : World -> World -> Prop) (m : pipeline.P A) : Prop :=
  ∀ dbg w, R w (m dbg w).2.

(** The stored conversation, the stored summaries. *)
Definition stored_messages (w : World) : list MessageRow := messages (w_db w).
Definition stored_summaries (w : World) : gmap string SummaryRow :=
  session_summaries (w_db w).

(** At most [n] more draft calls. *)
Definition more_drafts (n : nat) : World -> World -> Prop :=
  λ w w', (chat_calls w' <= chat_calls w + n)%nat.

(** ** Memory candidates (C8) *)

(** A candidate whose scope, key and value pass the checks of
    [validate_mx1_output]. *)
Definition valid_fields (allow_scopes : list string) (d : list (string * json))
    : Prop :=
  ∃ scope key value,
    get_or d "scope" JNull = JStr scope ∧
    in_strs (JStr scope) allow_scopes = true ∧
    get_or d "key" JNull = JStr key ∧
    (1 <= String.length key <= 64)%nat ∧
    memory_extractor.key_fullmatch key = true ∧
    get_or d "value" JNull = JStr value ∧
    (1 <= String.length value <= 400)%nat.

(** The clamped confidence of a candidate. *)
Definition clamped_confidence (E : Env) (d : list (string * json)) : float :=
  memory_extractor.conf_f_of E (get_or d "confidence" (JFloat 0%float)).

(** Validation drops the candidate. *)
Definition dropped (E : Env) (thr : float) (allow_scopes : list string)
    (d : list (string * json)) : Prop :=
  memory_extractor.validate_item E thr allow_scopes (JDict d) = None.

(** The entry of [accepted] a kept candidate becomes. *)
Definition kept_as (E : Env) (d : list (string * json))
    : memory_extractor.MemoryCandidate :=
  {| memory_extractor.mc_scope :=
       match get_or d "scope" JNull with JStr s => s | _ => "" end;
     memory_extractor.mc_key :=
       match get_or d "key" JNull with JStr s => s | _ => "" end;
     memory_extractor.mc_value :=
       strip match get_or d "value" JNull with JStr s => s | _ => "" end;
     memory_extractor.mc_confidence := clamped_confidence E d |}.

(** A well-formed candidate with the given key and confidence. *)
Definition candidate (key : string) (conf : float) : list (string * json) :=
  [("scope", JStr "session"); ("key", JStr key); ("value", JStr "Milo");
   ("confidence", JFloat conf)].

(** ** The judge (C2) *)

(** The result [run_judge] falls back to when the evaluation fails with [e]. *)
Definition judge_failed (e : exn) : judge_agent.JudgeResult :=
  {| judge_agent.jr_verdict := "PASS";
     judge_agent.jr_feedback := JNull;
     judge_agent.jr_rewritten_response := JNull;
     judge_agent.jr_reason := "judge_failed:" +:+ exn_str e;
     judge_agent.jr_risk_tags := ["judge_error"] |}.

(** The text from the first [{] to the last [}] of the stripped reply, when
    the first comes before the last. *)
Definition json_span (raw : string) : option string :=
  let raw_str := strip raw in
  match find_char "{" raw_str, rfind_char "}" raw_str with
  | Some i, Some j =>
      if (j <=? i)%nat then None else Some (substring i (j + 1 - i) raw_str)
  | _, _ => None
  end.

(** [unusable E reply e]: the backend's answer to the judge call cannot be
    used, and [e] is the exception this ends in: the call itself failed
    (timeout, transport error), the text has no JSON span, the span does not
    decode, or it decodes to something that is not an object. *)
Inductive unusable (E : Env) : Result string -> exn -> Prop :=
| unusable_call e :
    unusable E (Raise e) e
| unusable_text raw :
    json_span raw = None ->
    unusable E (Ok raw)
      (PyExc "ValueError"
         ("Judge did not return JSON: " +:+ str_upto 200 (strip raw)))
| unusable_json raw span e :
    json_span raw = Some span ->
    json_loads E span = Raise e ->
    unusable E (Ok raw) e
| unusable_value raw span x :
    json_span raw = Some span ->
    json_loads E span = Ok x ->
    (∀ d, x ≠ JDict d) ->
    unusable E (Ok raw)
      (PyExc "AttributeError"
         ("'" +:+ type_name x +:+ "' object has no attribute 'get'")).

(** The reason of a reply that decoded to an object: the object's own,
    as text, cut to 200 characters. *)
Definition object_reason (E : Env) (obj : list (string * json)) : string :=
  str_upto 200 (str_ E (get_or obj "reason" (JStr ""))).

(** The verdict schema of the spec (4.1): [Pass], [Rewrite] with optional
    string fields [feedback] and [rewritten_response], [Block] with an
    optional string field [rewritten_response]. *)
Definition optional_string (x : option json) : bool :=
  match x with
  | None | Some JNull | Some (JStr _) => true
  | Some _ => false
  end.

Definition verdict_schema_ok (obj : list (string * json)) : bool :=
  match dict_get obj "verdict" with
  | Some (JStr "PASS") => true
  | Some (JStr "REWRITE") =>
      optional_string (dict_get obj "feedback")
      && optional_string (dict_get obj "rewritten_response")
  | Some (JStr "BLOCK") => optional_string (dict_get obj "rewritten_response")
  | _ => false
  end.

(** ** Alert status (C7) *)

(** The status operations the API exposes. *)
Inductive AlertOp : Type :=
| MarkDone (alert_id : string)
| MarkCancelled (alert_id : string).

Definition run_op (E : Env) (op : AlertOp) : M unit :=
  match op with
  | MarkDone alert_id => main.mark_alert_done_api E alert_id
  | MarkCancelled alert_id => main.mark_alert_cancel_api E alert_id
  end.

(** The world after a sequence of requests, whatever each one answered. *)
Fixpoint run_ops (E : Env) (ops : list AlertOp) (w : World) : World :=
  match ops with
  | [] => w
  | op :: ops' => run_ops E ops' (run_op E op w).2
  end.

Definition status_of (w : World) (alert_id : string) : option string :=
  a_status <$> alerts (w_db w) !! alert_id.

Definition terminal (status : string) : Prop :=
  status = "done" ∨ status = "cancelled".

(** The requests that write to the database, and the poll for due alerts. *)
Inductive Request : Type :=
| CreateSession (persona_id : string)
| UpsertMemory (scope key value : string) (confidence : float)
    (session_id : option string)
| DeleteMemory (mem_id : string)
| ChatSend (session_id message : string)
| AlertDone (alert_id : string)
| AlertCancel (alert_id : string)
| PutToolSetting (scope tool_id : string) (enabled : bool)
    (session_id : option string)
| DueAlerts (session_id : option string) (limit : Z).

(** The world a request leaves, whatever it answered. *)
Definition serve (E : Env) (r : Request) (w : World) : World :=
  match r with
  | CreateSession persona_id => (main.create_session_api E persona_id w).2
  | UpsertMemory scope key value confidence session_id =>
      (main.upsert_memory_api E scope key value confidence session_id w).2
  | DeleteMemory mem_id => (main.delete_memory_api mem_id w).2
  | ChatSend session_id message => (main.chat_send_api E session_id message w).2
  | AlertDone alert_id => (main.mark_alert_done_api E alert_id w).2
  | AlertCancel alert_id => (main.mark_alert_cancel_api E alert_id w).2
  | PutToolSetting scope tool_id enabled session_id =>
      (main.upsert_tool_setting_api E scope tool_id enabled session_id w).2
  | DueAlerts session_id limit =>
      (main.get_due_alerts_api E session_id limit w).2
  end.

Fixpoint serve_all (E : Env) (requests : list Request) (w : World) : World :=
  match requests with
  | [] => w
  | r :: rest => serve_all E rest (serve E r w)
  end.

(** An alert that is stored with a terminal status, and the relation of two
    worlds where, if it is one in the first, it is one in the second. *)
Definition closed (alert_id : string) (w : World) : Prop :=
  ∃ status, status_of w alert_id = Some status ∧ terminal status.

Definition stays_closed (alert_id : string) (w w' : World) : Prop :=
  closed alert_id w -> closed alert_id w'.

(** ** Memory items (C4) *)

(** The rows of [memory_items] for a (scope, session_id, key) triple. *)
Definition rows_for (scope : string) (session_id : option string)
    (key : string) (d : Db) : list MemoryRow :=
  filter (λ r, db.memory_match scope key session_id r = true) (memory_items d).

(** At most one row per triple. *)
Definition one_row_per_key (d : Db) : Prop :=
  ∀ scope session_id key, (length (rows_for scope session_id key d) <= 1)%nat.

(** ** The summary cadence (C3) *)

(** The persisted message count of a session. *)
Definition message_count (session_id : string) (w : World) : Z :=
  Z.of_nat (length (db.session_messages session_id (w_db w))).

(** The extraction context of a run of the pipeline that starts in [w]. *)
Definition context_of (E : Env) (session_id : string) (w : World)
    : list ChatMsg :=
  pipeline.recent_context E
    (db.sql_limit 50
       (db.order_by db.created_asc (db.session_messages session_id (w_db w)))).

(** The summary text MX1 produced in a run that starts in [w], when the
    call answered. *)
Definition extracted_summary (E : Env) (session_id : string) (persona : json)
    (w : World) : option string :=
  match mx1_backend E (mx1_calls w) persona
          ((λ r, (ss_summary r, ss_open_loops r))
             <$> session_summaries (w_db w) !! session_id)
          (context_of E session_id w) (ALLOW_GLOBAL_WRITE E) with
  | Ok raw =>
      match as_dict (py_or (default JNull
                              (memory_extractor._extract_json_object E raw))
                       (JDict [])) with
      | Ok data =>
          Some (strip (memory_extractor.sp_summary
                         (memory_extractor.validate_mx1_output E data
                            (MX1_CONFIDENCE_THRESHOLD E)
                            (if ALLOW_GLOBAL_WRITE E then ["global"; "session"]
                             else ["session"])).2))
      | Raise _ => None
      end
  | Raise _ => None
  end.

Definition emergency_summary (msg_count : Z) : string :=
  "Session with " +:+ str_of_int msg_count
  +:+ " messages. Summary temporarily unavailable.".

(** The session's summary row holds [text] and was stamped by the last
    clock reading of the run that ended in [w']. *)
Definition summary_written (E : Env) (session_id : string) (w' : World)
    (text : string) : Prop :=
  ∃ row k,
    stored_summaries w' !! session_id = Some row ∧
    ss_summary row = text ∧
    clock_calls w' = S k ∧
    ss_updated_at row = utcnow_iso E k +:+ "Z".

(** ** Tool settings (C9) *)

(** The override a table of settings holds for a tool: the last matching
    row wins. *)
Definition override (rows : list ToolSettingRow) (tool : string) : option bool :=
  ts_enabled <$> last (filter (λ r, ts_tool_id r = tool) rows).

Definition global_settings (d : Db) : list ToolSettingRow :=
  filter (λ r, String.eqb (ts_scope r) "global" = true) (tool_settings d).

Definition session_settings (session_id : string) (d : Db)
    : list ToolSettingRow :=
  filter (λ r, (String.eqb (ts_scope r) "session"
                && db.sql_eq (ts_session_id r) (Some session_id)) = true)
    (tool_settings d).

(** Session override, else global override, else enabled. *)
Definition effective_enabled (session_id : string) (d : Db) (tool : string)
    : bool :=
  match override (session_settings session_id d) tool with
  | Some b => b
  | None => default true (override (global_settings d) tool)
  end.


(** ** Well-formed tables *)

(** The other tables, as observations of the world. *)
Definition stored_sessions (w : World) : gmap string SessionRow :=
  sessions (w_db w).
Definition stored_memory (w : World) : list MemoryRow := memory_items (w_db w).
Definition stored_alerts (w : World) : gmap string AlertRow := alerts (w_db w).
Definition stored_settings (w : World) : list ToolSettingRow :=
  tool_settings (w_db w).

(** What the schema promises of [messages]: [id] is a key, [role] is one of
    the two the CHECK constraint allows. *)
Definition messages_wf (w : World) : Prop :=
  NoDup (map m_id (stored_messages w)) ∧
  Forall (λ r, m_role r = "user" ∨ m_role r = "assistant") (stored_messages w).

(** [w'] is well formed if [w] is. *)
Definition wf_after (w w' : World) : Prop := messages_wf w -> messages_wf w'.

(** [id] is a key of [memory_items]. *)
Definition memory_ids_unique (d : Db) : Prop :=
  NoDup (map mi_id (memory_items d)).

(** The rows of [memory_items] outside a (scope, session_id, key) triple. *)
Definition rows_outside (scope : string) (session_id : option string)
    (key : string) (d : Db) : list MemoryRow :=
  filter (λ r, db.memory_match scope key session_id r = false) (memory_items d).

(** The rows of [tool_settings] for a (scope, session_id, tool_id) triple. *)
Definition settings_for (scope : string) (session_id : option string)
    (tool : string) (d : Db) : list ToolSettingRow :=
  filter (λ r, db.setting_match scope tool session_id r = true)
    (tool_settings d).

Definition one_setting_per_key (d : Db) : Prop :=
  ∀ scope session_id tool,
    (length (settings_for scope session_id tool d) <= 1)%nat.

(** ** Bounds *)

(** [a <= b] on floats; it holds of no NaN. *)
Definition fle (a b : float) : Prop := PrimFloat.leb a b = true.

(** The current time as [_utc_now] reads it in [w]. *)
Definition now_of (E : Env) (w : World) : string :=
  utcnow_iso E (clock_calls w) +:+ "Z".

(** An alert that [get_due_alerts] takes for due at [now]: it is active and
    its [due_at] is a text that does not come after the text [now] in the
    order of strings.  Texts are compared character by character, as SQLite
    compares TEXT values; the instants they denote are not. *)
Definition due_by_text (now : string) (row : AlertRow) : Prop :=
  a_status row = "active" ∧
  ∃ t, a_due_at row = Some t ∧ String.leb t now = true.

(** The verdicts of the judge. *)
Definition is_verdict (v : string) : Prop :=
  v = "PASS" ∨ v = "REWRITE" ∨ v = "BLOCK".

(** ** Listings *)

(** An integer that fits the 64 bits of a SQLite INTEGER, and the exception
    a statement ends in when a parameter bound to it does not. *)
Definition int64 (z : Z) : Prop := (- 2 ^ 63 <= z < 2 ^ 63)%Z.

Definition overflow : exn :=
  PyExc "OverflowError" "Python int too large to convert to SQLite INTEGER".

(** Each element of the list is below the next one. *)
Fixpoint sorted_by {A} (le : A -> A -> bool) (l : list A) : Prop :=
  match l with
  | [] => True
  | x :: l' =>
      match l' with
      | [] => True
      | y :: _ => le x y = true
      end ∧ sorted_by le l'
  end.

(** ** Alerts a tool run creates *)

(** A row as [execute_alert_creation] stores it for [scope] and
    [session_id]. *)
Definition created_alert (scope : string) (session_id : option string)
    (row : AlertRow) : Prop :=
  a_status row = "active" ∧
  a_scope row = scope ∧
  a_session_id row = (if String.eqb scope "session" then session_id else None) ∧
  a_title row ≠ "" ∧
  (∃ due_at, a_due_at row = Some due_at ∧ due_at ≠ "") ∧
  fle 0 (a_confidence row) ∧ fle (a_confidence row) 1.

(** [w'] holds every alert of [w] as it was, and what it holds more was
    created for [scope] and [session_id]. *)
Definition alerts_added (scope : string) (session_id : option string)
    (w w' : World) : Prop :=
  (∀ id row, stored_alerts w !! id = Some row ->
             stored_alerts w' !! id = Some row) ∧
  (∀ id row, stored_alerts w' !! id = Some row ->
             stored_alerts w !! id = None ->
             created_alert scope session_id row).

(** ** The retry loop *)

(** The state of the retry loop agrees with its verdict: the verdict is one
    of the three, and with [BLOCK] there is a final text. *)
Definition loop_ok (st : main.LoopState) : Prop :=
  is_verdict (main.verdict st) ∧
  (main.verdict st = "BLOCK" -> truthy (main.final_text st) = true).

(** An alert as the extractor hands it on: a dict with a title and a due
    time that are not empty, and a repeat rule that is [DAILY], [WEEKLY] or
    nothing. *)
Definition valid_alert (a : json) : Prop :=
  ∃ d title due_at,
    a = JDict d ∧
    get_or d "title" JNull = JStr title ∧ title ≠ "" ∧
    get_or d "due_at" JNull = JStr due_at ∧ due_at ≠ "" ∧
    (truthy (get_or d "repeat_rule" JNull) = true ->
     in_strs (get_or d "repeat_rule" JNull) ["DAILY"; "WEEKLY"] = true).
(* ===================================================================== *)
(** * Properties *)
(* ===================================================================== *)

(** ** Reasoning about the monad *)

Lemma bind_Ok {A B} (m : M A) (f : A -> M B) w b w' :
  (m ≫= f) w = (Ok b, w') ->
  ∃ a w1, m w = (Ok a, w1) ∧ f a w1 = (Ok b, w').
Proof.
  unfold mbind, M_bind. destruct (m w) as [[a|e] w1]; intros H.
  - eauto.
  - discriminate.
Qed.

Lemma bind_Raise {A B} (m : M A) (f : A -> M B) w e w' :
  (m ≫= f) w = (Raise e, w') ->
  m w = (Raise e, w') ∨ ∃ a w1, m w = (Ok a, w1) ∧ f a w1 = (Raise e, w').
Proof.
  unfold mbind, M_bind. destruct (m w) as [[a|e1] w1]; intros H.
  - right. eauto.
  - left. by injection H as -> ->.
Qed.

Lemma bind_run {A B} (m : M A) (f : A -> M B) w :
  (m ≫= f) w =
  match m w with
  | (Ok a, w') => f a w'
  | (Raise e, w') => (Raise e, w')
  end.
Proof. reflexivity. Qed.

#[local] Instance same_preorder {X} (f : World -> X) : PreOrder (same f).
Proof.
  split.
  - intros w. reflexivity.
  - intros a b c Hab Hbc. unfold same in *. congruence.
Qed.

Section keeps.
Context (R : World -> World -> Prop) `{!PreOrder R}.

Lemma keeps_ret {A} (a : A) : keeps R (mret a).
Proof. intros w. reflexivity. Qed.

Lemma keeps_raise {A} (e : exn) : keeps R (raise e : M A).
Proof. intros w. reflexivity. Qed.

Lemma keeps_lift {A} (r : Result A) : keeps R (lift r).
Proof. intros w. reflexivity. Qed.

Lemma keeps_get_db : keeps R get_db.
Proof. intros w. reflexivity. Qed.

Lemma keeps_bind_int (z : Z) : keeps R (db.bind_int z).
Proof. intros w. unfold db.bind_int. destruct (db.in_int64 z); reflexivity. Qed.

Lemma keeps_bind {A B} (m : M A) (f : A -> M B) :
  keeps R m -> (∀ a, keeps R (f a)) -> keeps R (m ≫= f).
Proof.
  intros Hm Hf w. rewrite bind_run. specialize (Hm w).
  destruct (m w) as [[a|e] w1]; simpl in *.
  - etransitivity; [exact Hm | apply Hf].
  - exact Hm.
Qed.

Lemma keeps_try {A} (m : M A) (h : exn -> M A) :
  keeps R m -> (∀ e, keeps R (h e)) -> keeps R (try_except m h).
Proof.
  intros Hm Hh w. unfold try_except. specialize (Hm w).
  destruct (m w) as [[a|e] w1]; simpl in *.
  - exact Hm.
  - etransitivity; [exact Hm | apply Hh].
Qed.

End keeps.

(** One step of a frame proof: split the monadic structure, case on what
    the code cases on. *)
Ltac keeps_step :=
  first
    [ apply keeps_bind_int
    | apply keeps_ret | apply keeps_raise | apply keeps_lift
    | apply keeps_get_db
    | apply keeps_bind; [ apply _ | | intros ? ]
    | apply keeps_bind; [ | intros ? ]
    | apply keeps_try; [ apply _ | | intros ? ]
    | apply keeps_try; [ | intros ? ]
    | match goal with
      | |- keeps _ (match ?x with _ => _ end) => destruct x
      | |- keeps _ (let '(_, _) := ?x in _) => destruct x
      end ].

Ltac keeps_auto :=
  repeat (keeps_step; try assumption;
          try match goal with |- PreOrder _ => apply _ end).

(** ** Frames of the operations *)

Lemma keeps_run {A} R (m : M A) w r w' : keeps R m -> m w = (r, w') -> R w w'.
Proof. intros Hk Hrun. specialize (Hk w). by rewrite Hrun in Hk. Qed.

#[local] Instance chat_calls_observation : Observation chat_calls.
Proof. intros w w' _ H. exact H. Qed.

#[local] Instance stored_messages_observation : Observation stored_messages.
Proof. intros w w' H _. unfold stored_messages. by rewrite H. Qed.

#[local] Instance stored_summaries_observation : Observation stored_summaries.
Proof. intros w w' H _. unfold stored_summaries. by rewrite H. Qed.

Section frames.
Context {X} (f : World -> X) `{!Observation f} (E : Env).

Lemma keeps_new_uuid : keeps (same f) (db.new_uuid E).
Proof. intros w. by apply obs_ext. Qed.

Lemma keeps_utc_now : keeps (same f) (db._utc_now E).
Proof. intros w. by apply obs_ext. Qed.

Lemma keeps_judge_call persona mem um ad :
  keeps (same f) (judge_agent._ollama_chat E persona mem um ad).
Proof. intros w. by apply obs_ext. Qed.

Lemma keeps_alerts_call persona mem recent final :
  keeps (same f) (tools._ollama_chat E persona mem recent final).
Proof. intros w. by apply obs_ext. Qed.

Lemma keeps_extract_alerts persona mem recent final :
  keeps (same f) (tools.extract_alerts E persona mem recent final).
Proof.
  unfold tools.extract_alerts.
  apply keeps_try; [apply _| |intros e; apply keeps_ret; apply _].
  apply keeps_bind; [apply _|apply keeps_alerts_call|].
  intros raw. apply keeps_lift; apply _.
Qed.

Lemma keeps_extract_mx1 persona ss recent thr allow :
  keeps (same f) (memory_extractor.extract_mx1 E persona ss recent thr allow).
Proof.
  intros w. unfold memory_extractor.extract_mx1.
  destruct (mx1_backend E _ _ _ _ _) as [raw|e]; [|by apply obs_ext].
  destruct (as_dict _) as [data|e]; [|by apply obs_ext].
  destruct (memory_extractor.validate_mx1_output _ _ _ _).
  by apply obs_ext.
Qed.

(** Reads *)

Lemma keeps_get_messages session_id limit :
  keeps (same f) (db.get_messages session_id limit).
Proof. unfold db.get_messages. keeps_auto. Qed.

Lemma keeps_count_messages session_id :
  keeps (same f) (db.count_messages session_id).
Proof. unfold db.count_messages. keeps_auto. Qed.

Lemma keeps_get_session session_id : keeps (same f) (db.get_session session_id).
Proof. unfold db.get_session. keeps_auto. Qed.

Lemma keeps_get_session_summary session_id :
  keeps (same f) (db.get_session_summary session_id).
Proof. unfold db.get_session_summary. keeps_auto. Qed.

Lemma keeps_list_memory_items scope session_id limit :
  keeps (same f) (db.list_memory_items scope session_id limit).
Proof. unfold db.list_memory_items. keeps_auto. Qed.

Lemma keeps_get_effective_tool_enabled_map session_id tool_ids :
  keeps (same f) (db.get_effective_tool_enabled_map session_id tool_ids).
Proof. unfold db.get_effective_tool_enabled_map. keeps_auto. Qed.

End frames.

(** Writes: an observation that does not look at the table written is kept. *)

Ltac frame_write :=
  intros w; unfold same, stored_messages, stored_summaries;
  repeat first
    [ rewrite bind_run
    | progress cbn [db.new_uuid db._utc_now get_db put_db lift raise
                    db.IntegrityError fst snd w_db chat_calls set_db
                    messages session_summaries db.set_memory_items
                    db.set_session_summaries db.set_alerts db.set_messages]
    | match goal with
      | |- context [match ?x with _ => _ end] => destruct x
      end ];
  reflexivity.

Section write_frames.
Context (E : Env).

Lemma upsert_memory_item_drafts scope key value conf session_id src :
  keeps (same chat_calls)
    (db.upsert_memory_item E scope key value conf session_id src).
Proof. unfold db.upsert_memory_item, db.fetchone. frame_write. Qed.

Lemma upsert_memory_item_messages scope key value conf session_id src :
  keeps (same stored_messages)
    (db.upsert_memory_item E scope key value conf session_id src).
Proof. unfold db.upsert_memory_item, db.fetchone. frame_write. Qed.

Lemma upsert_memory_item_summaries scope key value conf session_id src :
  keeps (same stored_summaries)
    (db.upsert_memory_item E scope key value conf session_id src).
Proof. unfold db.upsert_memory_item, db.fetchone. frame_write. Qed.

Lemma upsert_session_summary_drafts session_id summary open_loops :
  keeps (same chat_calls)
    (db.upsert_session_summary E session_id summary open_loops).
Proof. unfold db.upsert_session_summary. frame_write. Qed.

Lemma upsert_session_summary_messages session_id summary open_loops :
  keeps (same stored_messages)
    (db.upsert_session_summary E session_id summary open_loops).
Proof. unfold db.upsert_session_summary. frame_write. Qed.

Lemma create_alert_drafts scope title body due_at conf session_id src :
  keeps (same chat_calls)
    (db.create_alert E scope title body due_at conf session_id src).
Proof. unfold db.create_alert. frame_write. Qed.

Lemma create_alert_messages scope title body due_at conf session_id src :
  keeps (same stored_messages)
    (db.create_alert E scope title body due_at conf session_id src).
Proof. unfold db.create_alert. frame_write. Qed.

Lemma add_message_drafts session_id role content :
  keeps (same chat_calls) (db.add_message E session_id role content).
Proof. unfold db.add_message. frame_write. Qed.

End write_frames.

Create HintDb frames.

#[local] Hint Resolve chat_calls_observation stored_messages_observation
  stored_summaries_observation keeps_new_uuid keeps_utc_now keeps_judge_call
  keeps_extract_alerts keeps_extract_mx1 keeps_get_messages
  keeps_count_messages keeps_get_session keeps_get_session_summary
  keeps_list_memory_items keeps_get_effective_tool_enabled_map
  upsert_memory_item_drafts upsert_memory_item_messages
  upsert_memory_item_summaries upsert_session_summary_drafts
  upsert_session_summary_messages create_alert_drafts create_alert_messages
  add_message_drafts : frames.

Ltac frames := repeat first [ solve [auto with frames] | keeps_step;
  try match goal with |- PreOrder _ => apply _ end ].

(** The pipeline's monad *)

Section keepsP.
Context (R : World -> World -> Prop) `{!PreOrder R}.

Lemma keepsP_ret {A} (a : A) : keepsP R (mret a).
Proof. intros dbg w. reflexivity. Qed.

Lemma keepsP_call {A} (m : M A) : keeps R m -> keepsP R (pipeline.call m).
Proof.
  intros Hm dbg w. unfold pipeline.call. specialize (Hm w).
  by destruct (m w).
Qed.

Lemma keepsP_update_debug g : keepsP R (pipeline.update_debug g).
Proof. intros dbg w. reflexivity. Qed.

Lemma keepsP_bind {A B} (m : pipeline.P A) (k : A -> pipeline.P B) :
  keepsP R m -> (∀ a, keepsP R (k a)) -> keepsP R (m ≫= k).
Proof.
  intros Hm Hk dbg w. unfold mbind, pipeline.P_bind. specialize (Hm dbg w).
  destruct (m dbg w) as [[[a|e] dbg1] w1]; cbn in *.
  - etransitivity; [exact Hm | apply Hk].
  - exact Hm.
Qed.

Lemma keepsP_try {A} (m : pipeline.P A) (h : exn -> pipeline.P A) :
  keepsP R m -> (∀ e, keepsP R (h e)) -> keepsP R (pipeline.p_try m h).
Proof.
  intros Hm Hh dbg w. unfold pipeline.p_try. specialize (Hm dbg w).
  destruct (m dbg w) as [[[a|e] dbg1] w1]; cbn in *.
  - exact Hm.
  - etransitivity; [exact Hm | apply Hh].
Qed.

End keepsP.

Ltac framesP :=
  repeat first
    [ match goal with |- PreOrder _ => apply _ end
    | assumption
    | apply keepsP_ret | apply keepsP_update_debug
    | apply keepsP_call; frames
    | apply keepsP_bind; [ apply _ | | intros ? ]
    | apply keepsP_try; [ apply _ | | intros ? ]
    | match goal with
      | |- keepsP _ (match ?x with _ => _ end) => destruct x
      | |- keepsP _ (let '(_, _) := ?x in _) => destruct x
      end ].

(** Composite operations, for an observation the writes they make keep. *)

Section composite_frames.
Context {X} (f : World -> X) `{!Observation f} (E : Env).

Lemma keeps_run_judge persona um ad mem :
  keeps (same f) (judge_agent.run_judge E persona um ad mem).
Proof. unfold judge_agent.run_judge. frames. Qed.

Lemma keeps_read_memory persona session_id :
  keeps (same f) (main.read_memory persona session_id).
Proof. unfold main.read_memory. frames. Qed.

Context
  (Hmem : ∀ scope key value conf session_id src,
     keeps (same f)
       (db.upsert_memory_item E scope key value conf session_id src))
  (Hsum : ∀ session_id summary open_loops,
     keeps (same f) (db.upsert_session_summary E session_id summary open_loops))
  (Halert : ∀ scope title body due_at conf session_id src,
     keeps (same f)
       (db.create_alert E scope title body due_at conf session_id src)).

Lemma keeps_upsert_items session_id items n :
  keeps (same f) (pipeline.upsert_items E session_id items n).
Proof.
  revert n. induction items as [|it items IH]; intros n; cbn; frames.
Qed.

Lemma keeps_run_post_chat_pipeline session_id persona :
  keeps (same f) (pipeline.run_post_chat_pipeline E session_id persona).
Proof.
  assert (Hbody : keepsP (same f) (pipeline.pipeline_body E session_id persona)).
  { unfold pipeline.pipeline_body. pose proof keeps_upsert_items. framesP. }
  assert (Hem : keepsP (same f) (pipeline.emergency_body E session_id)).
  { unfold pipeline.emergency_body. framesP. }
  intros w. unfold pipeline.run_post_chat_pipeline.
  match goal with
  | |- context [pipeline.p_try ?m ?h ?d w] =>
      assert (Hk : keepsP (same f) (pipeline.p_try m h)) by framesP;
      specialize (Hk d w); destruct (pipeline.p_try m h d w) as [[r dbg] w']
  end.
  exact Hk.
Qed.

Lemma keeps_create_each session_id scope alerts evs :
  keeps (same f) (tools.create_each E session_id scope alerts evs).
Proof.
  revert evs. induction alerts as [|a alerts IH]; intros evs; cbn.
  - frames.
  - unfold tools.create_one. frames.
Qed.

Lemma keeps_AlertsTool_run ctx : keeps (same f) (tools.AlertsTool_run E ctx).
Proof.
  unfold tools.AlertsTool_run, tools.execute_alert_creation.
  pose proof keeps_create_each. frames.
Qed.

End composite_frames.

(** The runner keeps what every tool keeps. *)
Lemma keeps_run_tools_from R `{!PreOrder R} ts ctx em evs :
  (∀ t, t ∈ ts -> keeps R (tools.run t ctx)) ->
  keeps R (tools.run_tools_from ts ctx em evs).
Proof.
  revert evs. induction ts as [|t ts IH]; intros evs Hts; cbn.
  - apply keeps_ret; apply _.
  - assert (Ht : keeps R (tools.run t ctx)) by (apply Hts; left).
    assert (Hrest : ∀ evs, keeps R (tools.run_tools_from ts ctx em evs)).
    { intros evs'. apply IH. intros u Hu. apply Hts. by right. }
    destruct (negb _); [apply Hrest|]. frames.
Qed.

(** ** Memory candidates and the confidence threshold (C8) *)

Section threshold.
Import memory_extractor.

Lemma validate_item_valid E thr allow_scopes d :
  valid_fields allow_scopes d ->
  validate_item E thr allow_scopes (JDict d) =
  if PrimFloat.ltb (clamped_confidence E d) thr then None
  else Some (kept_as E d).
Proof.
  intros (scope & key & value & Hs & Hin & Hk & Hkl & Hkm & Hv & Hvl).
  unfold kept_as, validate_item, clamped_confidence.
  destruct Hkl as [Hk1 Hk2], Hvl as [Hv1 Hv2].
  apply Nat.leb_le in Hk1, Hk2, Hv1, Hv2.
  rewrite Hs, Hk, Hv, Hin, Hkm, Hk1, Hk2, Hv1, Hv2.
  reflexivity.
Qed.

Lemma dropped_iff_below E thr allow_scopes d :
  valid_fields allow_scopes d ->
  dropped E thr allow_scopes d <->
  PrimFloat.ltb (clamped_confidence E d) thr = true.
Proof.
  intros Hv. unfold dropped. rewrite (validate_item_valid _ _ _ _ Hv).
  destruct (PrimFloat.ltb _ _); split; intros H; congruence.
Qed.

Lemma omap_take_middle {A B} (f : A -> option B) (n : nat) l1 x l2 :
  (length l1 < n)%nat ->
  omap f (take n (l1 ++ x :: l2)) =
  omap f l1 ++ from_option (λ c, [c]) [] (f x)
  ++ omap f (take (n - S (length l1)) l2).
Proof.
  intros Hlen.
  rewrite take_app_ge by lia.
  replace (n - length l1)%nat with (S (n - S (length l1))) by lia.
  simpl. rewrite omap_app. simpl.
  destruct (f x); reflexivity.
Qed.

(** C8 (as amended): for a candidate among the first five entries of
    [items] whose scope, key and value are valid, validation drops the
    candidate exactly when its clamped confidence is strictly below the
    threshold; a candidate that is not dropped contributes exactly one
    accepted item, at its place among the items accepted. *)
Theorem threshold_rule_first_five E thr allow_scopes data l1 d l2 :
  get_or data "items" (JList []) = JList (l1 ++ JDict d :: l2) ->
  (length l1 < 5)%nat ->
  valid_fields allow_scopes d ->
  (dropped E thr allow_scopes d <->
   PrimFloat.ltb (clamped_confidence E d) thr = true) ∧
  (validate_mx1_output E data thr allow_scopes).1 =
    omap (validate_item E thr allow_scopes) l1
    ++ (if PrimFloat.ltb (clamped_confidence E d) thr then []
        else [kept_as E d])
    ++ omap (validate_item E thr allow_scopes) (take (4 - length l1) l2).
Proof.
  intros Hitems Hlen Hvalid. split.
  - by apply dropped_iff_below.
  - unfold validate_mx1_output. rewrite Hitems. cbn [fst].
    rewrite omap_take_middle by exact Hlen.
    rewrite (validate_item_valid _ _ _ _ Hvalid).
    replace (5 - S (length l1))%nat with (4 - length l1)%nat by lia.
    destruct (PrimFloat.ltb _ _); reflexivity.
Qed.

Lemma candidate_valid key conf :
  (1 <= String.length key <= 64)%nat -> key_fullmatch key = true ->
  valid_fields ["global"; "session"] (candidate key conf).
Proof.
  intros Hl Hm. exists "session", key, "Milo".
  repeat split; try reflexivity; try (apply Hl); try exact Hm;
    simpl; lia.
Qed.

(** Under threshold 0.8 a candidate with confidence 0.79 is dropped and one
    with confidence 0.80 is kept. *)
Lemma threshold_rule_first_five_witness :
  (validate_mx1_output (Demo.env true 6)
     [("items", JList [JDict (candidate "a" 0.79%float);
                       JDict (candidate "b" 0.80%float)])]
     0.8%float ["global"; "session"]).1 =
  [{| mc_scope := "session"; mc_key := "b"; mc_value := "Milo";
      mc_confidence := 0.8%float |}].
Proof.
  pose proof (threshold_rule_first_five (Demo.env true 6) 0.8%float
                ["global"; "session"]
                [("items", JList [JDict (candidate "a" 0.79%float);
                                  JDict (candidate "b" 0.80%float)])]
                [JDict (candidate "a" 0.79%float)]
                (candidate "b" 0.80%float) []
                eq_refl ltac:(simpl; lia)
                (candidate_valid "b" 0.80%float ltac:(simpl; lia) eq_refl))
    as [_ H].
  exact H.
Defined.

Example confidence_079_dropped E :
  dropped E 0.8%float ["global"; "session"] (candidate "a" 0.79%float).
Proof. reflexivity. Qed.

Example confidence_080_kept E :
  validate_item E 0.8%float ["global"; "session"]
    (JDict (candidate "b" 0.80%float)) =
  Some {| mc_scope := "session"; mc_key := "b"; mc_value := "Milo";
          mc_confidence := 0.8%float |}.
Proof. reflexivity. Qed.

(** C8 as stated fails beyond the hard cap: of six valid candidates with
    confidence 0.95 the sixth is dropped although 0.95 is not below 0.8. *)
Lemma sixth_candidate_dropped :
  let E := Demo.env true 6 in
  let d6 := candidate "k6" 0.95%float in
  let data :=
    [("items", JList (map (λ k, JDict (candidate k 0.95%float))
                        ["k1"; "k2"; "k3"; "k4"; "k5"; "k6"]))] in
  valid_fields ["global"; "session"] d6 ∧
  PrimFloat.ltb (clamped_confidence E d6) 0.8%float = false ∧
  map mc_key (validate_mx1_output E data 0.8%float ["global"; "session"]).1
  = ["k1"; "k2"; "k3"; "k4"; "k5"].
Proof.
  repeat split.
  apply candidate_valid; [simpl; lia | reflexivity].
Qed.

End threshold.

(** ** The judge never fails the turn (C2) *)

Section judge.
Import judge_agent.

Lemma judge_reply_no_span E raw :
  json_span raw = None ->
  judge_reply E raw =
  Raise (PyExc "ValueError"
           ("Judge did not return JSON: " +:+ str_upto 200 (strip raw))).
Proof.
  unfold json_span, judge_reply.
  destruct (find_char "{" (strip raw)) as [i|];
    destruct (rfind_char "}" (strip raw)) as [j|]; try reflexivity.
  destruct (j <=? i)%nat; [reflexivity | discriminate].
Qed.

Lemma judge_reply_undecodable E raw span e :
  json_span raw = Some span ->
  json_loads E span = Raise e ->
  judge_reply E raw = Raise e.
Proof.
  unfold json_span, judge_reply.
  destruct (find_char "{" (strip raw)) as [i|];
    destruct (rfind_char "}" (strip raw)) as [j|]; try discriminate.
  destruct (j <=? i)%nat; [discriminate|].
  intros [= <-] ->. reflexivity.
Qed.

Lemma judge_reply_not_object E raw span x :
  json_span raw = Some span ->
  json_loads E span = Ok x ->
  (∀ d, x ≠ JDict d) ->
  judge_reply E raw =
  Raise (PyExc "AttributeError"
           ("'" +:+ type_name x +:+ "' object has no attribute 'get'")).
Proof.
  unfold json_span, judge_reply.
  destruct (find_char "{" (strip raw)) as [i|];
    destruct (rfind_char "}" (strip raw)) as [j|]; try discriminate.
  destruct (j <=? i)%nat; [discriminate|].
  intros [= <-] -> Hx.
  destruct x; try reflexivity. by destruct (Hx d).
Qed.

Lemma judge_reply_unknown_verdict E raw span obj :
  json_span raw = Some span ->
  json_loads E span = Ok (JDict obj) ->
  in_strs (get_or obj "verdict" (JStr "PASS")) ["PASS"; "REWRITE"; "BLOCK"]
  = false ->
  ∃ r, judge_reply E raw = Ok r ∧ jr_verdict r = "PASS"
       ∧ jr_feedback r = JNull ∧ jr_rewritten_response r = JNull.
Proof.
  unfold json_span, judge_reply.
  destruct (find_char "{" (strip raw)) as [i|];
    destruct (rfind_char "}" (strip raw)) as [j|]; try discriminate.
  destruct (j <=? i)%nat; [discriminate|].
  intros [= <-] -> Hv. cbn [mbind Result_bind as_dict].
  destruct (get_or obj "verdict" (JStr "PASS")) as [| | | |v| |];
    try (eexists; split; [reflexivity | by repeat split]).
  rewrite Hv. eexists; split; [reflexivity | by repeat split].
Qed.

(** What becomes of a reply that decodes to an object: nothing but the
    verdict is checked. *)
Lemma judge_reply_object E raw span obj :
  json_span raw = Some span ->
  json_loads E span = Ok (JDict obj) ->
  let feedback := get_or obj "feedback" (JStr "") in
  let rewritten := get_or obj "rewritten_response" JNull in
  ∃ r, judge_reply E raw = Ok r ∧
       jr_reason r = object_reason E obj ∧
       (get_or obj "verdict" (JStr "PASS") = JStr "PASS" ->
        jr_verdict r = "PASS" ∧ jr_feedback r = JNull
        ∧ jr_rewritten_response r = JNull) ∧
       (get_or obj "verdict" (JStr "PASS") = JStr "REWRITE" ->
        jr_verdict r = (if truthy rewritten || truthy feedback
                        then "REWRITE" else "PASS")
        ∧ jr_feedback r = feedback ∧ jr_rewritten_response r = rewritten) ∧
       (get_or obj "verdict" (JStr "PASS") = JStr "BLOCK" ->
        jr_verdict r = "BLOCK" ∧ jr_feedback r = feedback
        ∧ jr_rewritten_response r = rewritten).
Proof.
  unfold json_span, judge_reply, object_reason.
  destruct (find_char "{" (strip raw)) as [i|];
    destruct (rfind_char "}" (strip raw)) as [j|]; try discriminate.
  destruct (j <=? i)%nat; [discriminate|].
  intros [= <-] ->. cbn [mbind Result_bind as_dict]. cbv zeta.
  destruct (get_or obj "verdict" (JStr "PASS")) as [| | | |v| |];
    try (eexists; split; [reflexivity|]; split; [reflexivity|];
         repeat split; discriminate).
  destruct (in_strs (JStr v) ["PASS"; "REWRITE"; "BLOCK"]) eqn:Hin.
  - apply existsb_exists in Hin as (s & Hs & Heq). cbn in Heq.
    apply String.eqb_eq in Heq as ->.
    destruct Hs as [<-|[<-|[<-|[]]]]; cbn [String.eqb Ascii.eqb Bool.eqb].
    + eexists. split; [reflexivity|]. split; [reflexivity|].
      repeat split; discriminate.
    + destruct (truthy (get_or obj "rewritten_response" JNull)),
        (truthy (get_or obj "feedback" (JStr ""))); cbn [negb andb orb];
        (eexists; split; [reflexivity|]; split; [reflexivity|];
         repeat split; discriminate).
    + eexists. split; [reflexivity|]. split; [reflexivity|].
      repeat split; discriminate.
  - eexists. split; [reflexivity|]. split; [reflexivity|].
    repeat split;
      match goal with
      | H : JStr v = JStr _ |- _ => injection H as ->
      end; vm_compute in Hin; discriminate.
Qed.

Lemma run_judge_enabled E persona um ad mem w :
  JUDGE_ENABLED E = true ->
  (run_judge E persona um ad mem w).1 =
  Ok match judge_backend E (judge_calls w) persona (take 20 mem)
             (strip um) (strip ad) with
     | Raise e => judge_failed e
     | Ok raw =>
         match judge_reply E raw with
         | Ok r => r
         | Raise e => judge_failed e
         end
     end.
Proof.
  intros Hen. unfold run_judge. rewrite Hen. cbn [negb].
  unfold try_except. rewrite bind_run. unfold _ollama_chat at 1.
  destruct (judge_backend _ _ _ _ _ _) as [raw|e]; [|reflexivity].
  unfold lift. destruct (judge_reply E raw); reflexivity.
Qed.

(** C2 (as amended): [run_judge] never raises; when the judge call times
    out or fails in transport, when its text holds no JSON span, when the
    span does not decode or decodes to something that is not an object, the
    result is PASS with the reason [judge_failed:...] and the tag
    [judge_error].  Of a reply that decodes to an object only the verdict is
    checked: a verdict that is PASS, absent, or none of PASS, REWRITE and
    BLOCK gives PASS with feedback and rewritten response cleared; a REWRITE
    whose feedback and rewritten response are both falsy gives PASS too; a
    BLOCK, and a REWRITE with one of the two, is returned with that verdict
    and with both fields as the object has them; the reason is the object's
    own, as text cut to 200 characters, in every such case. *)
Theorem run_judge_recovers E persona um ad mem w :
  let reply := judge_backend E (judge_calls w) persona (take 20 mem)
                 (strip um) (strip ad) in
  let out := (run_judge E persona um ad mem w).1 in
  (∃ r, out = Ok r) ∧
  (∀ e, JUDGE_ENABLED E = true -> unusable E reply e ->
        out = Ok (judge_failed e)) ∧
  (∀ raw span obj,
     JUDGE_ENABLED E = true -> reply = Ok raw ->
     json_span raw = Some span -> json_loads E span = Ok (JDict obj) ->
     in_strs (get_or obj "verdict" (JStr "PASS")) ["PASS"; "REWRITE"; "BLOCK"]
     = false ->
     ∃ r, out = Ok r ∧ jr_verdict r = "PASS" ∧ jr_feedback r = JNull
          ∧ jr_rewritten_response r = JNull) ∧
  (∀ raw span obj,
     JUDGE_ENABLED E = true -> reply = Ok raw ->
     json_span raw = Some span -> json_loads E span = Ok (JDict obj) ->
     let feedback := get_or obj "feedback" (JStr "") in
     let rewritten := get_or obj "rewritten_response" JNull in
     ∃ r, out = Ok r ∧
          jr_reason r = object_reason E obj ∧
          (get_or obj "verdict" (JStr "PASS") = JStr "PASS" ->
           jr_verdict r = "PASS" ∧ jr_feedback r = JNull
           ∧ jr_rewritten_response r = JNull) ∧
          (get_or obj "verdict" (JStr "PASS") = JStr "REWRITE" ->
           jr_verdict r = (if truthy rewritten || truthy feedback
                           then "REWRITE" else "PASS")
           ∧ jr_feedback r = feedback ∧ jr_rewritten_response r = rewritten) ∧
          (get_or obj "verdict" (JStr "PASS") = JStr "BLOCK" ->
           jr_verdict r = "BLOCK" ∧ jr_feedback r = feedback
           ∧ jr_rewritten_response r = rewritten)).
Proof.
  intros reply out. subst out. split; [|split; [|split]].
  - destruct (JUDGE_ENABLED E) eqn:Hen.
    + rewrite run_judge_enabled by exact Hen. eauto.
    + unfold run_judge. rewrite Hen. simpl. eauto.
  - intros e Hen Hu. rewrite run_judge_enabled by exact Hen.
    fold reply. destruct Hu as [e|raw Hs|raw span e Hs Hl|raw span x Hs Hl Hx].
    + reflexivity.
    + by rewrite judge_reply_no_span.
    + by rewrite (judge_reply_undecodable _ _ _ _ Hs Hl).
    + by rewrite (judge_reply_not_object _ _ _ _ Hs Hl Hx).
  - intros raw span obj Hen Hr Hs Hl Hv.
    rewrite run_judge_enabled by exact Hen. fold reply. rewrite Hr.
    destruct (judge_reply_unknown_verdict _ _ _ _ Hs Hl Hv)
      as (r & -> & Hr'). eauto.
  - intros raw span obj Hen Hr Hs Hl.
    rewrite run_judge_enabled by exact Hen. fold reply. rewrite Hr.
    destruct (judge_reply_object _ _ _ _ Hs Hl) as (r & -> & Hr').
    exists r. split; [reflexivity | exact Hr'].
Qed.

(** A timeout of the judge call ends in PASS. *)
Lemma run_judge_recovers_witness :
  let E := Demo.env_with true 6
             (λ _, Raise (PyExc "ReadTimeout" "Read timed out."))
             (λ _, Ok Demo.mx1_script) in
  (run_judge E Demo.coach "hi" "draft" [] Demo.world0).1 =
  Ok (judge_failed (PyExc "ReadTimeout" "Read timed out.")).
Proof.
  intros E.
  apply (proj1 (proj2 (run_judge_recovers E Demo.coach "hi" "draft" []
                         Demo.world0))).
  - reflexivity.
  - apply unusable_call.
Defined.

(** C2 as stated fails on an object that violates the verdict schema but
    carries a known verdict: a BLOCK whose replacement text is the number 42
    is returned as BLOCK, with the number. *)
Lemma judge_keeps_ill_typed_block :
  let E := Demo.env_with true 6 (λ _, Ok Demo.block_reply)
             (λ _, Ok Demo.mx1_script) in
  ∃ obj,
    json_loads E Demo.block_reply = Ok (JDict obj) ∧
    verdict_schema_ok obj = false ∧
    (run_judge E Demo.coach "hi" "draft" [] Demo.world0).1 =
    Ok {| jr_verdict := "BLOCK"; jr_feedback := JStr "";
          jr_rewritten_response := JInt 42; jr_reason := "";
          jr_risk_tags := [] |}.
Proof.
  eexists. split; [vm_compute; reflexivity|]. split; vm_compute; reflexivity.
Qed.

(** A REWRITE that brings neither feedback nor a rewrite is returned as
    PASS, with the reason the object gave. *)
Example rewrite_without_content_passes :
  let E := Demo.env_with true 6 (λ _, Ok Demo.empty_rewrite_reply)
             (λ _, Ok Demo.mx1_script) in
  (run_judge E Demo.coach "hi" "draft" [] Demo.world0).1 =
  Ok {| jr_verdict := "PASS"; jr_feedback := JInt 0;
        jr_rewritten_response := JList []; jr_reason := "tone";
        jr_risk_tags := [] |}.
Proof. vm_compute. reflexivity. Qed.

End judge.

(** ** Alert status (C7) *)

Section alert_status.

Lemma update_alert_status_run E alert_id status w :
  (String.eqb status "active" || String.eqb status "done"
   || String.eqb status "cancelled") = true ->
  ∃ now w',
    db.update_alert_status E alert_id status w =
      (Ok (bool_decide (is_Some (alerts (w_db w) !! alert_id))), w') ∧
    alerts (w_db w') =
      alter (db.set_status status now) alert_id (alerts (w_db w)).
Proof.
  intros Hv. unfold db.update_alert_status. rewrite Hv. cbn [negb].
  eexists _, _. split; reflexivity.
Qed.

Lemma status_after_update E alert_id status w id :
  (String.eqb status "active" || String.eqb status "done"
   || String.eqb status "cancelled") = true ->
  status_of (db.update_alert_status E alert_id status w).2 id =
  if decide (alert_id = id)
  then (λ _, status) <$> status_of w id
  else status_of w id.
Proof.
  intros Hv.
  destruct (update_alert_status_run E alert_id status w Hv)
    as (now & w' & Hrun & Halerts).
  rewrite Hrun. cbn [snd]. unfold status_of. rewrite Halerts.
  rewrite lookup_alter. destruct (decide (alert_id = id)) as [->|Hne].
  - destruct (alerts (w_db w) !! id); reflexivity.
  - reflexivity.
Qed.

Lemma status_after_op E op w id :
  status_of (run_op E op w).2 id =
  match op with
  | MarkDone a =>
      if decide (a = id) then (λ _, "done") <$> status_of w id
      else status_of w id
  | MarkCancelled a =>
      if decide (a = id) then (λ _, "cancelled") <$> status_of w id
      else status_of w id
  end.
Proof.
  destruct op as [a|a]; cbn [run_op];
    unfold main.mark_alert_done_api, main.mark_alert_cancel_api,
      tools.mark_alert_done, tools.mark_alert_cancelled;
    rewrite bind_run;
    [ rewrite <- (status_after_update E a "done" w id eq_refl)
    | rewrite <- (status_after_update E a "cancelled" w id eq_refl) ];
    destruct (db.update_alert_status E a _ w) as [[[]|e] w']; reflexivity.
Qed.

(** C7 (as amended): under any sequence of the status operations the API
    exposes, mark-done and mark-cancelled on any alerts, an alert whose
    status is done or cancelled is afterwards still done or cancelled: it
    never returns to active. *)
Theorem terminal_alert_never_active E ops w alert_id status :
  status_of w alert_id = Some status ->
  terminal status ->
  ∃ status', status_of (run_ops E ops w) alert_id = Some status'
             ∧ terminal status' ∧ status' ≠ "active".
Proof.
  revert w status. induction ops as [|op ops IH]; intros w status Hs Ht.
  - exists status. repeat split; try assumption.
    destruct Ht as [-> | ->]; discriminate.
  - cbn [run_ops].
    assert (∃ s1, status_of (run_op E op w).2 alert_id = Some s1
                  ∧ terminal s1) as (s1 & Hs1 & Ht1).
    { rewrite status_after_op. rewrite Hs.
      destruct op as [a|a]; destruct (decide (a = alert_id));
        eexists; (split; [reflexivity|]);
        first [exact Ht | by left | by right]. }
    exact (IH _ _ Hs1 Ht1).
Qed.

Lemma terminal_alert_never_active_witness :
  let E := Demo.env true 6 in
  ∃ status',
    status_of (run_ops E [MarkCancelled "a1"; MarkDone "a2"; MarkDone "a1"]
                 Demo.world_done) "a1" = Some status'
    ∧ terminal status' ∧ status' ≠ "active".
Proof.
  intros E.
  apply (terminal_alert_never_active E _ Demo.world_done "a1" "done").
  - reflexivity.
  - by left.
Defined.

(** C7 as stated fails: [update_alert_status] writes any valid status over
    any other, so a done alert returns to active when asked to; and the
    API's mark-cancelled moves a done alert to cancelled, a transition that
    starts from a terminal state. *)
Lemma done_alert_reactivated :
  let E := Demo.env true 6 in
  status_of Demo.world_done "a1" = Some "done" ∧
  status_of (db.update_alert_status E "a1" "active" Demo.world_done).2 "a1"
  = Some "active" ∧
  status_of (main.mark_alert_cancel_api E "a1" Demo.world_done).2 "a1"
  = Some "cancelled".
Proof. repeat split; vm_compute; reflexivity. Qed.

End alert_status.

(** ** The tool runner (C6, C9) *)

Section runner.
Import tools.

(** The turn of the loop for an enabled tool: [run] is called in the world
    reached, and its events or its error are appended. *)
Lemma run_tools_from_enabled t ts ctx em ev w :
  default true (em !! tool_id t) = true ->
  run_tools_from (t :: ts) ctx em ev w =
  match run t ctx w with
  | (Ok r, w') => run_tools_from ts ctx em (ev ++ default [] r) w'
  | (Raise e, w') => run_tools_from ts ctx em (ev ++ [error_event t e]) w'
  end.
Proof.
  intros Hen. cbn [run_tools_from]. rewrite Hen. cbn [negb].
  rewrite bind_run. unfold try_except. rewrite bind_run.
  destruct (run t ctx w) as [[r|e] w']; reflexivity.
Qed.

Lemma run_tools_from_disabled t ts ctx em ev w :
  default true (em !! tool_id t) = false ->
  run_tools_from (t :: ts) ctx em ev w =
  run_tools_from ts ctx em (ev ++ [skipped_event t]) w.
Proof. intros Hen. cbn [run_tools_from]. by rewrite Hen. Qed.

Lemma run_tools_from_shift ts ctx em ev w :
  run_tools_from ts ctx em ev w =
  (run_tools_from ts ctx em [] ≫= λ evs, mret (ev ++ evs)) w.
Proof.
  revert ev w. induction ts as [|t ts IH]; intros ev w.
  - rewrite bind_run. cbn. by rewrite app_nil_r.
  - rewrite bind_run.
    destruct (default true (em !! tool_id t)) eqn:Hen.
    + rewrite !run_tools_from_enabled by exact Hen.
      destruct (run t ctx w) as [[r|e] w1].
      * rewrite IH, (IH ([] ++ _)), !bind_run.
        destruct (run_tools_from ts ctx em [] w1) as [[evs|e] w']; [|reflexivity].
        cbn. by rewrite <- app_assoc.
      * rewrite IH, (IH ([] ++ _)), !bind_run.
        destruct (run_tools_from ts ctx em [] w1) as [[evs|e'] w']; [|reflexivity].
        cbn. by rewrite <- app_assoc.
    + rewrite !run_tools_from_disabled by exact Hen.
      rewrite IH, (IH ([] ++ _)), !bind_run.
      destruct (run_tools_from ts ctx em [] w) as [[evs|e] w']; [|reflexivity].
      cbn. by rewrite <- app_assoc.
Qed.

Lemma run_tools_from_app l1 l2 ctx em ev w :
  run_tools_from (l1 ++ l2) ctx em ev w =
  (run_tools_from l1 ctx em ev ≫= λ ev1, run_tools_from l2 ctx em ev1) w.
Proof.
  revert ev w. induction l1 as [|t l1 IH]; intros ev w.
  - reflexivity.
  - cbn [app run_tools_from].
    destruct (negb (default true (em !! tool_id t))).
    + apply IH.
    + rewrite !bind_run.
      destruct (try_except _ _ w) as [[ev'|e] w1]; [apply IH | reflexivity].
Qed.

(** The runner itself never raises. *)
Lemma run_tools_from_total ts ctx em ev w :
  ∃ evs w', run_tools_from ts ctx em ev w = (Ok evs, w').
Proof.
  revert ev w. induction ts as [|t ts IH]; intros ev w.
  - by eexists _, _.
  - cbn [run_tools_from].
    destruct (negb (default true (em !! tool_id t))); [apply IH|].
    rewrite bind_run. unfold try_except. rewrite bind_run.
    destruct (run t ctx w) as [[r|e] w1]; apply IH.
Qed.

(** C6: when [run] of an enabled tool raises, the runner appends exactly
    one error event with the tool's id and the exception's message, after
    the events of the tools before it, and goes on to run the tools after
    it, from the world the failed tool left, appending their events in
    registry order. *)
Theorem failing_tool_is_isolated registry ctx em w l1 t l2 ev1 w1 e w1' ev2 w2 :
  list_tools registry = l1 ++ t :: l2 ->
  default true (em !! tool_id t) = true ->
  run_tools_from l1 ctx em [] w = (Ok ev1, w1) ->
  run t ctx w1 = (Raise e, w1') ->
  run_tools_from l2 ctx em [] w1' = (Ok ev2, w2) ->
  run_tools registry ctx em w = (Ok (ev1 ++ [error_event t e] ++ ev2), w2)
  ∧ get_or (match error_event t e with JDict d => d | _ => [] end)
      "tool_id" JNull = JStr (tool_id t)
  ∧ get_or (match error_event t e with JDict d => d | _ => [] end)
      "event" JNull = JStr "error"
  ∧ get_or (match error_event t e with JDict d => d | _ => [] end)
      "message" JNull = JStr (exn_str e).
Proof.
  intros Hreg Hen H1 Hrun H2. split; [|by repeat split].
  unfold run_tools. rewrite Hreg, run_tools_from_app, bind_run, H1.
  rewrite run_tools_from_enabled by exact Hen. rewrite Hrun.
  rewrite run_tools_from_shift, bind_run, H2. cbn.
  by rewrite <- app_assoc.
Qed.

Lemma failing_tool_is_isolated_witness :
  run_tools Demo.registry_abc Demo.ctx0 ∅ Demo.world0 =
  (Ok ([Demo.note "a" "ran"] ++ [error_event Demo.tool_b
                                   (PyExc "RuntimeError" "boom")]
       ++ [Demo.note "c" "1"]),
   (run Demo.tool_b Demo.ctx0 Demo.world0).2).
Proof.
  refine (proj1 (failing_tool_is_isolated Demo.registry_abc Demo.ctx0 ∅
                   Demo.world0 [Demo.tool_a] Demo.tool_b [Demo.tool_c]
                   [Demo.note "a" "ran"] Demo.world0
                   (PyExc "RuntimeError" "boom")
                   (run Demo.tool_b Demo.ctx0 Demo.world0).2
                   [Demo.note "c" "1"]
                   (run Demo.tool_b Demo.ctx0 Demo.world0).2 _ _ _ _ _));
    reflexivity.
Defined.

(** The enabled map of a session resolves, for each tool asked about, the
    session override before the global override before the default. *)
Lemma apply_settings_lookup rows (en : gmap string bool) tool :
  db.apply_settings rows en !! tool =
  match override rows tool with
  | Some b => Some b
  | None => en !! tool
  end.
Proof.
  unfold db.apply_settings, override. revert en.
  induction rows as [|r rows IH] using rev_ind; intros en; [reflexivity|].
  rewrite foldl_app, filter_app, filter_cons, filter_nil. cbn [foldl].
  destruct (decide (ts_tool_id r = tool)) as [<-|Hne].
  - rewrite last_snoc. cbn. apply lookup_insert_eq.
  - rewrite app_nil_r, lookup_insert_ne by exact Hne. apply IH.
Qed.

Lemma enabled_map_lookup (g : string -> bool) tool_ids tool :
  foldl (λ (out : gmap string bool) tid, <[tid := g tid]> out) ∅ tool_ids
    !! tool
  = if decide (tool ∈ tool_ids) then Some (g tool) else None.
Proof.
  induction tool_ids as [|t ts IH] using rev_ind.
  - cbn. rewrite decide_False; [apply lookup_empty | apply not_elem_of_nil].
  - rewrite foldl_app. cbn [foldl].
    destruct (decide (t = tool)) as [->|Hne].
    + rewrite lookup_insert_eq, decide_True; [reflexivity|].
      apply elem_of_app. right. by left.
    + rewrite lookup_insert_ne, IH by exact Hne.
      destruct (decide (tool ∈ ts)) as [Hin|Hnin].
      * rewrite decide_True; [reflexivity|]. apply elem_of_app. by left.
      * rewrite decide_False; [reflexivity|].
        rewrite elem_of_app, list_elem_of_singleton.
        intros [Hts|Heq]; [by destruct Hnin | by destruct Hne].
Qed.

Lemma effective_enabled_map session_id tool_ids w tool :
  tool ∈ tool_ids ->
  ∃ em,
    db.get_effective_tool_enabled_map session_id tool_ids w = (Ok em, w) ∧
    em !! tool = Some (effective_enabled session_id (w_db w) tool).
Proof.
  intros Hin. eexists. split; [reflexivity|].
  rewrite (enabled_map_lookup
             (λ tid, default true
                       (db.apply_settings _ (db.apply_settings _ _) !! tid))).
  rewrite decide_True by exact Hin. f_equal.
  rewrite !apply_settings_lookup, (enabled_map_lookup (λ _, true)).
  rewrite decide_True by exact Hin.
  unfold effective_enabled, session_settings, global_settings.
  destruct (override (filter _ _) tool) as [b|]; [reflexivity|].
  by destruct (override (filter _ _) tool).
Qed.

(** C9: a tool the enabled map switches off contributes exactly one event,
    the [skipped] event that carries the tool's id, and its [run] is not
    called: the tools after it start from the world the tools before it
    left, and the result is the same whatever the tool's [run] is.  A tool
    the map does not mention is run. *)
Theorem disabled_tool_is_skipped registry ctx em w l1 t l2 ev1 w1 ev2 w2 :
  list_tools registry = l1 ++ t :: l2 ->
  em !! tool_id t = Some false ->
  run_tools_from l1 ctx em [] w = (Ok ev1, w1) ->
  run_tools_from l2 ctx em [] w1 = (Ok ev2, w2) ->
  run_tools registry ctx em w =
    (Ok (ev1
         ++ [JDict [("tool_id", JStr (tool_id t)); ("event", JStr "skipped");
                    ("title", JStr "Tool disabled");
                    ("message",
                     JStr (tool_id t +:+ " is disabled for this session."));
                    ("data", JDict [])]]
         ++ ev2), w2)
  ∧ (∀ t', tool_id t' = tool_id t ->
           run_tools_from (l1 ++ t' :: l2) ctx em [] w
           = run_tools registry ctx em w)
  ∧ (∀ u ts ev w0, em !! tool_id u = None ->
       run_tools_from (u :: ts) ctx em ev w0 =
       match run u ctx w0 with
       | (Ok r, w') => run_tools_from ts ctx em (ev ++ default [] r) w'
       | (Raise e, w') => run_tools_from ts ctx em (ev ++ [error_event u e]) w'
       end).
Proof.
  intros Hreg Hoff H1 H2.
  assert (Hdis : ∀ t', tool_id t' = tool_id t ->
            run_tools_from (l1 ++ t' :: l2) ctx em [] w
            = (Ok (ev1 ++ [skipped_event t] ++ ev2), w2)).
  { intros t' Hid.
    rewrite run_tools_from_app, bind_run, H1.
    rewrite run_tools_from_disabled by (by rewrite Hid, Hoff).
    rewrite run_tools_from_shift, bind_run, H2. cbn.
    unfold skipped_event. rewrite Hid. by rewrite <- app_assoc. }
  split; [|split].
  - unfold run_tools. rewrite Hreg. by apply Hdis.
  - intros t' Hid. unfold run_tools. rewrite Hreg.
    by rewrite (Hdis t' Hid), (Hdis t eq_refl).
  - intros u ts ev w0 Hnone. apply run_tools_from_enabled. by rewrite Hnone.
Qed.

Lemma disabled_tool_is_skipped_witness :
  run_tools Demo.registry_abc Demo.ctx0 {[ "b" := false ]} Demo.world0 =
  (Ok ([Demo.note "a" "ran"]
       ++ [JDict [("tool_id", JStr "b"); ("event", JStr "skipped");
                  ("title", JStr "Tool disabled");
                  ("message", JStr "b is disabled for this session.");
                  ("data", JDict [])]]
       ++ [Demo.note "c" "0"]), Demo.world0).
Proof.
  refine (proj1 (disabled_tool_is_skipped Demo.registry_abc Demo.ctx0
                   {[ "b" := false ]} Demo.world0 [Demo.tool_a] Demo.tool_b
                   [Demo.tool_c] [Demo.note "a" "ran"] Demo.world0
                   [Demo.note "c" "0"] Demo.world0 _ _ _ _)); reflexivity.
Defined.

End runner.

(** ** Memory upserts (C4) *)

Section memory_upsert.
Import db.

Lemma filter_map_stable {A} (P : A -> Prop) `{!∀ x, Decision (P x)}
    (g : A -> A) (l : list A) :
  (∀ x, P (g x) <-> P x) ->
  filter P (map g l) = map g (filter P l).
Proof.
  intros Hg. induction l as [|x l IH]; [reflexivity|].
  cbn [map]. rewrite !filter_cons.
  destruct (decide (P (g x))) as [Hy|Hn], (decide (P x)) as [Hy'|Hn'].
  - cbn [map]. by rewrite IH.
  - destruct Hn'. by apply Hg.
  - destruct Hn. by apply Hg.
  - exact IH.
Qed.

Lemma sql_match_refl (a : option string) : (sql_is a a || sql_eq a a) = true.
Proof. destruct a as [x|]; cbn; [by rewrite String.eqb_refl | reflexivity]. Qed.

Lemma sql_match_eq (a b : option string) :
  (sql_is a b || sql_eq a b) = true -> a = b.
Proof.
  destruct a as [x|], b as [y|]; cbn; try discriminate; try reflexivity.
  rewrite orb_diag. by intros ->%String.eqb_eq.
Qed.

Lemma memory_match_inv scope key session_id r :
  memory_match scope key session_id r = true ->
  mi_scope r = scope ∧ mi_key r = key ∧ mi_session_id r = session_id.
Proof.
  unfold memory_match. rewrite !andb_true_iff.
  intros [[Hs%String.eqb_eq Hk%String.eqb_eq] Hq%sql_match_eq]. done.
Qed.

Lemma memory_match_self r :
  memory_match (mi_scope r) (mi_key r) (mi_session_id r) r = true.
Proof.
  unfold memory_match. by rewrite !String.eqb_refl, sql_match_refl.
Qed.

Lemma memory_match_update scope key session_id v c src now r :
  memory_match scope key session_id (update_memory_row v c src now r)
  = memory_match scope key session_id r.
Proof. reflexivity. Qed.

(** What a completed upsert did to the table: it rewrote the rows carrying
    the id of the first row of the triple, or, when the triple had no row,
    appended one. *)
Lemma upsert_memory_item_run E scope key value conf session_id src w mem_id w' :
  upsert_memory_item E scope key value conf session_id src w = (Ok mem_id, w') ->
  let rows := memory_items (w_db w) in
  ∃ now,
    match head (rows_for scope session_id key (w_db w)) with
    | Some row =>
        mem_id = mi_id row ∧
        memory_items (w_db w') =
          map (λ r, if String.eqb (mi_id r) (mi_id row)
                    then update_memory_row value conf src now r else r) rows
    | None =>
        memory_items (w_db w') =
          rows ++ [{| mi_id := mem_id; mi_scope := scope;
                      mi_session_id := session_id; mi_key := key;
                      mi_value := value; mi_confidence := conf;
                      mi_source_message_id := src;
                      mi_created_at := now; mi_updated_at := now |}]
    end.
Proof.
  unfold upsert_memory_item, rows_for, fetchone. intros H.
  do 3 (rewrite bind_run in H; cbn [new_uuid _utc_now get_db w_db] in H).
  exists (utcnow_iso E (clock_calls w) +:+ "Z").
  destruct (head (filter _ (memory_items (w_db w)))) as [row|].
  - destruct (PrimFloat.is_nan conf); [discriminate|].
    rewrite bind_run in H. cbn in H. injection H as <- <-. by split.
  - destruct (negb _); [discriminate|].
    destruct (PrimFloat.is_nan conf); [discriminate|].
    destruct (existsb _ _); [discriminate|].
    rewrite bind_run in H. cbn in H. by injection H as <- <-.
Qed.

Lemma rows_for_after_upsert E scope key value conf session_id src w mem_id w'
    scope' session_id' key' :
  upsert_memory_item E scope key value conf session_id src w = (Ok mem_id, w') ->
  (length (rows_for scope session_id key (w_db w)) <= 1)%nat ->
  length (rows_for scope' session_id' key' (w_db w')) =
  if decide ((scope', session_id', key') = (scope, session_id, key))
  then 1%nat
  else length (rows_for scope' session_id' key' (w_db w)).
Proof.
  intros Hrun Hone.
  destruct (upsert_memory_item_run _ _ _ _ _ _ _ _ _ _ Hrun) as (now & Hspec).
  unfold rows_for in *.
  destruct (filter _ (memory_items (w_db w))) as [|row rest] eqn:Hf;
    cbn [head] in Hspec.
  - rewrite Hspec, filter_app, length_app, filter_cons, filter_nil.
    destruct (decide ((scope', session_id', key') = _)) as [[= -> -> ->]|Hne].
    + rewrite Hf. rewrite decide_True; [reflexivity|].
      apply (memory_match_self {| mi_id := mem_id; mi_scope := scope;
                                  mi_session_id := session_id; mi_key := key;
                                  mi_value := value; mi_confidence := conf;
                                  mi_source_message_id := src;
                                  mi_created_at := now;
                                  mi_updated_at := now |}).
    + destruct (decide (memory_match scope' key' session_id' _ = true))
        as [Hm|Hm]; [|cbn; lia].
      apply memory_match_inv in Hm. cbn in Hm.
      destruct Hm as (-> & -> & ->). by destruct Hne.
  - destruct Hspec as [_ Hspec]. rewrite Hspec.
    rewrite filter_map_stable, length_map.
    2:{ intros r. destruct (String.eqb (mi_id r) (mi_id row)); done. }
    destruct (decide ((scope', session_id', key') = _)) as [[= -> -> ->]|Hne];
      [|reflexivity].
    rewrite Hf in *. cbn in *. lia.
Qed.

(** The invariant of the table: it holds of the empty table and every
    completed upsert keeps it. *)
Lemma one_row_per_key_empty : one_row_per_key empty_db.
Proof. intros scope session_id key. cbn. lia. Qed.

Lemma one_row_per_key_upsert E scope key value conf session_id src w mem_id w' :
  one_row_per_key (w_db w) ->
  upsert_memory_item E scope key value conf session_id src w = (Ok mem_id, w') ->
  one_row_per_key (w_db w').
Proof.
  intros Hinv Hrun scope' session_id' key'.
  rewrite (rows_for_after_upsert _ _ _ _ _ _ _ _ _ _ _ _ _ Hrun (Hinv _ _ _)).
  destruct (decide _); [lia | apply Hinv].
Qed.

Lemma filter_filter_length {A} (P Q : A -> Prop) `{!∀ x, Decision (P x)}
    `{!∀ x, Decision (Q x)} (l : list A) :
  (length (filter P (filter Q l)) <= length (filter P l))%nat.
Proof.
  induction l as [|x l IH]; [reflexivity|].
  rewrite !(filter_cons _ x).
  destruct (decide (Q x)), (decide (P x));
    rewrite ?filter_cons, ?decide_True, ?decide_False by assumption;
    cbn; lia.
Qed.

Lemma one_row_per_key_delete mem_id w :
  one_row_per_key (w_db w) ->
  one_row_per_key (w_db (delete_memory_item mem_id w).2).
Proof.
  intros Hinv scope session_id key.
  etransitivity; [|apply (Hinv scope session_id key)].
  apply filter_filter_length.
Qed.

(** C4: two upserts with the same (scope, session_id, key) leave exactly
    one row for the triple, carrying the value and confidence of the later
    call; both calls return the id of that row, and the later call inserts
    nothing. *)
Theorem upsert_twice_one_row E scope key session_id
    value1 conf1 src1 value2 conf2 src2 w id1 w1 id2 w2 :
  one_row_per_key (w_db w) ->
  db.upsert_memory_item E scope key value1 conf1 session_id src1 w
    = (Ok id1, w1) ->
  db.upsert_memory_item E scope key value2 conf2 session_id src2 w1
    = (Ok id2, w2) ->
  (∃ row, rows_for scope session_id key (w_db w2) = [row]
          ∧ mi_value row = value2 ∧ mi_confidence row = conf2
          ∧ mi_id row = id2 ∧ id2 = id1)
  ∧ length (memory_items (w_db w2)) = length (memory_items (w_db w1))
  ∧ one_row_per_key (w_db w2).
Proof.
  intros Hinv Hrun1 Hrun2.
  pose proof (one_row_per_key_upsert _ _ _ _ _ _ _ _ _ _ Hinv Hrun1) as Hinv1.
  pose proof (rows_for_after_upsert _ _ _ _ _ _ _ _ _ _ scope session_id key
                Hrun1 (Hinv _ _ _)) as Hlen1.
  rewrite decide_True in Hlen1 by reflexivity.
  destruct (rows_for scope session_id key (w_db w1)) as [|r1 [|? ?]] eqn:Hrows1;
    try discriminate.
  assert (Hid1 : mi_id r1 = id1).
  { destruct (upsert_memory_item_run _ _ _ _ _ _ _ _ _ _ Hrun1) as (now & Hs).
    unfold rows_for in *.
    destruct (filter _ (memory_items (w_db w))) as [|row rest] eqn:Hf;
      cbn [head] in Hs.
    - rewrite Hs, filter_app, Hf, filter_cons, filter_nil in Hrows1.
      destruct (decide _) as [_|Hn]; [by injection Hrows1 as <-|].
      exfalso. apply Hn.
      apply (memory_match_self {| mi_id := id1; mi_scope := scope;
                                  mi_session_id := session_id; mi_key := key;
                                  mi_value := value1; mi_confidence := conf1;
                                  mi_source_message_id := src1;
                                  mi_created_at := now;
                                  mi_updated_at := now |}).
    - destruct Hs as [-> Hs]. rewrite Hs in Hrows1.
      rewrite filter_map_stable, Hf in Hrows1.
      2:{ intros r. destruct (String.eqb (mi_id r) (mi_id row)); done. }
      cbn in Hrows1. rewrite String.eqb_refl in Hrows1.
      by injection Hrows1 as <-. }
  destruct (upsert_memory_item_run _ _ _ _ _ _ _ _ _ _ Hrun2) as (now & Hs).
  rewrite Hrows1 in Hs. cbn [head] in Hs. destruct Hs as [-> Hs].
  split; [|split].
  - exists (update_memory_row value2 conf2 src2 now r1).
    unfold rows_for in *. rewrite Hs.
    rewrite filter_map_stable, Hrows1.
    2:{ intros r. destruct (String.eqb (mi_id r) (mi_id r1)); done. }
    cbn. rewrite String.eqb_refl. by repeat split.
  - by rewrite Hs, length_map.
  - exact (one_row_per_key_upsert _ _ _ _ _ _ _ _ _ _ Hinv1 Hrun2).
Qed.

Lemma upsert_twice_one_row_witness :
  let E := Demo.env true 6 in
  let w1 := (upsert_memory_item E "session" "pet_name" "Milo" 0.9%float
               (Some "s1") None Demo.world0).2 in
  let w2 := (upsert_memory_item E "session" "pet_name" "Milo the cat"
               0.95%float (Some "s1") None w1).2 in
  ∃ row,
    rows_for "session" (Some "s1") "pet_name" (w_db w2) = [row]
    ∧ mi_value row = "Milo the cat" ∧ mi_confidence row = 0.95%float
    ∧ mi_id row = "uuid-0" ∧ "uuid-0" = "uuid-0".
Proof.
  intros E w1 w2.
  refine (proj1 (upsert_twice_one_row E "session" "pet_name" (Some "s1")
                   "Milo" 0.9%float None "Milo the cat" 0.95%float None
                   Demo.world0 "uuid-0" w1 "uuid-0" w2 _ _ _)).
  - intros scope session_id key. cbn. lia.
  - reflexivity.
  - reflexivity.
Defined.

End memory_upsert.

(** ** The extraction context (C5) *)

Lemma get_messages_run session_id limit w :
  db.in_int64 limit = true ->
  db.get_messages session_id limit w =
  (Ok (db.sql_limit limit
         (db.order_by db.created_asc (db.session_messages session_id (w_db w)))),
   w).
Proof.
  intros Hfits. unfold db.get_messages, db.bind_int.
  do 2 (rewrite bind_run; cbn [get_db w_db]). by rewrite Hfits.
Qed.

Section context.
Import pipeline.

(** In a session of at most 50 messages the context is the last
    [MX1_RECENT_MESSAGES] messages of the conversation. *)
Lemma recent_context_short_session E session_id w msgs :
  (length (db.session_messages session_id (w_db w)) <= 50)%nat ->
  (db.get_messages session_id 50 w).1 = Ok msgs ->
  recent_context E msgs =
  slice_from (- MX1_RECENT_MESSAGES E)
    (map to_chat
       (db.order_by db.created_asc (db.session_messages session_id (w_db w)))).
Proof.
  intros Hlen. rewrite get_messages_run by reflexivity. cbn [fst].
  intros [= <-]. unfold recent_context, db.sql_limit. cbn.
  rewrite take_ge; [reflexivity|].
  assert (Hins : ∀ (x : MessageRow) l,
            length (db.insert_by db.created_asc x l) = S (length l)).
  { intros x l. induction l as [|y l IH]; [reflexivity|].
    cbn. destruct (db.created_asc x y); cbn; [reflexivity | by rewrite IH]. }
  assert (Hord : ∀ l : list MessageRow,
            length (db.order_by db.created_asc l) = length l).
  { induction l as [|x l IH]; [reflexivity|].
    cbn. rewrite Hins. f_equal. exact IH. }
  rewrite Hord. change (Pos.to_nat 50) with 50%nat. exact Hlen.
Qed.

(** C5 fails in a session of 51 messages: [get_messages] returns the 50
    oldest messages, so the context is messages 41 to 50 and the newest
    message is left out; an extraction that echoes the last message of its
    context stores message 50 as the summary. *)
Theorem context_misses_newest_message :
  let E := Demo.env_with true 3 (λ n, Ok (Demo.judge_script n)) Demo.mx1_echo in
  let w := Demo.world_with (Demo.conversation 51) in
  (* the last 10 messages of the session *)
  map content
    (slice_from (-10)
       (map to_chat
          (db.order_by db.created_asc (db.session_messages "s1" (w_db w)))))
  = ["message 42"; "message 43"; "message 44"; "message 45"; "message 46";
     "message 47"; "message 48"; "message 49"; "message 50"; "message 51"]
  (* the context the pipeline builds *)
  ∧ match (db.get_messages "s1" 50 w).1 with
    | Ok msgs => map content (recent_context E msgs)
    | Raise _ => []
    end
    = ["message 41"; "message 42"; "message 43"; "message 44"; "message 45";
       "message 46"; "message 47"; "message 48"; "message 49"; "message 50"]
  (* the summary the pipeline stores *)
  ∧ ss_summary <$>
      session_summaries
        (w_db (run_post_chat_pipeline E "s1" Demo.coach w).2) !! "s1"
    = Some "message 50".
Proof. repeat split; vm_compute; reflexivity. Qed.

End context.

(** ** The chat turn (C1, C10) *)

Section turn.
Import main.

(** Instances of the frames for the whole pipeline and the registry. *)

Lemma pipeline_drafts E session_id persona :
  keeps (same chat_calls) (pipeline.run_post_chat_pipeline E session_id persona).
Proof. apply keeps_run_post_chat_pipeline; auto with frames. Qed.

Lemma pipeline_messages E session_id persona :
  keeps (same stored_messages)
    (pipeline.run_post_chat_pipeline E session_id persona).
Proof. apply keeps_run_post_chat_pipeline; auto with frames. Qed.

Lemma registry_tools E t :
  t ∈ tools.list_tools (TOOLS_REGISTRY E) -> t = tools.AlertsTool E.
Proof. cbn. by intros ->%list_elem_of_singleton. Qed.

Lemma run_tools_drafts E ctx em :
  keeps (same chat_calls) (tools.run_tools (TOOLS_REGISTRY E) ctx em).
Proof.
  apply keeps_run_tools_from; [apply _|].
  intros t ->%registry_tools. apply keeps_AlertsTool_run; auto with frames.
Qed.

Lemma run_tools_messages E ctx em :
  keeps (same stored_messages) (tools.run_tools (TOOLS_REGISTRY E) ctx em).
Proof.
  apply keeps_run_tools_from; [apply _|].
  intros t ->%registry_tools. apply keeps_AlertsTool_run; auto with frames.
Qed.

Lemma ollama_chat_messages E system_prompt history message :
  keeps (same stored_messages) (ollama_chat E system_prompt history message).
Proof. intros w. reflexivity. Qed.

#[local] Hint Resolve pipeline_drafts pipeline_messages run_tools_drafts
  run_tools_messages ollama_chat_messages keeps_run_judge keeps_read_memory
  : frames.

(** The retry loop does not touch the stored conversation. *)
Lemma retry_loop_messages E persona mem system_prompt message attempts st :
  keeps (same stored_messages)
    (retry_loop E persona mem system_prompt message attempts st).
Proof.
  revert st. induction attempts as [|attempt rest IH]; intros st; cbn.
  - frames.
  - frames.
Qed.

(** Sequencing under relations that do not compose with themselves. *)
Lemma keeps_seq {A B} (R1 R2 R3 : World -> World -> Prop)
    (m : M A) (k : A -> M B) :
  (∀ a b, R1 a b -> R3 a b) ->
  (∀ a b c, R1 a b -> R2 b c -> R3 a c) ->
  keeps R1 m -> (∀ a, keeps R2 (k a)) -> keeps R3 (m ≫= k).
Proof.
  intros Hweak Hcomp Hm Hk w. rewrite bind_run. specialize (Hm w).
  destruct (m w) as [[a|e] w1]; cbn in *.
  - eapply Hcomp; [exact Hm | apply Hk].
  - by apply Hweak.
Qed.

Lemma more_drafts_after_same n a b c :
  same chat_calls a b -> more_drafts n b c -> more_drafts n a c.
Proof. unfold same, more_drafts. lia. Qed.

Lemma more_drafts_then_same n a b c :
  more_drafts n a b -> same chat_calls b c -> more_drafts n a c.
Proof. unfold same, more_drafts. lia. Qed.

Lemma more_drafts_of_same n a b : same chat_calls a b -> more_drafts n a b.
Proof. unfold same, more_drafts. lia. Qed.

(** Each turn of the loop makes one draft call, and the loop makes at most
    one turn per attempt. *)
Lemma retry_loop_drafts E persona mem system_prompt message attempts st :
  keeps (more_drafts (length attempts))
    (retry_loop E persona mem system_prompt message attempts st).
Proof.
  revert st. induction attempts as [|attempt rest IH]; intros st w.
  - unfold more_drafts. cbn. lia.
  - cbn [retry_loop length]. rewrite bind_run.
    unfold try_except, ollama_chat at 1.
    destruct (chat_backend E _ _ _ _) as [draft|e];
      [|unfold more_drafts; cbn; lia].
    set (w1 := {| w_db := w_db w; chat_calls := S (chat_calls w) |}).
    rewrite bind_run.
    pose proof (keeps_run_judge chat_calls E persona message draft mem w1) as Hj.
    destruct (judge_agent.run_judge E persona message draft mem w1)
      as [[jr|e] w2]; unfold same in Hj; cbn [snd] in Hj;
      [|unfold more_drafts; cbn in *; lia].
    assert (Hstop : ∀ s : LoopState,
              more_drafts (S (length rest)) w ((mret s : M LoopState) w2).2).
    { intros s. unfold more_drafts. cbn in *. lia. }
    assert (Hgo : ∀ s, more_drafts (S (length rest)) w
                         (retry_loop E persona mem system_prompt message
                            rest s w2).2).
    { intros s. specialize (IH s w2). unfold more_drafts in *. cbn in *. lia. }
    repeat match goal with
           | |- context [if ?b then _ else _] => destruct b
           end; first [apply Hstop | apply Hgo].
Qed.

(** C1: whatever the judge answers and however the turn ends, one call of
    the chat endpoint makes at most 3 draft-generation calls to the model
    backend. *)
Theorem at_most_three_drafts E session_id message w :
  (chat_calls (chat_send_api E session_id message w).2 <= chat_calls w + 3)%nat.
Proof.
  change (more_drafts 3 w (chat_send_api E session_id message w).2).
  revert w. change (keeps (more_drafts 3) (chat_send_api E session_id message)).
  assert (Hraise : ∀ A e, keeps (more_drafts 3) (raise e : M A)).
  { intros A e w. unfold more_drafts. cbn. lia. }
  assert (Hturn : ∀ persona_id persona,
            keeps (more_drafts 3)
              (chat_turn E session_id message persona_id persona)).
  { intros persona_id persona. unfold chat_turn.
    do 5 (apply (keeps_seq (same chat_calls) (more_drafts 3) (more_drafts 3));
          [ apply more_drafts_of_same | apply more_drafts_after_same
          | frames | intros ? ]).
    apply (keeps_seq (more_drafts 3) (same chat_calls) (more_drafts 3));
      [ auto | apply more_drafts_then_same
      | apply (retry_loop_drafts E _ _ _ _ attempts) | intros st ].
    frames. }
  unfold chat_send_api.
  apply (keeps_seq (same chat_calls) (more_drafts 3) (more_drafts 3));
    [ apply more_drafts_of_same | apply more_drafts_after_same
    | frames | intros s ].
  destruct s as [s|]; [|apply Hraise].
  destruct (PERSONAS E !! s_persona_id s) as [[| | | | | |[|]]|];
    first [apply Hraise | apply Hturn].
Qed.

(** The bound is reached: a judge that keeps asking for a rewrite, with
    feedback, makes the turn draft three times. *)
Example three_drafts_under_persistent_rewrite :
  let E := Demo.env_with true 6 (λ _, Ok (Demo.judge_script 0))
             (λ _, Ok Demo.mx1_script) in
  chat_calls (chat_send_api E "s1" "hello" Demo.world0).2 = 3%nat.
Proof. vm_compute. reflexivity. Qed.

(** What [add_message] does to the stored conversation. *)
Lemma add_message_run E session_id role content w r w' :
  db.add_message E session_id role content w = (r, w') ->
  match r with
  | Ok msg_id =>
      ∃ text now,
        db.bind_text E content = Ok (Some text) ∧
        stored_messages w' =
          stored_messages w ++
          [{| m_id := msg_id; m_session_id := session_id; m_role := role;
              m_content := text; m_created_at := now |}]
  | Raise _ => stored_messages w' = stored_messages w
  end.
Proof.
  unfold db.add_message, stored_messages. intros H.
  do 2 (rewrite bind_run in H; cbn [db.new_uuid db._utc_now] in H).
  rewrite bind_run in H. unfold lift at 1 in H.
  destruct (db.bind_text E content) as [[text|]|e].
  - rewrite bind_run in H. cbn [get_db w_db] in H.
    destruct (negb _); [by injection H as <- <-|].
    destruct (existsb _ _); [by injection H as <- <-|].
    rewrite bind_run in H. cbn in H. injection H as <- <-. cbn. eauto.
  - rewrite bind_run in H. cbn in H. by injection H as <- <-.
  - by injection H as <- <-.
Qed.

Lemma chat_turn_appends E session_id message persona_id persona w resp w' :
  chat_turn E session_id message persona_id persona w = (Ok resp, w') ->
  ∃ user_id user_at reply_id reply_at text,
    db.bind_text E (r_assistant resp) = Ok (Some text) ∧
    stored_messages w' =
      stored_messages w ++
      [{| m_id := user_id; m_session_id := session_id; m_role := "user";
          m_content := message; m_created_at := user_at |};
       {| m_id := reply_id; m_session_id := session_id;
          m_role := "assistant"; m_content := text;
          m_created_at := reply_at |}].
Proof.
  unfold chat_turn. intros H.
  apply bind_Ok in H as (persona_d & w1 & H1 & H).
  apply bind_Ok in H as (mem & w2 & H2 & H).
  apply bind_Ok in H as (user_id & w3 & H3 & H).
  apply bind_Ok in H as (msgs & w4 & H4 & H).
  apply bind_Ok in H as (system_prompt & w5 & H5 & H).
  apply bind_Ok in H as (st & w6 & H6 & H).
  apply bind_Ok in H as (final & w7 & H7 & H).
  apply bind_Ok in H as (reply_id & w8 & H8 & H).
  apply bind_Ok in H as (dbg & w9 & H9 & H).
  apply bind_Ok in H as (em & w10 & H10 & H).
  apply bind_Ok in H as (latest & w11 & H11 & H).
  apply bind_Ok in H as (summary & w12 & H12 & H).
  apply bind_Ok in H as (events & w13 & H13 & H).
  injection H as <- <-. cbn [r_assistant].
  assert (E1 : stored_messages w1 = stored_messages w).
  { unfold lift in H1. by injection H1 as _ <-. }
  assert (E2 : stored_messages w2 = stored_messages w1).
  { eapply (keeps_run (same stored_messages)); [|exact H2]. frames. }
  apply add_message_run in H3 as (text_u & user_at & Hbu & E3).
  cbn in Hbu. injection Hbu as <-.
  assert (E4 : stored_messages w4 = stored_messages w3).
  { eapply (keeps_run (same stored_messages)); [|exact H4]. frames. }
  assert (E5 : stored_messages w5 = stored_messages w4).
  { unfold lift in H5. by injection H5 as _ <-. }
  assert (E6 : stored_messages w6 = stored_messages w5).
  { eapply (keeps_run (same stored_messages)); [|exact H6].
    apply retry_loop_messages. }
  assert (E7 : stored_messages w7 = stored_messages w6).
  { destruct (negb _); [destruct (assistant_draft st)|];
      cbn in H7; by injection H7 as _ <-. }
  apply add_message_run in H8 as (text & reply_at & Hb & E8).
  assert (E9 : stored_messages w9 = stored_messages w8).
  { eapply (keeps_run (same stored_messages)); [|exact H9]. frames. }
  assert (E10 : stored_messages w10 = stored_messages w9).
  { eapply (keeps_run (same stored_messages)); [|exact H10]. frames. }
  assert (E11 : stored_messages w11 = stored_messages w10).
  { eapply (keeps_run (same stored_messages)); [|exact H11]. frames. }
  assert (E12 : stored_messages w12 = stored_messages w11).
  { eapply (keeps_run (same stored_messages)); [|exact H12]. frames. }
  assert (E13 : stored_messages w13 = stored_messages w12).
  { eapply (keeps_run (same stored_messages)); [|exact H13]. frames. }
  exists user_id, user_at, reply_id, reply_at, text. split; [exact Hb|].
  rewrite E13, E12, E11, E10, E9, E8, E7, E6, E5, E4, E3, E2, E1.
  by rewrite <- app_assoc.
Qed.

(** C10: a turn that answers appends exactly two messages to the stored
    conversation, the user message and then the final assistant reply as
    the response carries it; no draft the judge rejected and no feedback is
    stored, however many rewrite rounds there were. *)
Theorem turn_appends_two_messages E session_id message w resp w' :
  chat_send_api E session_id message w = (Ok resp, w') ->
  ∃ user_id user_at reply_id reply_at text,
    db.bind_text E (r_assistant resp) = Ok (Some text) ∧
    stored_messages w' =
      stored_messages w ++
      [{| m_id := user_id; m_session_id := session_id; m_role := "user";
          m_content := message; m_created_at := user_at |};
       {| m_id := reply_id; m_session_id := session_id;
          m_role := "assistant"; m_content := text;
          m_created_at := reply_at |}].
Proof.
  unfold chat_send_api. intros H.
  apply bind_Ok in H as (s & w1 & H1 & H).
  assert (E1 : stored_messages w1 = stored_messages w).
  { eapply (keeps_run (same stored_messages)); [|exact H1]. frames. }
  rewrite <- E1.
  destruct s as [s|]; [|discriminate].
  destruct (PERSONAS E !! s_persona_id s) as [[| | | | | |[|]]|];
    first [discriminate | exact (chat_turn_appends _ _ _ _ _ _ _ _ H)].
Qed.

(** A turn that fails stores nothing, or the user message alone: a draft
    or feedback is not stored then either. *)
Lemma failed_turn_stores_no_draft E session_id message w e w' :
  chat_send_api E session_id message w = (Raise e, w') ->
  stored_messages w' = stored_messages w
  ∨ ∃ user_id user_at,
      stored_messages w' =
        stored_messages w ++
        [{| m_id := user_id; m_session_id := session_id; m_role := "user";
            m_content := message; m_created_at := user_at |}].
Proof.
  assert (Hturn : ∀ persona_id persona w,
            chat_turn E session_id message persona_id persona w = (Raise e, w')
            -> stored_messages w' = stored_messages w
               ∨ ∃ user_id user_at,
                   stored_messages w' =
                     stored_messages w ++
                     [{| m_id := user_id; m_session_id := session_id;
                         m_role := "user"; m_content := message;
                         m_created_at := user_at |}]).
  { clear w. intros persona_id persona w. unfold chat_turn. intros H.
    apply bind_Raise in H as [H|(persona_d & w1 & H1 & H)].
    { left. unfold lift in H. by injection H as _ <-. }
    assert (E1 : stored_messages w1 = stored_messages w).
    { unfold lift in H1. by injection H1 as _ <-. }
    apply bind_Raise in H as [H|(mem & w2 & H2 & H)].
    { left. rewrite <- E1.
      eapply (keeps_run (same stored_messages)); [|exact H]. frames. }
    assert (E2 : stored_messages w2 = stored_messages w1).
    { eapply (keeps_run (same stored_messages)); [|exact H2]. frames. }
    apply bind_Raise in H as [H|(user_id & w3 & H3 & H)].
    { left. apply add_message_run in H. congruence. }
    apply add_message_run in H3 as (text_u & user_at & Hbu & E3).
    cbn in Hbu. injection Hbu as <-.
    right. exists user_id, user_at. rewrite <- E1, <- E2, <- E3.
    clear E1 E2 E3 H1 H2.
    apply bind_Raise in H as [H|(msgs & w4 & H4 & H)].
    { eapply (keeps_run (same stored_messages)); [|exact H]. frames. }
    assert (E4 : stored_messages w4 = stored_messages w3).
    { eapply (keeps_run (same stored_messages)); [|exact H4]. frames. }
    rewrite <- E4. clear E4 H4.
    apply bind_Raise in H as [H|(system_prompt & w5 & H5 & H)].
    { unfold lift in H. by injection H as _ <-. }
    assert (E5 : stored_messages w5 = stored_messages w4).
    { unfold lift in H5. by injection H5 as _ <-. }
    rewrite <- E5. clear E5 H5.
    apply bind_Raise in H as [H|(st & w6 & H6 & H)].
    { eapply (keeps_run (same stored_messages)); [|exact H].
      apply retry_loop_messages. }
    assert (E6 : stored_messages w6 = stored_messages w5).
    { eapply (keeps_run (same stored_messages)); [|exact H6].
      apply retry_loop_messages. }
    rewrite <- E6. clear E6 H6.
    apply bind_Raise in H as [H|(final & w7 & H7 & H)].
    { destruct (negb _); [destruct (assistant_draft st)|];
        cbn in H; by injection H as _ <-. }
    assert (E7 : stored_messages w7 = stored_messages w6).
    { destruct (negb _); [destruct (assistant_draft st)|];
        cbn in H7; by injection H7 as _ <-. }
    rewrite <- E7. clear E7 H7.
    apply bind_Raise in H as [H|(reply_id & w8 & H8 & H)].
    { by apply add_message_run in H. }
    exfalso. clear H8.
    apply bind_Raise in H as [H|(dbg & w9 & H9 & H)].
    { unfold pipeline.run_post_chat_pipeline in H.
      by destruct (pipeline.p_try _ _ _ _) as [[? ?] ?]. }
    apply bind_Raise in H as [H|(em & w10 & H10 & H)]; [discriminate|].
    apply bind_Raise in H as [H|(latest & w11 & H11 & H)]; [discriminate|].
    apply bind_Raise in H as [H|(summary & w12 & H12 & H)]; [discriminate|].
    apply bind_Raise in H as [H|(events & w13 & H13 & H)]; [|discriminate].
    unfold tools.run_tools in H.
    destruct (run_tools_from_total (tools.list_tools (TOOLS_REGISTRY E))
                {| tools.ctx_session_id := session_id;
                   tools.ctx_persona := persona;
                   tools.ctx_memory_items := mem;
                   tools.ctx_session_summary := summary;
                   tools.ctx_recent_messages :=
                     slice_from (-10) (map pipeline.to_chat latest);
                   tools.ctx_user_message := message;
                   tools.ctx_assistant_final := final;
                   tools.ctx_ollama_base_url := OLLAMA_BASE_URL E;
                   tools.ctx_ollama_model := OLLAMA_MODEL E |} em [] w12)
      as (evs & wf & Hrun).
    rewrite Hrun in H. discriminate. }
  unfold chat_send_api. intros H.
  apply bind_Raise in H as [H|(s & w1 & H1 & H)]; [discriminate|].
  assert (E1 : stored_messages w1 = stored_messages w).
  { eapply (keeps_run (same stored_messages)); [|exact H1]. frames. }
  rewrite <- E1.
  destruct s as [s|]; [|left; by injection H as _ <-].
  destruct (PERSONAS E !! s_persona_id s) as [[| | | | | |[|]]|];
    first [left; by injection H as _ <- | exact (Hturn _ _ _ H)].
Qed.

(** The corrective context reaches the prompt and nothing else: with a
    backend that answers with the roles of the history it is given, the
    second draft shows the rejected draft and the feedback in the history,
    and the stored conversation holds the user message and that draft. *)
Example corrective_context_stays_in_prompt :
  let E := Demo.env_full true 6 (λ _ history, Ok (join " / " (map role history)))
             (λ n, Ok (Demo.judge_script n)) (λ _, Ok Demo.mx1_script) in
  let out := chat_send_api E "s1" "hello" Demo.world0 in
  map (λ m, (m_role m, m_content m)) (stored_messages out.2)
  = [("user", "hello"); ("assistant", "assistant / system")].
Proof. vm_compute. reflexivity. Qed.

(** One rewrite round, then a pass: the conversation holds the user message
    and the second draft only. *)
Lemma turn_appends_two_messages_witness :
  let E := Demo.env true 6 in
  let out := chat_send_api E "s1" "hello" Demo.world0 in
  ∃ user_id user_at reply_id reply_at text,
    db.bind_text E (JStr "draft 1") = Ok (Some text) ∧
    stored_messages out.2 =
      stored_messages Demo.world0 ++
      [{| m_id := user_id; m_session_id := "s1"; m_role := "user";
          m_content := "hello"; m_created_at := user_at |};
       {| m_id := reply_id; m_session_id := "s1";
          m_role := "assistant"; m_content := text;
          m_created_at := reply_at |}].
Proof.
  intros E out.
  refine (turn_appends_two_messages E "s1" "hello" Demo.world0
            {| r_session_id := "s1"; r_persona_id := "coach";
               r_assistant := JStr "draft 1"; r_verdict := "PASS";
               r_reason := Some ""; r_risk_tags := [];
               r_pipeline :=
                 {| pipeline.dbg_session_id := "s1";
                    pipeline.dbg_msg_count := Some 2%Z;
                    pipeline.dbg_should_update_summary := Some false;
                    pipeline.dbg_memory_items_upserted := 1;
                    pipeline.dbg_summary_updated := false;
                    pipeline.dbg_summary_len := 0;
                    pipeline.dbg_errors := [] |};
               r_tool_events :=
                 [JDict
                    [("type", JStr "alert_created"); ("count", JInt 1);
                     ("items",
                      JList
                        [JDict
                           [("type", JStr "alert_created");
                            ("alert_id", JStr "uuid-3");
                            ("title", JStr "Call mum");
                            ("due_at", JStr "2026-01-02T09:00:00+05:30")]])]]
            |} out.2 _).
  vm_compute. reflexivity.
Defined.

End turn.

(** ** The summary cadence (C3) *)

Section cadence.
Import pipeline.

Lemma bindP_run {A B} (m : P A) (k : A -> P B) dbg w :
  (m ≫= k) dbg w =
  match m dbg w with
  | (Ok a, dbg', w') => k a dbg' w'
  | (Raise e, dbg', w') => (Raise e, dbg', w')
  end.
Proof. reflexivity. Qed.

Lemma upsert_session_summary_run E session_id summary open_loops w :
  ∃ w',
    db.upsert_session_summary E session_id summary open_loops w = (Ok tt, w')
    ∧ stored_messages w' = stored_messages w
    ∧ summary_written E session_id w' summary.
Proof.
  unfold db.upsert_session_summary.
  do 2 (rewrite bind_run; cbn [db._utc_now get_db w_db]).
  destruct (session_summaries (w_db w) !! session_id) as [old|] eqn:Hold;
    eexists; (split; [reflexivity|]); (split; [reflexivity|]);
    unfold summary_written, stored_summaries; cbn.
  - eexists _, _. rewrite lookup_alter, decide_True by reflexivity.
    rewrite Hold. cbn. eauto.
  - eexists _, _. rewrite lookup_insert_eq. eauto.
Qed.

Lemma fallback_nonempty recent n : _fallback_summary_from_recent recent n ≠ "".
Proof. destruct recent; discriminate. Qed.

Lemma extract_mx1_run E persona ss recent thr allow w :
  ∃ w',
    memory_extractor.extract_mx1 E persona ss recent thr allow w =
      (match mx1_backend E (mx1_calls w) persona ss recent allow with
       | Ok raw =>
           match as_dict (py_or (default JNull
                                   (memory_extractor._extract_json_object E raw))
                            (JDict [])) with
           | Ok data =>
               Ok (memory_extractor.validate_mx1_output E data thr
                     (if allow then ["global"; "session"] else ["session"]),
                   raw)
           | Raise e => Raise e
           end
       | Raise e => Raise e
       end, w')
    ∧ w_db w' = w_db w.
Proof.
  unfold memory_extractor.extract_mx1.
  exists {| w_db := w_db w; uuid_calls := uuid_calls w;
            clock_calls := clock_calls w; chat_calls := chat_calls w;
            judge_calls := judge_calls w; mx1_calls := S (mx1_calls w);
            alert_calls := alert_calls w |}.
  split; [|reflexivity].
  destruct (mx1_backend E _ _ _ _ _) as [raw|e]; [|reflexivity].
  destruct (as_dict _) as [data|e]; [|reflexivity].
  by destruct (memory_extractor.validate_mx1_output _ _ _ _).
Qed.

Lemma count_messages_run session_id w :
  db.count_messages session_id w = (Ok (message_count session_id w), w).
Proof. reflexivity. Qed.

Lemma get_session_summary_run session_id w :
  db.get_session_summary session_id w =
  (Ok (session_summaries (w_db w) !! session_id), w).
Proof. reflexivity. Qed.

Lemma py_mod_nonzero a b : b ≠ 0%Z -> py_mod a b = Ok (a mod b)%Z.
Proof. intros Hb. unfold py_mod. by rewrite (proj2 (Z.eqb_neq b 0) Hb). Qed.

Lemma pipeline_body_run E session_id persona dbg w :
  SUMMARY_CADENCE E ≠ 0%Z ->
  let n := message_count session_id w in
  let on := (n mod SUMMARY_CADENCE E =? 0)%Z in
  ∃ r dbg' w',
    pipeline_body E session_id persona dbg w = (r, dbg', w') ∧
    stored_messages w' = stored_messages w ∧
    match r with
    | Raise _ =>
        stored_summaries w' = stored_summaries w ∧
        dbg_summary_updated dbg' = dbg_summary_updated dbg
    | Ok _ =>
        if on then
          dbg_summary_updated dbg' = true ∧
          ∃ text,
            summary_written E session_id w' text ∧ text ≠ "" ∧
            dbg_summary_len dbg' = String.length text ∧
            (text = _fallback_summary_from_recent
                      (context_of E session_id w) n
             ∨ extracted_summary E session_id persona w = Some text)
        else
          stored_summaries w' = stored_summaries w ∧
          dbg_summary_updated dbg' = dbg_summary_updated dbg
    end.
Proof.
  intros Hc n on. unfold pipeline_body.
  rewrite bindP_run. unfold call at 1.
  rewrite get_messages_run by reflexivity.
  cbv beta iota zeta.
  rewrite bindP_run. unfold call at 1. rewrite count_messages_run.
  cbv beta iota zeta.
  rewrite bindP_run. unfold call at 1, lift at 1.
  rewrite (py_mod_nonzero _ _ Hc). cbv beta iota zeta.
  rewrite bindP_run. unfold update_debug at 1. cbv beta iota zeta.
  rewrite bindP_run. unfold call at 1. rewrite get_session_summary_run.
  cbv beta iota zeta.
  rewrite bindP_run. unfold call at 1.
  destruct (extract_mx1_run E persona
              ((λ r, (ss_summary r, ss_open_loops r))
                 <$> session_summaries (w_db w) !! session_id)
              (context_of E session_id w) (MX1_CONFIDENCE_THRESHOLD E)
              (ALLOW_GLOBAL_WRITE E) w) as (w1 & Hrun & Hdb1).
  unfold context_of in Hrun. rewrite Hrun. clear Hrun.
  assert (Hm1 : stored_messages w1 = stored_messages w)
    by (unfold stored_messages; by rewrite Hdb1).
  assert (Hs1 : stored_summaries w1 = stored_summaries w)
    by (unfold stored_summaries; by rewrite Hdb1).
  unfold extracted_summary, context_of.
  destruct (mx1_backend E _ _ _ _ _) as [raw|e]; cbv beta iota zeta;
    [|by eexists _, _, _].
  destruct (as_dict _) as [data|e]; cbv beta iota zeta;
    [|by eexists _, _, _].
  destruct (memory_extractor.validate_mx1_output _ _ _ _) as [items patch].
  cbn [snd]. rewrite bindP_run. unfold call at 1.
  pose proof (keeps_upsert_items stored_messages E
                (upsert_memory_item_messages E) session_id items 0 w1) as Hm2.
  pose proof (keeps_upsert_items stored_summaries E
                (upsert_memory_item_summaries E) session_id items 0 w1) as Hs2.
  destruct (upsert_items E session_id items 0 w1) as [[k|e] w2];
    unfold same in Hm2, Hs2; cbn [snd] in Hm2, Hs2;
    cbv beta iota zeta;
    [|eexists _, _, _; split; [reflexivity|]; split; [congruence|];
      split; [congruence|reflexivity]].
  rewrite bindP_run. unfold update_debug at 1. cbv beta iota zeta.
  fold n. fold on. destruct on.
  - destruct (negb (strip (memory_extractor.sp_summary patch) =? "")%string)
      eqn:Hne.
    + rewrite bindP_run. unfold call at 1.
      destruct (upsert_session_summary_run E session_id
                  (strip (memory_extractor.sp_summary patch))
                  (memory_extractor.sp_open_loops patch) w2)
        as (w3 & -> & Hm3 & Hw3).
      cbv beta iota zeta. eexists _, _, _. split; [reflexivity|].
      split; [congruence|]. split; [reflexivity|].
      eexists. split; [exact Hw3|]. split.
      * intros Heq. rewrite Heq in Hne. discriminate.
      * split; [reflexivity | by right].
    + rewrite bindP_run. unfold call at 1.
      destruct (upsert_session_summary_run E session_id
                  (_fallback_summary_from_recent
                     (recent_context E
                        (db.sql_limit 50
                           (db.order_by db.created_asc
                              (db.session_messages session_id (w_db w))))) n)
                  (memory_extractor.sp_open_loops patch) w2)
        as (w3 & -> & Hm3 & Hw3).
      cbv beta iota zeta. eexists _, _, _. split; [reflexivity|].
      split; [congruence|]. split; [reflexivity|].
      eexists. split; [exact Hw3|]. split; [apply fallback_nonempty|].
      split; [reflexivity | by left].
  - eexists _, _, _. split; [reflexivity|]. split; [congruence|].
    split; [congruence|reflexivity].
Qed.

Lemma emergency_body_run E session_id dbg w :
  SUMMARY_CADENCE E ≠ 0%Z ->
  let n := message_count session_id w in
  ∃ dbg' w',
    emergency_body E session_id dbg w = (Ok tt, dbg', w') ∧
    if (n mod SUMMARY_CADENCE E =? 0)%Z then
      dbg_summary_updated dbg' = true ∧
      summary_written E session_id w' (emergency_summary n) ∧
      dbg_summary_len dbg' = String.length (emergency_summary n)
    else
      stored_summaries w' = stored_summaries w ∧
      dbg_summary_updated dbg' = dbg_summary_updated dbg.
Proof.
  intros Hc n. unfold emergency_body.
  rewrite bindP_run. unfold call at 1. rewrite count_messages_run.
  cbv beta iota zeta.
  rewrite bindP_run. unfold call at 1, lift at 1.
  rewrite (py_mod_nonzero _ _ Hc). cbv beta iota zeta.
  fold n. destruct (n mod SUMMARY_CADENCE E =? 0)%Z.
  - rewrite bindP_run. unfold call at 1.
    destruct (upsert_session_summary_run E session_id (emergency_summary n)
                [] w) as (w3 & Hrun & Hm3 & Hw3).
    unfold emergency_summary in Hrun. rewrite Hrun.
    cbv beta iota zeta. eexists _, _. split; [reflexivity|].
    split; [reflexivity|]. split; [exact Hw3|reflexivity].
  - eexists _, _. split; [reflexivity|]. by split.
Qed.

Lemma message_count_stored session_id w w' :
  stored_messages w' = stored_messages w ->
  message_count session_id w' = message_count session_id w.
Proof.
  unfold stored_messages, message_count, db.session_messages. by intros ->.
Qed.

(** C3: with a cadence other than 0, a run of the post-chat pipeline
    reports a summary update exactly when the persisted message count is a
    multiple of the cadence.  Off cadence the summaries table is left as it
    was, whatever patch MX1 produced.  On cadence the session's row is
    written in this run with a non-empty text: the extracted summary, the
    deterministic fallback, or the emergency summary. *)
Theorem summary_written_iff_on_cadence E session_id persona w :
  SUMMARY_CADENCE E ≠ 0%Z ->
  let n := message_count session_id w in
  ∃ dbg w',
    run_post_chat_pipeline E session_id persona w = (Ok dbg, w') ∧
    (dbg_summary_updated dbg = true <-> (n mod SUMMARY_CADENCE E = 0)%Z) ∧
    ((n mod SUMMARY_CADENCE E ≠ 0)%Z ->
     stored_summaries w' = stored_summaries w) ∧
    ((n mod SUMMARY_CADENCE E = 0)%Z ->
     ∃ text,
       summary_written E session_id w' text ∧ text ≠ "" ∧
       dbg_summary_len dbg = String.length text ∧
       (extracted_summary E session_id persona w = Some text
        ∨ text = _fallback_summary_from_recent (context_of E session_id w) n
        ∨ text = emergency_summary n)).
Proof.
  intros Hc n. unfold run_post_chat_pipeline, p_try.
  set (dbg0 := {| dbg_session_id := session_id; dbg_msg_count := None;
                  dbg_should_update_summary := None;
                  dbg_memory_items_upserted := 0;
                  dbg_summary_updated := false; dbg_summary_len := 0;
                  dbg_errors := [] |}).
  destruct (pipeline_body_run E session_id persona dbg0 w Hc)
    as (r & dbg1 & w1 & -> & Hm1 & Hr).
  fold n in Hr. destruct r as [[]|e].
  - exists dbg1, w1. split; [reflexivity|].
    destruct (n mod SUMMARY_CADENCE E =? 0)%Z eqn:Hon.
    + apply Z.eqb_eq in Hon. destruct Hr as (Hup & text & Hw & Hne & Hlen & Hk).
      split; [by split|]. split; [by intros []|].
      intros _. exists text. repeat split; try assumption.
      destruct Hk as [->|Hk]; auto.
    + apply Z.eqb_neq in Hon. destruct Hr as (Hs & Hup).
      split; [|split]; [|done|done].
      rewrite Hup. cbn. split; [discriminate | done].
  - destruct Hr as (Hs1 & Hup1).
    rewrite bindP_run. unfold update_debug at 1. cbv beta iota zeta.
    destruct (emergency_body_run E session_id
                (add_error ("pipeline_error: " +:+ exn_str e) dbg1) w1 Hc)
      as (dbg2 & w2 & -> & Hr).
    rewrite (message_count_stored _ _ _ Hm1) in Hr. fold n in Hr.
    exists dbg2, w2. split; [reflexivity|].
    destruct (n mod SUMMARY_CADENCE E =? 0)%Z eqn:Hon.
    + apply Z.eqb_eq in Hon. destruct Hr as (Hup & Hw & Hlen).
      split; [by split|]. split; [by intros []|].
      intros _. exists (emergency_summary n).
      repeat split; try assumption; [discriminate | auto].
    + apply Z.eqb_neq in Hon. destruct Hr as (Hs & Hup).
      split; [|split]; [| intros _; congruence | done].
      rewrite Hup. cbn. rewrite Hup1. cbn. split; [discriminate | done].
Qed.

(** With a cadence of 0 the modulo raises in the pipeline and again in its
    emergency path: no summary is written, and both errors are reported. *)
Example cadence_zero_writes_nothing :
  let E := Demo.env true 0 in
  let w := Demo.world_with (Demo.conversation 6) in
  let out := run_post_chat_pipeline E "s1" Demo.coach w in
  stored_summaries out.2 = stored_summaries w ∧
  match out.1 with Ok dbg => dbg_errors dbg | Raise _ => [] end =
  ["pipeline_error: integer modulo by zero";
   "emergency_summary_failed: integer modulo by zero"].
Proof. split; vm_compute; reflexivity. Qed.

(** At six messages with cadence 6, an extraction that returns no summary
    leaves the deterministic fallback as the stored summary. *)
Example empty_extraction_writes_fallback :
  let E := Demo.env_with true 6 (λ n, Ok (Demo.judge_script n))
             (λ _, Ok "{}") in
  let w := Demo.world_with (Demo.conversation 6) in
  ss_summary <$>
    stored_summaries (run_post_chat_pipeline E "s1" Demo.coach w).2 !! "s1"
  = Some ("Session with 6 messages. Recent: user: message 3 | "
          +:+ "assistant: message 4 | user: message 5").
Proof. vm_compute. reflexivity. Qed.

Lemma summary_written_iff_on_cadence_witness :
  let E := Demo.env true 3 in
  let w := Demo.world_with (Demo.conversation 6) in
  ∃ dbg w',
    run_post_chat_pipeline E "s1" Demo.coach w = (Ok dbg, w') ∧
    (dbg_summary_updated dbg = true <-> (6 mod 3 = 0)%Z) ∧
    ((6 mod 3 ≠ 0)%Z -> stored_summaries w' = stored_summaries w) ∧
    ((6 mod 3 = 0)%Z ->
     ∃ text,
       summary_written E "s1" w' text ∧ text ≠ "" ∧
       dbg_summary_len dbg = String.length text ∧
       (extracted_summary E "s1" Demo.coach w = Some text
        ∨ text = _fallback_summary_from_recent (context_of E "s1" w) 6
        ∨ text = emergency_summary 6)).
Proof.
  intros E w.
  apply (summary_written_iff_on_cadence E "s1" Demo.coach w).
  discriminate.
Defined.

End cadence.

(* ===================================================================== *)
(** * Further properties of the persistence layer *)
(* ===================================================================== *)

Section messages.

Import db.

(** X1: a stored message counts for its own session only: a successful
    [add_message] raises the message count of its session by one and leaves
    the count of every other session as it was. *)
Theorem add_message_counts_one E session_id role content w msg_id w' sid :
  db.add_message E session_id role content w = (Ok msg_id, w') ->
  message_count sid w' =
  (message_count sid w + if decide (sid = session_id) then 1 else 0)%Z.
Proof.
  intros H. apply add_message_run in H as (text & now & _ & Hm).
  unfold message_count, session_messages.
  unfold stored_messages in Hm. rewrite Hm, filter_app, length_app.
  rewrite filter_cons, filter_nil. cbn [m_session_id].
  destruct (decide (sid = session_id)) as [->|Hne].
  - rewrite decide_True by apply String.eqb_refl. cbn [length]. lia.
  - rewrite decide_False.
    + cbn [length]. lia.
    + rewrite String.eqb_sym. intros Heq%String.eqb_eq. by destruct Hne.
Qed.

Lemma add_message_counts_one_witness :
  let E := Demo.env true 6 in
  message_count "s1" (db.add_message E "s1" "user" (JStr "hello") Demo.world0).2
  = (message_count "s1" Demo.world0 + 1)%Z.
Proof.
  refine (add_message_counts_one (Demo.env true 6) "s1" "user" (JStr "hello")
            Demo.world0 "uuid-0"
            (db.add_message (Demo.env true 6) "s1" "user" (JStr "hello")
               Demo.world0).2 "s1" _).
  reflexivity.
Defined.

#[local] Instance wf_after_preorder : PreOrder wf_after.
Proof. split; [by intros ? ?|]. intros a b c Hab Hbc H. by apply Hbc, Hab. Qed.

Lemma keeps_wf_of_same {A} (m : M A) :
  keeps (same stored_messages) m -> keeps wf_after m.
Proof. intros H w. unfold wf_after, messages_wf. by rewrite (H w). Qed.

Lemma add_message_fresh E session_id role content w msg_id w' :
  db.add_message E session_id role content w = (Ok msg_id, w') ->
  (msg_id ∉ map m_id (stored_messages w))
  ∧ (role = "user" ∨ role = "assistant").
Proof.
  unfold db.add_message, stored_messages. intros H.
  do 2 (rewrite bind_run in H; cbn [db.new_uuid db._utc_now] in H).
  rewrite bind_run in H. unfold lift at 1 in H.
  destruct (db.bind_text E content) as [[text|]|e]; [| |discriminate].
  - rewrite bind_run in H. cbn [get_db w_db] in H.
    destruct (String.eqb role "user" || String.eqb role "assistant")
      eqn:Hrole; cbn [negb] in H; [|discriminate].
    destruct (existsb _ _) eqn:Hex; [discriminate|].
    rewrite bind_run in H. cbn in H. injection H as <- _. split.
    + intros (r & Hid & Hr)%list_elem_of_In%in_map_iff.
      assert (existsb (λ r, String.eqb (m_id r) (uuid4 E (uuid_calls w)))
                (messages (w_db w)) = true) as Hex'.
      { apply existsb_exists. exists r. split; [done|].
        rewrite Hid. apply String.eqb_refl. }
      congruence.
    + apply orb_true_iff in Hrole as [?%String.eqb_eq|?%String.eqb_eq]; eauto.
  - rewrite bind_run in H. cbn in H. discriminate.
Qed.

Lemma add_message_wf E session_id role content :
  keeps wf_after (db.add_message E session_id role content).
Proof.
  intros w [Hids Hroles].
  destruct (db.add_message E session_id role content w) as [[msg_id|e] w']
    eqn:H; cbn [snd].
  - pose proof (add_message_fresh _ _ _ _ _ _ _ H) as [Hfresh Hrole].
    apply add_message_run in H as (text & now & _ & Hm).
    unfold messages_wf. rewrite Hm. split.
    + rewrite map_app. apply NoDup_app. split; [done|]. split.
      * intros x Hx [<-|[]]%list_elem_of_In. by destruct Hfresh.
      * apply NoDup_singleton.
    + apply Forall_app. split; [done|]. by apply Forall_singleton.
  - apply add_message_run in H. unfold messages_wf. by rewrite H.
Qed.

#[local] Hint Resolve pipeline_drafts pipeline_messages run_tools_drafts
  run_tools_messages ollama_chat_messages keeps_run_judge keeps_read_memory
  retry_loop_messages : frames.

Ltac wf_frames :=
  repeat first
    [ apply add_message_wf
    | apply keeps_wf_of_same; solve [frames]
    | keeps_step; try match goal with |- PreOrder _ => apply _ end ].

(** X2: whatever a request to [/chat/send] does, and whether it answers or
    fails, it leaves the [messages] table as the schema wants it: ids stay
    unique, and every stored role is [user] or [assistant]. *)
Theorem chat_send_keeps_messages_wellformed E session_id message w :
  messages_wf w ->
  messages_wf (main.chat_send_api E session_id message w).2.
Proof.
  revert w. change (keeps wf_after (main.chat_send_api E session_id message)).
  unfold main.chat_send_api, main.chat_turn. wf_frames.
Qed.

Lemma chat_send_keeps_messages_wellformed_witness :
  messages_wf
    (main.chat_send_api (Demo.env true 6) "s1" "hello" Demo.world0).2.
Proof.
  apply (chat_send_keeps_messages_wellformed (Demo.env true 6) "s1" "hello"
           Demo.world0).
  split; [apply NoDup_nil_2 | apply Forall_nil_2].
Defined.

End messages.

Section summaries.

(** X3: insert, then look up: after [upsert_session_summary] the session
    reads back the summary and the open loops it was given, stamped with the
    time of the write, whether it had a summary before or not; the summary
    of every other session is as it was. *)
Theorem summary_round_trip E session_id summary open_loops w sid :
  let w' := (db.upsert_session_summary E session_id summary open_loops w).2 in
  (db.get_session_summary sid w').1 =
  Ok (if decide (sid = session_id)
      then Some {| ss_summary := summary; ss_open_loops := open_loops;
                   ss_updated_at := now_of E w |}
      else session_summaries (w_db w) !! sid).
Proof.
  cbv zeta. rewrite get_session_summary_run. cbn [fst]. f_equal.
  unfold db.upsert_session_summary, now_of.
  rewrite bind_run. cbn [db._utc_now]. rewrite bind_run. cbn [get_db w_db].
  destruct (session_summaries (w_db w) !! session_id) as [old|] eqn:Hold;
    cbn [put_db snd w_db set_db db.set_session_summaries session_summaries].
  - destruct (decide (sid = session_id)) as [->|Hne].
    + by rewrite lookup_alter_eq, Hold.
    + by rewrite lookup_alter_ne.
  - destruct (decide (sid = session_id)) as [->|Hne].
    + by rewrite lookup_insert_eq.
    + by rewrite lookup_insert_ne.
Qed.

End summaries.

Section memory_items.

Import db.

Lemma filter_comm {A} (P Q : A -> Prop) `{!∀ x, Decision (P x)}
    `{!∀ x, Decision (Q x)} (l : list A) :
  filter P (filter Q l) = filter Q (filter P l).
Proof.
  induction l as [|x l IH]; [reflexivity|].
  rewrite !(filter_cons _ x).
  destruct (decide (Q x)), (decide (P x));
    rewrite ?filter_cons, ?decide_True, ?decide_False by assumption;
    by rewrite IH.
Qed.

(** The row a completed upsert leaves for its triple. *)
Lemma upserted_row E scope key value conf session_id src w mem_id w' :
  (length (rows_for scope session_id key (w_db w)) <= 1)%nat ->
  upsert_memory_item E scope key value conf session_id src w = (Ok mem_id, w') ->
  ∃ row, rows_for scope session_id key (w_db w') = [row]
         ∧ mi_id row = mem_id ∧ mi_value row = value
         ∧ mi_confidence row = conf.
Proof.
  intros Hone Hrun.
  destruct (upsert_memory_item_run _ _ _ _ _ _ _ _ _ _ Hrun) as (now & Hspec).
  unfold rows_for in *.
  destruct (filter _ (memory_items (w_db w))) as [|row rest] eqn:Hf;
    cbn [head] in Hspec.
  - rewrite Hspec, filter_app, Hf, filter_cons, filter_nil.
    rewrite decide_True.
    + eexists. split; [reflexivity|]. by cbn.
    + apply (memory_match_self {| mi_id := mem_id; mi_scope := scope;
                                  mi_session_id := session_id; mi_key := key;
                                  mi_value := value; mi_confidence := conf;
                                  mi_source_message_id := src;
                                  mi_created_at := now;
                                  mi_updated_at := now |}).
  - destruct Hspec as [-> Hspec]. rewrite Hspec.
    rewrite filter_map_stable.
    2:{ intros r. destruct (String.eqb (mi_id r) (mi_id row)); done. }
    rewrite Hf. destruct rest as [|? ?]; [|cbn in Hone; lia].
    cbn [map]. rewrite String.eqb_refl.
    eexists. split; [reflexivity|]. by cbn.
Qed.

(** X4: upsert, then delete: deleting the id an upsert returned answers, and
    leaves the triple of the upsert without a row; a second delete of the
    same id is answered with 404. *)
Theorem delete_removes_upserted E scope key value conf session_id src
    w mem_id w1 :
  (length (rows_for scope session_id key (w_db w)) <= 1)%nat ->
  db.upsert_memory_item E scope key value conf session_id src w
    = (Ok mem_id, w1) ->
  ∃ w2,
    main.delete_memory_api mem_id w1 = (Ok tt, w2) ∧
    rows_for scope session_id key (w_db w2) = [] ∧
    (main.delete_memory_api mem_id w2).1 =
      Raise (HTTPException 404 "Memory item not found").
Proof.
  intros Hone Hrun.
  destruct (upserted_row _ _ _ _ _ _ _ _ _ _ Hone Hrun)
    as (row & Hrows & Hid & _).
  assert (Hin : row ∈ memory_items (w_db w1)).
  { assert (row ∈ rows_for scope session_id key (w_db w1)) as Hr
      by (rewrite Hrows; apply list_elem_of_singleton; reflexivity).
    unfold rows_for in Hr. by apply list_elem_of_filter in Hr as [_ ?]. }
  assert (Hex : existsb (λ r, String.eqb (mi_id r) mem_id)
                  (memory_items (w_db w1)) = true).
  { apply existsb_exists. exists row. split; [by apply list_elem_of_In|].
    rewrite Hid. apply String.eqb_refl. }
  set (w2 := set_db (set_memory_items
                       (filter (λ r, String.eqb (mi_id r) mem_id = false)
                          (memory_items (w_db w1))) (w_db w1)) w1).
  assert (Hgone : existsb (λ r, String.eqb (mi_id r) mem_id)
                    (memory_items (w_db w2)) = false).
  { apply not_true_iff_false. intros (r & Hr & Heq)%existsb_exists.
    apply list_elem_of_In in Hr. subst w2. cbn in Hr.
    apply list_elem_of_filter in Hr as [Hr _]. congruence. }
  exists w2. split; [|split].
  - unfold main.delete_memory_api, delete_memory_item.
    rewrite !bind_run. cbn [get_db w_db]. rewrite bind_run.
    cbn [put_db]. rewrite Hex. reflexivity.
  - unfold rows_for. subst w2. cbn [w_db set_db set_memory_items memory_items].
    rewrite filter_comm. fold (rows_for scope session_id key (w_db w1)).
    rewrite Hrows, filter_cons, filter_nil. rewrite decide_False; [reflexivity|].
    rewrite Hid, String.eqb_refl. discriminate.
  - unfold main.delete_memory_api, delete_memory_item.
    rewrite !bind_run. cbn [get_db]. rewrite bind_run. cbn [put_db].
    rewrite Hgone. reflexivity.
Qed.

Lemma delete_removes_upserted_witness :
  let E := Demo.env true 6 in
  let w1 := (upsert_memory_item E "session" "pet_name" "Milo" 0.9%float
               (Some "s1") None Demo.world0).2 in
  ∃ w2,
    main.delete_memory_api "uuid-0" w1 = (Ok tt, w2) ∧
    rows_for "session" (Some "s1") "pet_name" (w_db w2) = [] ∧
    (main.delete_memory_api "uuid-0" w2).1 =
      Raise (HTTPException 404 "Memory item not found").
Proof.
  refine (delete_removes_upserted (Demo.env true 6) "session" "pet_name"
            "Milo" 0.9%float (Some "s1") None Demo.world0 "uuid-0"
            (upsert_memory_item (Demo.env true 6) "session" "pet_name" "Milo"
               0.9%float (Some "s1") None Demo.world0).2 _ _).
  - cbn. lia.
  - reflexivity.
Defined.

Lemma NoDup_map_eq {A B} (f : A -> B) (l : list A) x y :
  NoDup (map f l) -> x ∈ l -> y ∈ l -> f x = f y -> x = y.
Proof.
  induction l as [|a l IH]; cbn [map]; [by intros _ ?%elem_of_nil|].
  intros [Ha Hl]%NoDup_cons [->|Hx]%elem_of_cons [->|Hy]%elem_of_cons Hf;
    [reflexivity| | |by apply IH].
  - destruct Ha. rewrite Hf. apply list_elem_of_In, in_map.
    by apply list_elem_of_In.
  - destruct Ha. rewrite <- Hf. apply list_elem_of_In, in_map.
    by apply list_elem_of_In.
Qed.

Lemma filter_map_fixed {A} (P : A -> Prop) `{!∀ x, Decision (P x)}
    (g : A -> A) (l : list A) :
  (∀ x, x ∈ l -> g x = x ∨ (¬ P x ∧ ¬ P (g x))) ->
  filter P (map g l) = filter P l.
Proof.
  induction l as [|a l IH]; [reflexivity|]. intros Hg.
  cbn [map]. rewrite !filter_cons.
  rewrite IH by (intros x Hx; apply Hg; by right).
  destruct (Hg a) as [->|[Hn Hn']]; [by left|reflexivity|].
  by rewrite !decide_False.
Qed.

Lemma upsert_memory_item_fresh E scope key value conf session_id src
    w mem_id w' :
  upsert_memory_item E scope key value conf session_id src w = (Ok mem_id, w') ->
  rows_for scope session_id key (w_db w) = [] ->
  mem_id ∉ map mi_id (memory_items (w_db w)).
Proof.
  unfold upsert_memory_item, rows_for, fetchone. intros H Hnone.
  do 3 (rewrite bind_run in H; cbn [new_uuid _utc_now get_db w_db] in H).
  rewrite Hnone in H. cbn [head] in H.
  destruct (negb _); [discriminate|].
  destruct (PrimFloat.is_nan conf); [discriminate|].
  destruct (existsb _ _) eqn:Hex; [discriminate|].
  rewrite bind_run in H. cbn in H. injection H as <- _.
  intros (r & Hid & Hr)%list_elem_of_In%in_map_iff.
  assert (existsb (λ r, String.eqb (mi_id r) (uuid4 E (uuid_calls w)))
            (memory_items (w_db w)) = true) as Hex'.
  { apply existsb_exists. exists r. split; [done|].
    rewrite Hid. apply String.eqb_refl. }
  congruence.
Qed.

(** X5: with ids that are unique, a completed upsert touches its own triple
    only: the rows of every other (scope, session_id, key) are the same rows
    in the same order afterwards, and the ids are still unique. *)
Theorem upsert_touches_one_key E scope key value conf session_id src
    w mem_id w' :
  memory_ids_unique (w_db w) ->
  db.upsert_memory_item E scope key value conf session_id src w
    = (Ok mem_id, w') ->
  memory_ids_unique (w_db w') ∧
  rows_outside scope session_id key (w_db w') =
  rows_outside scope session_id key (w_db w).
Proof.
  intros Hids Hrun.
  destruct (upsert_memory_item_run _ _ _ _ _ _ _ _ _ _ Hrun) as (now & Hspec).
  pose proof (upsert_memory_item_fresh _ _ _ _ _ _ _ _ _ _ Hrun) as Hfresh.
  unfold memory_ids_unique, rows_outside, rows_for in *.
  destruct (filter _ (memory_items (w_db w))) as [|row rest] eqn:Hf;
    cbn [head] in Hspec.
  - rewrite Hspec. split.
    + rewrite map_app. apply NoDup_app. split; [done|]. split.
      * intros x Hx [<-|[]]%list_elem_of_In. by apply Hfresh.
      * apply NoDup_singleton.
    + rewrite filter_app, filter_cons, filter_nil.
      rewrite decide_False; [by rewrite app_nil_r|].
      pose proof (memory_match_self
                    {| mi_id := mem_id; mi_scope := scope;
                       mi_session_id := session_id; mi_key := key;
                       mi_value := value; mi_confidence := conf;
                       mi_source_message_id := src;
                       mi_created_at := now; mi_updated_at := now |}) as Hs.
      cbn [mi_scope mi_key mi_session_id] in Hs. congruence.
  - destruct Hspec as [_ Hspec]. rewrite Hspec.
    assert (Hrow : memory_match scope key session_id row = true
                   ∧ row ∈ memory_items (w_db w)).
    { apply (list_elem_of_filter
               (λ r, memory_match scope key session_id r = true)).
      rewrite Hf. by left. }
    destruct Hrow as [Hmatch Hrow]. split.
    + rewrite map_map. erewrite map_ext; [exact Hids|].
      intros r. by destruct (String.eqb (mi_id r) (mi_id row)).
    + apply filter_map_fixed. intros r Hr.
      destruct (String.eqb (mi_id r) (mi_id row)) eqn:Heq; [|by left].
      apply String.eqb_eq in Heq.
      rewrite (NoDup_map_eq mi_id _ r row Hids Hr Hrow Heq).
      right. rewrite memory_match_update, Hmatch. split; discriminate.
Qed.

Lemma upsert_touches_one_key_witness :
  let E := Demo.env true 6 in
  let w1 := (upsert_memory_item E "session" "pet_name" "Milo" 0.9%float
               (Some "s1") None Demo.world0).2 in
  let w2 := (upsert_memory_item E "global" "city" "Pune" 0.9%float
               None None w1).2 in
  memory_ids_unique (w_db w2) ∧
  rows_outside "global" None "city" (w_db w2) =
  rows_outside "global" None "city" (w_db w1).
Proof.
  refine (upsert_touches_one_key (Demo.env true 6) "global" "city" "Pune"
            0.9%float None None
            (upsert_memory_item (Demo.env true 6) "session" "pet_name" "Milo"
               0.9%float (Some "s1") None Demo.world0).2
            "uuid-1"
            (upsert_memory_item (Demo.env true 6) "global" "city" "Pune"
               0.9%float None None
               (upsert_memory_item (Demo.env true 6) "session" "pet_name"
                  "Milo" 0.9%float (Some "s1") None Demo.world0).2).2 _ _).
  - apply NoDup_cons. split; [cbn; by intros ?%elem_of_nil | apply NoDup_nil_2].
  - reflexivity.
Defined.

End memory_items.

Section listings.

Import db.

Lemma insert_by_Permutation {A} (le : A -> A -> bool) x l :
  insert_by le x l ≡ₚ x :: l.
Proof.
  induction l as [|y l IH]; cbn [insert_by]; [reflexivity|].
  destruct (le x y); [reflexivity|]. rewrite IH. apply Permutation_swap.
Qed.

Lemma order_by_Permutation {A} (le : A -> A -> bool) l : order_by le l ≡ₚ l.
Proof.
  induction l as [|x l IH]; [reflexivity|].
  unfold order_by in *. cbn [foldr].
  rewrite insert_by_Permutation. by rewrite IH.
Qed.

Lemma insert_by_sorted {A} (le : A -> A -> bool) x l :
  (∀ a b, le a b = false -> le b a = true) ->
  sorted_by le l -> sorted_by le (insert_by le x l).
Proof.
  intros Htot. induction l as [|y l IH]; [by cbn|].
  intros [Hy Hl]. cbn [insert_by].
  destruct (le x y) eqn:Hxy; [by cbn|].
  specialize (IH Hl). split; [|exact IH].
  destruct l as [|z l]; cbn [insert_by].
  - by apply Htot.
  - destruct (le x z); [by apply Htot | exact Hy].
Qed.

Lemma order_by_sorted {A} (le : A -> A -> bool) l :
  (∀ a b, le a b = false -> le b a = true) -> sorted_by le (order_by le l).
Proof.
  intros Htot. induction l as [|x l IH]; [by cbn|].
  unfold order_by in *. cbn [foldr]. by apply insert_by_sorted.
Qed.

Lemma take_sorted {A} (le : A -> A -> bool) n l :
  sorted_by le l -> sorted_by le (take n l).
Proof.
  revert n. induction l as [|x l IH]; intros [|n]; cbn [take]; try done.
  intros [Hx Hl]. split; [|by apply IH].
  destruct l as [|y l]; [by destruct n|]. by destruct n.
Qed.

Lemma sql_limit_sorted {A} (le : A -> A -> bool) n l :
  sorted_by le l -> sorted_by le (sql_limit n l).
Proof. unfold sql_limit. destruct (n <? 0)%Z; [done | apply take_sorted]. Qed.

Lemma sql_limit_subseteq {A} n (l : list A) x : x ∈ sql_limit n l -> x ∈ l.
Proof.
  unfold sql_limit. destruct (n <? 0)%Z; [done|].
  intros Hx. apply (subseteq_take (Z.to_nat n) l x Hx).
Qed.

Lemma sql_limit_length {A} n (l : list A) :
  (0 <= n)%Z -> (Z.of_nat (length (sql_limit n l)) <= n)%Z.
Proof.
  intros Hn. unfold sql_limit.
  destruct (Z.ltb_spec n 0); [lia|]. rewrite length_take. lia.
Qed.

Lemma sql_limit_all {A} n (l : list A) :
  (n < 0 ∨ Z.of_nat (length l) <= n)%Z -> sql_limit n l = l.
Proof.
  intros Hn. unfold sql_limit.
  destruct (Z.ltb_spec n 0); [done|]. apply take_ge. lia.
Qed.

Lemma string_leb_false a b : String.leb a b = false -> String.leb b a = true.
Proof. destruct (String.leb_total a b) as [H|H]; [congruence | done]. Qed.

Lemma in_int64_spec z : in_int64 z = true <-> int64 z.
Proof.
  unfold in_int64, int64. rewrite andb_true_iff, Z.leb_le, Z.ltb_lt. tauto.
Qed.

Lemma bind_int_run z w :
  bind_int z w = if in_int64 z then (Ok z, w) else (Raise overflow, w).
Proof. unfold bind_int. by destruct (in_int64 z). Qed.

Lemma bind_int_bind {A} z (k : Z -> M A) w :
  (bind_int z ≫= k) w = if in_int64 z then k z w else (Raise overflow, w).
Proof. rewrite bind_run, bind_int_run. by destruct (in_int64 z). Qed.

Lemma in_int64_false z : ¬ int64 z -> in_int64 z = false.
Proof.
  intros Hn. destruct (in_int64 z) eqn:H; [|done].
  by apply in_int64_spec in H.
Qed.

Lemma in_int64_true z : int64 z -> in_int64 z = true.
Proof. apply in_int64_spec. Qed.

(** X6: [get_messages] writes nothing.  With a limit that fits 64 bits it
    answers with messages of the session it was asked for, no more than
    [limit] of them when [limit] is not negative, in the order of their
    [created_at], and with all of them when they fit the limit; with any
    other limit it fails with [OverflowError]. *)
Theorem get_messages_in_time_order session_id limit w :
  (¬ int64 limit ->
   db.get_messages session_id limit w = (Raise overflow, w)) ∧
  (int64 limit ->
   ∃ msgs,
     db.get_messages session_id limit w = (Ok msgs, w) ∧
     sorted_by created_asc msgs ∧
     (∀ m, m ∈ msgs -> m ∈ stored_messages w ∧ m_session_id m = session_id) ∧
     ((0 <= limit)%Z -> (Z.of_nat (length msgs) <= limit)%Z) ∧
     ((limit < 0 ∨ message_count session_id w <= limit)%Z ->
      msgs ≡ₚ session_messages session_id (w_db w))).
Proof.
  split.
  - intros Hbig%in_int64_false. unfold db.get_messages.
    rewrite bind_run. cbn [get_db w_db].
    by rewrite bind_run, bind_int_run, Hbig.
  - intros Hfits%in_int64_true.
    eexists. split; [by apply get_messages_run|]. split; [|split; [|split]].
    + apply sql_limit_sorted, order_by_sorted.
      intros a b. apply string_leb_false.
    + intros m Hm%sql_limit_subseteq.
      rewrite order_by_Permutation in Hm. unfold session_messages in Hm.
      apply list_elem_of_filter in Hm as [Hs%String.eqb_eq Hm]. done.
    + apply sql_limit_length.
    + intros Hl. rewrite sql_limit_all; [apply order_by_Permutation|].
      rewrite (Permutation_length (order_by_Permutation _ _)). exact Hl.
Qed.

Lemma get_messages_in_time_order_witness :
  db.get_messages "s1" (2 ^ 63) (Demo.world_with (Demo.conversation 3))
    = (Raise overflow, Demo.world_with (Demo.conversation 3)) ∧
  ∃ msgs,
    db.get_messages "s1" 50 (Demo.world_with (Demo.conversation 3))
      = (Ok msgs, Demo.world_with (Demo.conversation 3)) ∧
    sorted_by created_asc msgs ∧
    (∀ m, m ∈ msgs ->
          m ∈ stored_messages (Demo.world_with (Demo.conversation 3))
          ∧ m_session_id m = "s1") ∧
    ((0 <= 50)%Z -> (Z.of_nat (length msgs) <= 50)%Z) ∧
    msgs ≡ₚ session_messages "s1"
              (w_db (Demo.world_with (Demo.conversation 3))).
Proof.
  split.
  - apply (get_messages_in_time_order "s1" (2 ^ 63)
             (Demo.world_with (Demo.conversation 3))).
    unfold int64. lia.
  - destruct (proj2 (get_messages_in_time_order "s1" 50
                       (Demo.world_with (Demo.conversation 3))))
      as (msgs & H1 & H2 & H3 & H4 & H5); [unfold int64; lia|].
    exists msgs. repeat split; try assumption; try apply H3; try assumption.
    apply H5. right. vm_compute. discriminate.
Defined.

End listings.

Section alerts.

Import db.

(** What [create_alert] does to the table, whatever its outcome. *)
Lemma create_alert_run E scope title body due_at conf session_id src w :
  match create_alert E scope title body due_at conf session_id src w with
  | (Ok alert_id, w') =>
      stored_alerts w !! alert_id = None ∧
      PrimFloat.is_nan conf = false ∧
      ∃ src',
        stored_alerts w' =
        <[alert_id := {| a_scope := scope; a_session_id := session_id;
                         a_title := title; a_body := body; a_due_at := due_at;
                         a_status := "active"; a_confidence := conf;
                         a_source_message_id := src';
                         a_created_at := now_of E w;
                         a_updated_at := now_of E w |}]> (stored_alerts w)
  | (Raise _, w') => stored_alerts w' = stored_alerts w
  end.
Proof.
  unfold create_alert, stored_alerts, now_of.
  do 2 (rewrite bind_run; cbn [new_uuid _utc_now]).
  rewrite bind_run. unfold lift at 1.
  destruct (bind_text E src) as [src'|e]; [|reflexivity].
  rewrite bind_run. cbn [get_db w_db].
  destruct (negb _); [reflexivity|].
  destruct (PrimFloat.is_nan conf) eqn:Hnan; [reflexivity|].
  destruct (alerts (w_db w) !! uuid4 E (uuid_calls w)) eqn:Hid; [reflexivity|].
  rewrite bind_run. cbn. eauto.
Qed.

(** X7: the edges of a status update: a status outside [active], [done] and
    [cancelled] is refused with [ValueError] before anything is read or
    written; an id the table does not hold is answered with [False], and
    with 404 by the two endpoints, and the database stays as it was. *)
Theorem update_alert_status_edges E alert_id status w :
  (status ∉ ["active"; "done"; "cancelled"] ->
   update_alert_status E alert_id status w =
   (Raise (PyExc "ValueError" "Invalid status"), w)) ∧
  (stored_alerts w !! alert_id = None ->
   (status ∈ ["active"; "done"; "cancelled"] ->
    ∃ w', update_alert_status E alert_id status w = (Ok false, w')
          ∧ w_db w' = w_db w) ∧
   (∃ w', main.mark_alert_done_api E alert_id w =
            (Raise (HTTPException 404 "Alert not found"), w')
          ∧ w_db w' = w_db w) ∧
   (∃ w', main.mark_alert_cancel_api E alert_id w =
            (Raise (HTTPException 404 "Alert not found"), w')
          ∧ w_db w' = w_db w)).
Proof.
  assert (Hmiss : ∀ st,
            (String.eqb st "active" || String.eqb st "done"
             || String.eqb st "cancelled") = true ->
            stored_alerts w !! alert_id = None ->
            ∃ w', update_alert_status E alert_id st w = (Ok false, w')
                  ∧ w_db w' = w_db w).
  { intros st Hst Hnone. unfold update_alert_status. rewrite Hst. cbn [negb].
    do 2 (rewrite bind_run; cbn [_utc_now get_db w_db]).
    rewrite bind_run. cbn [put_db]. unfold stored_alerts in Hnone.
    rewrite Hnone. rewrite bool_decide_eq_false_2 by (by intros [? ?]).
    eexists. split; [reflexivity|]. cbn [w_db set_db].
    assert (alter (set_status st (utcnow_iso E (clock_calls w) +:+ "Z"))
              alert_id (alerts (w_db w)) = alerts (w_db w)) as ->.
    { apply map_eq. intros i. rewrite lookup_alter.
      destruct (decide (alert_id = i)) as [<-|]; [by rewrite Hnone|done]. }
    by destruct (w_db w). }
  split; [|intros Hnone; split; [|split]].
  - intros Hnot. unfold update_alert_status.
    destruct (String.eqb status "active" || String.eqb status "done"
              || String.eqb status "cancelled") eqn:Hst; [|reflexivity].
    destruct Hnot.
    apply orb_true_iff in Hst as [Hst|Hst%String.eqb_eq];
      [apply orb_true_iff in Hst as [Hst%String.eqb_eq|Hst%String.eqb_eq]|];
      subst status; set_solver.
  - intros Hin. apply Hmiss; [|exact Hnone].
    apply list_elem_of_In in Hin. cbn in Hin.
    destruct Hin as [<-|[<-|[<-|[]]]]; reflexivity.
  - destruct (Hmiss "done" eq_refl Hnone) as (w' & Hrun & Hdb).
    exists w'. split; [|exact Hdb].
    unfold main.mark_alert_done_api, tools.mark_alert_done.
    rewrite bind_run, Hrun. reflexivity.
  - destruct (Hmiss "cancelled" eq_refl Hnone) as (w' & Hrun & Hdb).
    exists w'. split; [|exact Hdb].
    unfold main.mark_alert_cancel_api, tools.mark_alert_cancelled.
    rewrite bind_run, Hrun. reflexivity.
Qed.

Lemma update_alert_status_edges_witness :
  update_alert_status (Demo.env true 6) "a1" "snoozed" Demo.world_done =
    (Raise (PyExc "ValueError" "Invalid status"), Demo.world_done)
  ∧ ∃ w', main.mark_alert_done_api (Demo.env true 6) "a2" Demo.world_done =
            (Raise (HTTPException 404 "Alert not found"), w')
          ∧ w_db w' = w_db Demo.world_done.
Proof.
  split.
  - apply (update_alert_status_edges (Demo.env true 6) "a1" "snoozed"
             Demo.world_done).
    intros Hin. apply list_elem_of_In in Hin. cbn in Hin.
    destruct Hin as [H|[H|[H|[]]]]; discriminate H.
  - apply (update_alert_status_edges (Demo.env true 6) "a2" "done"
             Demo.world_done). reflexivity.
Defined.

Lemma due_asc_total a b : due_asc a b = false -> due_asc b a = true.
Proof.
  unfold due_asc. destruct (a_due_at a.2), (a_due_at b.2); try done.
  apply string_leb_false.
Qed.

Lemma due_filter_spec now (r : string * AlertRow) :
  (String.eqb (a_status r.2) "active" && due_by now r.2) = true <->
  due_by_text now r.2.
Proof.
  unfold due_by_text, due_by. rewrite andb_true_iff, String.eqb_eq.
  split; intros [Hs Hd]; (split; [exact Hs|]).
  - destruct (a_due_at r.2) as [t|]; [eauto | discriminate].
  - by destruct Hd as (t & -> & Ht).
Qed.

Lemma get_due_alerts_overflow E session_id limit w :
  ¬ int64 limit ->
  ∃ w', get_due_alerts E session_id limit w = (Raise overflow, w')
        ∧ w_db w' = w_db w.
Proof.
  intros Hbig%in_int64_false. unfold get_due_alerts.
  rewrite bind_run. cbn [_utc_now]. rewrite bind_run. cbn [get_db w_db].
  destruct session_id as [[|c s]|]; rewrite bind_int_bind, Hbig;
    eexists; split; reflexivity.
Qed.

Lemma get_due_alerts_run E session_id limit w :
  int64 limit ->
  let for_session (row : AlertRow) :=
    ∀ sid, session_id = Some sid -> sid ≠ "" -> a_session_id row = Some sid in
  ∃ rows w',
    get_due_alerts E session_id limit w = (Ok rows, w') ∧
    w_db w' = w_db w ∧
    sorted_by due_asc rows ∧
    ((0 <= limit)%Z -> (Z.of_nat (length rows) <= limit)%Z) ∧
    (∀ id row, (id, row) ∈ rows ->
       stored_alerts w !! id = Some row ∧ due_by_text (now_of E w) row
       ∧ for_session row) ∧
    ((limit < 0)%Z ->
     ∀ id row, stored_alerts w !! id = Some row ->
               due_by_text (now_of E w) row -> for_session row ->
               (id, row) ∈ rows).
Proof.
  intros Hfits%in_int64_true. cbv zeta. unfold get_due_alerts.
  rewrite bind_run. cbn [_utc_now]. rewrite bind_run. cbn [get_db w_db].
  fold (now_of E w). unfold alert_rows, stored_alerts.
  assert (Hsess : ∀ c s (r : string * AlertRow),
            sql_eq (a_session_id r.2) (Some (String c s)) = true <->
            a_session_id r.2 = Some (String c s)).
  { intros c s r. unfold sql_eq. destruct (a_session_id r.2) as [x|].
    - rewrite String.eqb_eq. split; congruence.
    - split; discriminate. }
  destruct session_id as [[|c s]|]; rewrite bind_int_bind, Hfits;
    eexists _, _;
    (split; [reflexivity|]); (split; [reflexivity|]);
    (split; [apply sql_limit_sorted, order_by_sorted; intros a b;
             apply due_asc_total|]);
    (split; [apply sql_limit_length|]); split.
  - intros id row Hin%sql_limit_subseteq. rewrite order_by_Permutation in Hin.
    apply list_elem_of_filter in Hin as [Hdue%due_filter_spec Hin].
    apply elem_of_map_to_list in Hin. split; [done|]. split; [done|].
    intros sid [= <-] Hne. by destruct Hne.
  - intros Hlim id row Hin Hdue _. rewrite sql_limit_all by (by left).
    rewrite order_by_Permutation. apply list_elem_of_filter. split.
    + by apply due_filter_spec.
    + by apply elem_of_map_to_list.
  - intros id row Hin%sql_limit_subseteq. rewrite order_by_Permutation in Hin.
    apply list_elem_of_filter in Hin as [Hp Hin].
    apply andb_true_iff in Hp as [Hdue%due_filter_spec Hs%Hsess].
    apply elem_of_map_to_list in Hin. split; [done|]. split; [done|].
    intros sid [= <-] _. exact Hs.
  - intros Hlim id row Hin Hdue Hs. rewrite sql_limit_all by (by left).
    rewrite order_by_Permutation. apply list_elem_of_filter. split.
    + apply andb_true_iff. split; [by apply due_filter_spec|].
      apply (Hsess c s (id, row)). by apply Hs.
    + by apply elem_of_map_to_list.
  - intros id row Hin%sql_limit_subseteq. rewrite order_by_Permutation in Hin.
    apply list_elem_of_filter in Hin as [Hdue%due_filter_spec Hin].
    apply elem_of_map_to_list in Hin. split; [done|]. split; [done|].
    intros sid [=].
  - intros Hlim id row Hin Hdue _. rewrite sql_limit_all by (by left).
    rewrite order_by_Permutation. apply list_elem_of_filter. split.
    + by apply due_filter_spec.
    + by apply elem_of_map_to_list.
Qed.

(** X8: what [get_due_alerts] lists. It writes nothing. With a limit that
    fits 64 bits it lists alerts of the table that are active and whose
    [due_at], as a text, does not come after the timestamp of the call in
    the order of strings (the two are compared as SQLite compares TEXT
    values, character by character, whatever instants they denote), of the
    session asked for when one is given, in the ascending order of these
    texts and no more than [limit] of them; with a negative limit every such
    alert is listed. With any other limit it fails with [OverflowError]. *)
Theorem due_alerts_are_due E session_id limit w :
  let for_session (row : AlertRow) :=
    ∀ sid, session_id = Some sid -> sid ≠ "" -> a_session_id row = Some sid in
  (¬ int64 limit ->
   ∃ w', get_due_alerts E session_id limit w = (Raise overflow, w')
         ∧ w_db w' = w_db w) ∧
  (int64 limit ->
   ∃ rows w',
     get_due_alerts E session_id limit w = (Ok rows, w') ∧
     w_db w' = w_db w ∧
     sorted_by due_asc rows ∧
     ((0 <= limit)%Z -> (Z.of_nat (length rows) <= limit)%Z) ∧
     (∀ id row, (id, row) ∈ rows ->
        stored_alerts w !! id = Some row ∧ due_by_text (now_of E w) row
        ∧ for_session row) ∧
     ((limit < 0)%Z ->
      ∀ id row, stored_alerts w !! id = Some row ->
                due_by_text (now_of E w) row -> for_session row ->
                (id, row) ∈ rows)).
Proof.
  split; [apply get_due_alerts_overflow | apply get_due_alerts_run].
Qed.

Lemma due_alerts_are_due_witness :
  let E := Demo.env true 6 in
  let w := (create_alert E "session" "Call mum" "" (Some "2025-12-31T09:00:00")
              0.8%float (Some "s1") JNull Demo.world0).2 in
  (∃ w', get_due_alerts E (Some "s1") (2 ^ 63) w = (Raise overflow, w')
         ∧ w_db w' = w_db w) ∧
  ∃ rows w',
    get_due_alerts E (Some "s1") (-1) w = (Ok rows, w') ∧
    "uuid-0" ∈ rows.*1.
Proof.
  cbv zeta. split.
  - apply (due_alerts_are_due (Demo.env true 6) (Some "s1") (2 ^ 63)
             (create_alert (Demo.env true 6) "session" "Call mum" ""
                (Some "2025-12-31T09:00:00") 0.8%float (Some "s1") JNull
                Demo.world0).2).
    unfold int64. lia.
  - destruct (proj2 (due_alerts_are_due (Demo.env true 6) (Some "s1") (-1)
                (create_alert (Demo.env true 6) "session" "Call mum" ""
                   (Some "2025-12-31T09:00:00") 0.8%float (Some "s1") JNull
                   Demo.world0).2))
      as (rows & w' & Hrun & _ & _ & _ & _ & Hall); [unfold int64; lia|].
    exists rows, w'. split; [exact Hrun|].
    apply list_elem_of_fmap.
    exists ("uuid-0",
            {| a_scope := "session"; a_session_id := Some "s1";
               a_title := "Call mum"; a_body := "";
               a_due_at := Some "2025-12-31T09:00:00"; a_status := "active";
               a_confidence := 0.8%float; a_source_message_id := None;
               a_created_at := "2026-01-01T00:00:00.000001Z";
               a_updated_at := "2026-01-01T00:00:00.000001Z" |}).
    split; [reflexivity|].
    apply Hall; [lia | reflexivity | | by intros sid [= <-] _].
    split; [reflexivity|]. eexists. split; reflexivity.
Defined.

(** The order of the texts is not the order of the instants. At
    [2026-01-01T00:00:00.000003Z], an alert due at [2026-01-01T00:00:00-08:00],
    eight hours ahead, is listed, because [-] sorts before [.]; one due at
    [2026-01-01T05:00:00+05:30], half an hour past, is not, because [05]
    sorts after [00]. *)
Example due_text_order_is_not_time_order :
  let E := Demo.env true 6 in
  let w :=
    (create_alert E "session" "Later" "" (Some "2026-01-01T00:00:00-08:00")
       0.8%float (Some "s1") JNull
       (create_alert E "session" "Earlier" ""
          (Some "2026-01-01T05:00:00+05:30") 0.8%float (Some "s1") JNull
          Demo.world0).2).2 in
  now_of E w = "2026-01-01T00:00:00.000003Z" ∧
  match (get_due_alerts E None 10 w).1 with
  | Ok rows => map (λ r, a_title r.2) rows
  | Raise _ => []
  end = ["Later"].
Proof. split; vm_compute; reflexivity. Qed.

End alerts.

(* ===================================================================== *)
(** * Further properties of the validators *)
(* ===================================================================== *)

Section bounds.

Import memory_extractor.

Lemma ltb_leb a b : PrimFloat.ltb a b = true -> PrimFloat.leb a b = true.
Proof.
  rewrite FloatAxioms.ltb_spec, FloatAxioms.leb_spec. unfold SFltb, SFleb.
  by destruct (SFcompare _ _) as [[]|].
Qed.

Lemma nan_ltb x y : PrimFloat.is_nan x = true -> PrimFloat.ltb x y = false.
Proof.
  unfold PrimFloat.is_nan.
  rewrite FloatAxioms.eqb_spec, FloatAxioms.ltb_spec. unfold SFeqb, SFltb.
  destruct (Prim2SF x) as [s|s| |s m e]; cbn;
    [discriminate | by destruct s | done |].
  rewrite Z.compare_refl, Pos.compare_cont_refl. by destruct s.
Qed.

Lemma clamp_range x :
  fle 0 (py_max 0 (py_min 1 x)) ∧ fle (py_max 0 (py_min 1 x)) 1.
Proof.
  unfold fle, py_min, py_max.
  destruct (PrimFloat.ltb x 1) eqn:H1.
  - destruct (PrimFloat.ltb 0 x) eqn:H0.
    + split; by apply ltb_leb.
    + split; reflexivity.
  - split; reflexivity.
Qed.

(** X10: [_clamp01] answers inside the unit interval for every float: a
    value strictly between 0 and 1 is kept, and a NaN, which compares below
    nothing, comes out as 1. *)
Theorem clamp01_in_unit_interval x :
  fle 0 (_clamp01 x) ∧ fle (_clamp01 x) 1 ∧
  (PrimFloat.ltb 0 x = true -> PrimFloat.ltb x 1 = true -> _clamp01 x = x) ∧
  (PrimFloat.is_nan x = true -> _clamp01 x = 1%float).
Proof.
  split; [apply clamp_range|]. split; [apply clamp_range|]. split.
  - intros H0 H1. unfold _clamp01, py_min, py_max. by rewrite H1, H0.
  - intros Hnan. unfold _clamp01, py_min, py_max.
    by rewrite (nan_ltb _ _ Hnan).
Qed.

Lemma clamp01_in_unit_interval_witness :
  _clamp01 0.5%float = 0.5%float ∧ _clamp01 PrimFloat.nan = 1%float.
Proof.
  split.
  - apply (clamp01_in_unit_interval 0.5%float); reflexivity.
  - apply (clamp01_in_unit_interval PrimFloat.nan); reflexivity.
Defined.

Lemma length_rev_app (s acc : string) :
  String.length (String.rev_app s acc)
  = (String.length s + String.length acc)%nat.
Proof.
  revert acc. induction s as [|c s IH]; intros acc; cbn; [reflexivity|].
  rewrite IH. cbn. lia.
Qed.

Lemma length_rev_string (s : string) :
  String.length (String.rev s) = String.length s.
Proof. unfold String.rev. rewrite length_rev_app. cbn. lia. Qed.

Lemma length_lstrip (s : string) :
  (String.length (lstrip s) <= String.length s)%nat.
Proof.
  induction s as [|c s IH]; cbn; [lia|]. destruct (is_space c); cbn; lia.
Qed.

Lemma length_strip (s : string) :
  (String.length (strip s) <= String.length s)%nat.
Proof.
  unfold strip, rstrip. rewrite length_rev_string.
  etransitivity; [apply length_lstrip|]. rewrite length_rev_string.
  apply length_lstrip.
Qed.

Lemma length_str_upto n (s : string) : (String.length (str_upto n s) <= n)%nat.
Proof.
  unfold str_upto. revert s. induction n as [|n IH]; intros [|c s]; cbn;
    try lia. specialize (IH s). lia.
Qed.

Lemma omap_Forall {A B} (f : A -> option B) (Q : B -> Prop) (l : list A) :
  (∀ x y, f x = Some y -> Q y) -> Forall Q (omap f l).
Proof.
  intros Hf. induction l as [|x l IH]; cbn; [constructor|].
  destruct (f x) as [y|] eqn:Hx; [|exact IH]. constructor; eauto.
Qed.

Lemma omap_length {A B} (f : A -> option B) (l : list A) :
  (length (omap f l) <= length l)%nat.
Proof.
  induction l as [|x l IH]; cbn; [lia|]. destruct (f x); cbn; lia.
Qed.

Lemma in_strs_In scope allow :
  in_strs (JStr scope) allow = true -> scope ∈ allow.
Proof.
  unfold in_strs. intros (s & Hs & Heq)%existsb_exists. cbn in Heq.
  apply String.eqb_eq in Heq as ->. by apply list_elem_of_In.
Qed.

Lemma conf_f_of_range E conf :
  fle 0 (conf_f_of E conf) ∧ fle (conf_f_of E conf) 1.
Proof.
  unfold conf_f_of. destruct (py_float E conf); [apply clamp_range|].
  split; reflexivity.
Qed.

(** X11: what passes validation is bounded, whatever the model returned: at
    most five items, each with an allowed scope, a key of 1 to 64 characters
    of [a-z0-9_], a value of at most 400 characters, and a confidence in the
    unit interval that is not below the threshold; at most ten open loops,
    none of them empty. *)
Theorem accepted_items_are_bounded E data thr allow_scopes :
  let out := validate_mx1_output E data thr allow_scopes in
  (length out.1 <= 5)%nat ∧
  Forall (λ c, mc_scope c ∈ allow_scopes ∧
               (1 <= String.length (mc_key c) <= 64)%nat ∧
               key_fullmatch (mc_key c) = true ∧
               (String.length (mc_value c) <= 400)%nat ∧
               PrimFloat.ltb (mc_confidence c) thr = false ∧
               fle 0 (mc_confidence c) ∧ fle (mc_confidence c) 1) out.1 ∧
  (length (sp_open_loops out.2) <= 10)%nat ∧
  Forall (λ s, s ≠ "") (sp_open_loops out.2).
Proof.
  cbv zeta. unfold validate_mx1_output. cbn [fst snd sp_open_loops].
  split; [|split; [|split]].
  - etransitivity; [apply omap_length|]. rewrite length_take. lia.
  - apply omap_Forall. intros it c Hc. unfold validate_item in Hc.
    destruct it as [| | | | | |d]; try discriminate.
    destruct (get_or d "scope" JNull) as [| | | |scope| |]; try discriminate.
    destruct (in_strs (JStr scope) allow_scopes) eqn:Hscope;
      cbn [negb] in Hc; [|discriminate].
    destruct (get_or d "key" JNull) as [| | | |key| |]; try discriminate.
    destruct ((1 <=? String.length key)%nat
              && (String.length key <=? 64)%nat) eqn:Hkey;
      cbn [negb] in Hc; [|discriminate].
    destruct (key_fullmatch key) eqn:Hfull; cbn [negb] in Hc; [|discriminate].
    destruct (get_or d "value" JNull) as [| | | |value| |]; try discriminate.
    destruct ((1 <=? String.length value)%nat
              && (String.length value <=? 400)%nat) eqn:Hvalue;
      cbn [negb] in Hc; [|discriminate].
    destruct (PrimFloat.ltb _ thr) eqn:Hthr; [discriminate|].
    injection Hc as <-. cbn [mc_scope mc_key mc_value mc_confidence].
    apply andb_true_iff in Hkey as [Hk1%Nat.leb_le Hk2%Nat.leb_le].
    apply andb_true_iff in Hvalue as [_ Hv%Nat.leb_le].
    pose proof (length_strip value).
    pose proof (conf_f_of_range E (get_or d "confidence" (JFloat 0))) as [? ?].
    repeat split; try done; try lia. by apply in_strs_In.
  - etransitivity; [apply omap_length|]. rewrite length_take. lia.
  - apply omap_Forall. intros x s Hs.
    destruct x as [| | | |t| |]; try discriminate.
    destruct (String.eqb (strip t) "") eqn:Ht; cbn [negb] in Hs;
      [discriminate|].
    injection Hs as <-. by apply String.eqb_neq.
Qed.

End bounds.

Section judge_more.

Import judge_agent.

(** What a reply the judge code accepts is turned into. *)
Lemma judge_reply_shape E raw r :
  judge_reply E raw = Ok r ->
  is_verdict (jr_verdict r) ∧
  (jr_verdict r = "PASS" ->
   truthy (jr_feedback r) = false ∧ truthy (jr_rewritten_response r) = false) ∧
  (jr_verdict r = "REWRITE" ->
   truthy (jr_feedback r) || truthy (jr_rewritten_response r) = true) ∧
  (String.length (jr_reason r) <= 200)%nat ∧
  (length (jr_risk_tags r) <= 10)%nat ∧
  Forall (λ t, (String.length t <= 40)%nat) (jr_risk_tags r).
Proof.
  unfold judge_reply, is_verdict.
  destruct (find_char "{" (strip raw)) as [start|]; [|discriminate].
  destruct (rfind_char "}" (strip raw)) as [end_|]; [|discriminate].
  destruct (end_ <=? start)%nat; [discriminate|].
  destruct (json_loads E _) as [obj|e]; cbn [mbind Result_bind]; [|discriminate].
  destruct (as_dict obj) as [d|e]; cbn [mbind Result_bind]; [|discriminate].
  set (tags := match get_or d "risk_tags" (JList []) with
               | JList l => l | _ => [] end).
  assert (Htags : (length (map (λ t, str_upto 40 (str_ E t)) (take 10 tags))
                   <= 10)%nat
                  ∧ Forall (λ t, (String.length t <= 40)%nat)
                      (map (λ t, str_upto 40 (str_ E t)) (take 10 tags))).
  { split; [rewrite length_map, length_take; lia|].
    apply Forall_forall. intros t (x & <- & _)%list_elem_of_In%in_map_iff.
    apply length_str_upto. }
  destruct Htags as [Hlen Hall].
  pose proof (length_str_upto 200 (str_ E (get_or d "reason" (JStr "")))).
  set (v := match get_or d "verdict" (JStr "PASS") with
            | JStr v => if in_strs (JStr v) ["PASS"; "REWRITE"; "BLOCK"]
                        then v else "PASS"
            | _ => "PASS" end).
  assert (Hv : v = "PASS" ∨ v = "REWRITE" ∨ v = "BLOCK").
  { subst v. destruct (get_or d "verdict" (JStr "PASS")); eauto.
    destruct (in_strs _ _) eqn:Hin; eauto.
    apply in_strs_In, list_elem_of_In in Hin. cbn in Hin.
    destruct Hin as [<-|[<-|[<-|[]]]]; eauto. }
  destruct Hv as [Hv|[Hv|Hv]]; rewrite Hv; cbn [String.eqb Ascii.eqb Bool.eqb].
  - intros [= <-]. cbn. repeat split; eauto; discriminate.
  - destruct (truthy (get_or d "rewritten_response" JNull)) eqn:Hr,
      (truthy (get_or d "feedback" (JStr ""))) eqn:Hf; cbn [negb andb];
      intros [= <-]; cbn [jr_verdict jr_feedback jr_rewritten_response
                          jr_reason jr_risk_tags];
      rewrite ?Hr, ?Hf; repeat split; eauto; discriminate.
  - intros [= <-]. cbn. repeat split; eauto; discriminate.
Qed.

(** X12: a judge reply that is accepted is normalised: the verdict is one of
    the three, a [PASS] carries neither feedback nor a rewrite, a [REWRITE]
    carries at least one of them, the reason has at most 200 characters, and
    there are at most ten risk tags of at most 40 characters each. *)
Theorem judge_reply_is_normalised E raw r :
  judge_reply E raw = Ok r ->
  is_verdict (jr_verdict r) ∧
  (jr_verdict r = "PASS" ->
   truthy (jr_feedback r) = false ∧ truthy (jr_rewritten_response r) = false) ∧
  (jr_verdict r = "REWRITE" ->
   truthy (jr_feedback r) || truthy (jr_rewritten_response r) = true) ∧
  (String.length (jr_reason r) <= 200)%nat ∧
  (length (jr_risk_tags r) <= 10)%nat ∧
  Forall (λ t, (String.length t <= 40)%nat) (jr_risk_tags r).
Proof. apply judge_reply_shape. Qed.

Lemma judge_reply_is_normalised_witness :
  let r := {| jr_verdict := "REWRITE"; jr_feedback := JStr "be kinder";
              jr_rewritten_response := JNull; jr_reason := "tone";
              jr_risk_tags := [] |} in
  judge_reply (Demo.env true 6) (Demo.judge_script 0) = Ok r ∧
  is_verdict (jr_verdict r) ∧ (String.length (jr_reason r) <= 200)%nat.
Proof.
  split; [reflexivity|].
  pose proof (judge_reply_is_normalised (Demo.env true 6) (Demo.judge_script 0)
                {| jr_verdict := "REWRITE"; jr_feedback := JStr "be kinder";
                   jr_rewritten_response := JNull; jr_reason := "tone";
                   jr_risk_tags := [] |} eq_refl) as (Hv & _ & _ & Hr & _).
  exact (conj Hv Hr).
Defined.

(** The verdict of [run_judge], whatever path produced it. *)
Lemma run_judge_shape E persona um ad mem w :
  ∃ r w',
    run_judge E persona um ad mem w = (Ok r, w') ∧
    w_db w' = w_db w ∧ chat_calls w' = chat_calls w ∧
    judge_calls w' =
      (judge_calls w + if JUDGE_ENABLED E then 1 else 0)%nat ∧
    (JUDGE_ENABLED E = false ->
     jr_verdict r = "PASS" ∧ jr_reason r = "judge_disabled") ∧
    is_verdict (jr_verdict r) ∧
    (jr_verdict r = "PASS" ->
     truthy (jr_feedback r) = false
     ∧ truthy (jr_rewritten_response r) = false) ∧
    (jr_verdict r = "REWRITE" ->
     truthy (jr_feedback r) || truthy (jr_rewritten_response r) = true).
Proof.
  unfold run_judge, is_verdict. destruct (JUDGE_ENABLED E); cbn [negb].
  - unfold try_except. rewrite bind_run. unfold _ollama_chat at 1.
    destruct (judge_backend E _ _ _ _ _) as [raw|e].
    + unfold lift. destruct (judge_reply E raw) as [r|e] eqn:Hr.
      * apply judge_reply_shape in Hr as (Hv & Hp & Hw & _).
        eexists _, _. split; [reflexivity|]. cbn.
        repeat split; try done; try lia. all: by apply Hp.
      * eexists _, _. split; [reflexivity|]. cbn.
        repeat split; eauto; try lia; discriminate.
    + eexists _, _. split; [reflexivity|]. cbn.
      repeat split; eauto; try lia; discriminate.
  - eexists _, _. split; [reflexivity|]. cbn.
    repeat split; eauto; try lia; discriminate.
Qed.

(** X13: [run_judge] always answers, and never with a failure: it leaves the
    database alone, asks the backend exactly once when the judge is enabled
    and not at all when it is disabled, and its verdict is one of the three,
    a [PASS] without feedback or rewrite, a [REWRITE] with one of them. *)
Theorem run_judge_always_answers E persona um ad mem w :
  ∃ r w',
    run_judge E persona um ad mem w = (Ok r, w') ∧
    w_db w' = w_db w ∧ chat_calls w' = chat_calls w ∧
    judge_calls w' =
      (judge_calls w + if JUDGE_ENABLED E then 1 else 0)%nat ∧
    (JUDGE_ENABLED E = false ->
     jr_verdict r = "PASS" ∧ jr_reason r = "judge_disabled") ∧
    is_verdict (jr_verdict r) ∧
    (jr_verdict r = "PASS" ->
     truthy (jr_feedback r) = false
     ∧ truthy (jr_rewritten_response r) = false) ∧
    (jr_verdict r = "REWRITE" ->
     truthy (jr_feedback r) || truthy (jr_rewritten_response r) = true).
Proof. apply run_judge_shape. Qed.

Lemma run_judge_always_answers_witness :
  ∃ r w',
    run_judge (Demo.env false 6) Demo.coach "hi" "draft" [] Demo.world0
      = (Ok r, w') ∧
    jr_verdict r = "PASS" ∧ jr_reason r = "judge_disabled".
Proof.
  destruct (run_judge_always_answers (Demo.env false 6) Demo.coach "hi"
              "draft" [] Demo.world0)
    as (r & w' & Hrun & _ & _ & _ & Hoff & _).
  exists r, w'. split; [exact Hrun|]. apply Hoff. reflexivity.
Defined.

End judge_more.

(* ===================================================================== *)
(** * Further properties of the chat turn *)
(* ===================================================================== *)

Section turn_more.

Import judge_agent tools pipeline main.

#[local] Hint Resolve pipeline_drafts pipeline_messages run_tools_drafts
  run_tools_messages ollama_chat_messages keeps_run_judge keeps_read_memory
  retry_loop_messages : frames.

Lemma retry_loop_ok E persona mem system_prompt message attempts st w st' w' :
  retry_loop E persona mem system_prompt message attempts st w = (Ok st', w') ->
  loop_ok st -> loop_ok st'.
Proof.
  revert st w. induction attempts as [|attempt rest IH]; intros st w H Hok.
  - cbn in H. by injection H as <- _.
  - cbn [retry_loop] in H.
    apply bind_Ok in H as (draft & w1 & Hd & H).
    apply bind_Ok in H as (jr & w2 & Hj & H).
    destruct (run_judge_shape E persona message draft mem w1)
      as (r & w2' & Hrun & _ & _ & _ & _ & Hv & _).
    rewrite Hrun in Hj. injection Hj as <- <-.
    destruct Hv as [Hv|[Hv|Hv]]; rewrite Hv in H;
      cbn [String.eqb Ascii.eqb Bool.eqb] in H.
    + injection H as <- _. split; cbn; [by left | discriminate].
    + destruct (truthy (jr_feedback r) && (attempt <? max_retries - 1)%Z).
      * apply IH in H; [exact H|]. split; cbn; [right; by left | discriminate].
      * injection H as <- _. split; cbn; [right; by left | discriminate].
    + injection H as <- _. split; cbn; [right; by right|].
      intros _. unfold py_or.
      by destruct (truthy (jr_rewritten_response r)) eqn:Hr.
Qed.

Lemma chat_turn_verdict E session_id message persona_id persona w resp w' :
  chat_turn E session_id message persona_id persona w = (Ok resp, w') ->
  is_verdict (r_verdict resp) ∧
  (r_verdict resp = "REWRITE" -> truthy (r_assistant resp) = false) ∧
  (r_verdict resp = "BLOCK" -> truthy (r_assistant resp) = true).
Proof.
  unfold chat_turn. intros H.
  apply bind_Ok in H as (persona_d & w1 & H1 & H).
  apply bind_Ok in H as (mem & w2 & H2 & H).
  apply bind_Ok in H as (user_id & w3 & H3 & H).
  apply bind_Ok in H as (msgs & w4 & H4 & H).
  apply bind_Ok in H as (system_prompt & w5 & H5 & H).
  apply bind_Ok in H as (st & w6 & H6 & H).
  apply bind_Ok in H as (final & w7 & H7 & H).
  apply bind_Ok in H as (reply_id & w8 & H8 & H).
  apply bind_Ok in H as (dbg & w9 & H9 & H).
  apply bind_Ok in H as (em & w10 & H10 & H).
  apply bind_Ok in H as (latest & w11 & H11 & H).
  apply bind_Ok in H as (summary & w12 & H12 & H).
  apply bind_Ok in H as (events & w13 & H13 & H).
  injection H as <- <-. cbn [r_assistant r_verdict].
  apply retry_loop_ok in H6 as [Hv Hblock];
    [|split; cbn; [by left | discriminate]].
  assert (Hfinal : truthy (final_text st) = true -> final = final_text st).
  { intros Ht. rewrite Ht in H7. cbn in H7. by injection H7 as <- _. }
  destruct Hv as [Hv|[Hv|Hv]]; rewrite Hv in *;
    cbn [String.eqb Ascii.eqb Bool.eqb andb].
  - split; [by left|]. split; discriminate.
  - destruct (truthy final) eqn:Ht.
    + split; [by left|]. split; discriminate.
    + split; [right; by left|]. split; [done | discriminate].
  - split; [right; by right|]. split; [discriminate|].
    intros _. rewrite Hfinal; by apply Hblock.
Qed.

(** X14: the verdict of a response agrees with its reply: it is one of
    [PASS], [REWRITE] and [BLOCK]; a response that still says [REWRITE]
    carries an empty reply, and one that says [BLOCK] never does. *)
Theorem response_verdict_matches_reply E session_id message w resp w' :
  chat_send_api E session_id message w = (Ok resp, w') ->
  is_verdict (r_verdict resp) ∧
  (r_verdict resp = "REWRITE" -> truthy (r_assistant resp) = false) ∧
  (r_verdict resp = "BLOCK" -> truthy (r_assistant resp) = true).
Proof.
  unfold chat_send_api. intros H.
  apply bind_Ok in H as (s & w1 & H1 & H).
  destruct s as [s|]; [|discriminate].
  destruct (PERSONAS E !! s_persona_id s) as [[| | | | | |[|]]|];
    first [discriminate | exact (chat_turn_verdict _ _ _ _ _ _ _ _ H)].
Qed.

Lemma response_verdict_matches_reply_witness :
  let resp := Demo.first_response (JInt 42) "BLOCK" "" in
  is_verdict (r_verdict resp) ∧
  (r_verdict resp = "REWRITE" -> truthy (r_assistant resp) = false) ∧
  (r_verdict resp = "BLOCK" -> truthy (r_assistant resp) = true).
Proof.
  refine (response_verdict_matches_reply
            (Demo.env_with true 6 (λ _, Ok Demo.block_reply)
               (λ _, Ok Demo.mx1_script))
            "s1" "hello" Demo.world0
            (Demo.first_response (JInt 42) "BLOCK" "")
            (chat_send_api
               (Demo.env_with true 6 (λ _, Ok Demo.block_reply)
                  (λ _, Ok Demo.mx1_script))
               "s1" "hello" Demo.world0).2 _).
  vm_compute. reflexivity.
Defined.

Lemma retry_loop_judge_disabled E persona mem system_prompt message
    attempt rest st w st' w' :
  JUDGE_ENABLED E = false ->
  retry_loop E persona mem system_prompt message (attempt :: rest) st w
    = (Ok st', w') ->
  ∃ draft,
    chat_backend E (chat_calls w) system_prompt (current_history st) message
      = Ok draft ∧
    final_text st' = JStr draft ∧ assistant_draft st' = Some draft ∧
    verdict st' = "PASS" ∧
    (jr_reason <$> judge_result st') = Some "judge_disabled" ∧
    from_option jr_risk_tags [] (judge_result st') = [] ∧
    chat_calls w' = S (chat_calls w) ∧ judge_calls w' = judge_calls w ∧
    w_db w' = w_db w.
Proof.
  intros Hoff H. cbn [retry_loop] in H.
  rewrite bind_run in H. unfold try_except, ollama_chat at 1 in H.
  destruct (chat_backend E _ _ _ _) as [draft|e] eqn:Hd; [|discriminate].
  exists draft. split; [reflexivity|].
  rewrite bind_run in H. unfold run_judge in H. rewrite Hoff in H.
  cbn in H. injection H as <- <-. cbn. done.
Qed.

(** X15: with the judge disabled a turn that answers drafts once and answers
    with that draft as it is: one call to the chat backend and none to the
    judge, verdict [PASS], reason [judge_disabled], no risk tags. *)
Theorem disabled_judge_answers_first_draft E session_id message w resp w' :
  JUDGE_ENABLED E = false ->
  chat_send_api E session_id message w = (Ok resp, w') ->
  chat_calls w' = S (chat_calls w) ∧
  r_verdict resp = "PASS" ∧
  r_reason resp = Some "judge_disabled" ∧
  r_risk_tags resp = [] ∧
  ∃ system_prompt history draft,
    chat_backend E (chat_calls w) system_prompt history message = Ok draft ∧
    r_assistant resp = JStr draft.
Proof.
  intros Hoff. unfold chat_send_api. intros H.
  apply bind_Ok in H as (s & w0 & H0 & H).
  assert (E0 : chat_calls w0 = chat_calls w).
  { eapply (keeps_run (same chat_calls)); [|exact H0]. frames. }
  rewrite <- E0. clear E0 H0.
  destruct s as [s|]; [|discriminate].
  destruct (PERSONAS E !! s_persona_id s) as [persona|]; [|discriminate].
  assert (Hturn : chat_turn E session_id message (s_persona_id s) persona w0
                  = (Ok resp, w')).
  { destruct persona as [| | | | | |[|]];
      first [discriminate H | exact H]. }
  clear H. unfold chat_turn in Hturn. rename Hturn into H.
  apply bind_Ok in H as (persona_d & w1 & H1 & H).
  apply bind_Ok in H as (mem & w2 & H2 & H).
  apply bind_Ok in H as (user_id & w3 & H3 & H).
  apply bind_Ok in H as (msgs & w4 & H4 & H).
  apply bind_Ok in H as (system_prompt & w5 & H5 & H).
  apply bind_Ok in H as (st & w6 & H6 & H).
  apply bind_Ok in H as (final & w7 & H7 & H).
  apply bind_Ok in H as (reply_id & w8 & H8 & H).
  apply bind_Ok in H as (dbg & w9 & H9 & H).
  apply bind_Ok in H as (em & w10 & H10 & H).
  apply bind_Ok in H as (latest & w11 & H11 & H).
  apply bind_Ok in H as (summary & w12 & H12 & H).
  apply bind_Ok in H as (events & w13 & H13 & H).
  injection H as <- <-.
  cbn [r_assistant r_verdict r_reason r_risk_tags].
  assert (E1 : chat_calls w1 = chat_calls w0).
  { unfold lift in H1. by injection H1 as _ <-. }
  assert (E2 : chat_calls w2 = chat_calls w1).
  { eapply (keeps_run (same chat_calls)); [|exact H2]. frames. }
  assert (E3 : chat_calls w3 = chat_calls w2).
  { eapply (keeps_run (same chat_calls)); [|exact H3]. frames. }
  assert (E4 : chat_calls w4 = chat_calls w3).
  { eapply (keeps_run (same chat_calls)); [|exact H4]. frames. }
  assert (E5 : chat_calls w5 = chat_calls w4).
  { unfold lift in H5. by injection H5 as _ <-. }
  apply (retry_loop_judge_disabled _ _ _ _ _ _ _ _ _ _ _ Hoff) in H6
    as (draft & Hd & Hfinal & Hdraft & Hv & Hreason & Htags & E6 & _).
  assert (Hf : final = JStr draft ∧ chat_calls w7 = chat_calls w6).
  { rewrite Hfinal, Hdraft in H7.
    destruct (negb (truthy (JStr draft))); cbn in H7; by injection H7 as <- <-. }
  destruct Hf as [-> E7].
  assert (E8 : chat_calls w8 = chat_calls w7).
  { eapply (keeps_run (same chat_calls)); [|exact H8]. frames. }
  assert (E9 : chat_calls w9 = chat_calls w8).
  { eapply (keeps_run (same chat_calls)); [|exact H9]. frames. }
  assert (E10 : chat_calls w10 = chat_calls w9).
  { eapply (keeps_run (same chat_calls)); [|exact H10]. frames. }
  assert (E11 : chat_calls w11 = chat_calls w10).
  { eapply (keeps_run (same chat_calls)); [|exact H11]. frames. }
  assert (E12 : chat_calls w12 = chat_calls w11).
  { eapply (keeps_run (same chat_calls)); [|exact H12]. frames. }
  assert (E13 : chat_calls w13 = chat_calls w12).
  { eapply (keeps_run (same chat_calls)); [|exact H13]. frames. }
  rewrite Hv. cbn [String.eqb Ascii.eqb Bool.eqb andb].
  split; [congruence|]. repeat split; try done.
  eexists _, _, draft. split; [|reflexivity].
  rewrite <- E1, <- E2, <- E3, <- E4, <- E5. exact Hd.
Qed.

Lemma disabled_judge_answers_first_draft_witness :
  let E := Demo.env false 6 in
  let resp := Demo.first_response (JStr "draft 0") "PASS" "judge_disabled" in
  chat_calls (chat_send_api E "s1" "hello" Demo.world0).2 = 1%nat ∧
  r_verdict resp = "PASS" ∧
  r_reason resp = Some "judge_disabled" ∧
  r_risk_tags resp = [] ∧
  ∃ system_prompt history draft,
    chat_backend E 0 system_prompt history "hello" = Ok draft ∧
    r_assistant resp = JStr draft.
Proof.
  refine (disabled_judge_answers_first_draft (Demo.env false 6) "s1" "hello"
            Demo.world0
            (Demo.first_response (JStr "draft 0") "PASS" "judge_disabled")
            (chat_send_api (Demo.env false 6) "s1" "hello" Demo.world0).2 _ _).
  - reflexivity.
  - vm_compute. reflexivity.
Defined.

End turn_more.

(* ===================================================================== *)
(** * Further properties of the tools *)
(* ===================================================================== *)

Section alert_extraction.

Import tools.

Lemma validate_alert_valid E alert a :
  validate_alert E alert = Some a -> valid_alert a.
Proof.
  unfold validate_alert. destruct alert as [| | | | | |d]; try discriminate.
  set (title := strip (str_ E (py_or (get_or d "title" JNull) (JStr "")))).
  set (due_at := strip (str_ E (py_or (get_or d "due_at" JNull) (JStr "")))).
  destruct (String.eqb title "" || String.eqb due_at "") eqn:Hempty;
    [discriminate|].
  apply orb_false_iff in Hempty as [Ht%String.eqb_neq Hd%String.eqb_neq].
  intros [= <-]. eexists _, title, due_at. split; [reflexivity|].
  split; [reflexivity|]. split; [exact Ht|]. split; [reflexivity|].
  split; [exact Hd|].
  change (get_or _ "repeat_rule" JNull) with
    (if truthy (get_or d "repeat_rule" JNull)
        && negb (in_strs (get_or d "repeat_rule" JNull) ["DAILY"; "WEEKLY"])
     then JNull else get_or d "repeat_rule" JNull).
  destruct (truthy (get_or d "repeat_rule" JNull)) eqn:Hr;
    destruct (in_strs (get_or d "repeat_rule" JNull) ["DAILY"; "WEEKLY"])
      eqn:Hin; cbn [andb negb]; rewrite ?Hr, ?Hin; done.
Qed.

Lemma alerts_of_reply_valid E raw found :
  alerts_of_reply E raw = Ok found ->
  (length found <= 2)%nat ∧ Forall valid_alert found.
Proof.
  unfold alerts_of_reply.
  destruct (_extract_json_from_response E raw) as [result|e];
    cbn [mbind Result_bind]; [|discriminate].
  assert (Hnil : ∀ l : list json, Ok [] = Ok l ->
                   (length l <= 2)%nat ∧ Forall valid_alert l).
  { intros l [= <-]. split; [cbn; lia | constructor]. }
  destruct result as [[| | | | | |[|kv d]]|]; try apply Hnil.
  destruct (get_or (kv :: d) "create" (JList [])) as [| | | | |l|];
    try apply Hnil.
  intros [= <-]. split.
  - etransitivity; [apply omap_length|]. rewrite length_take. lia.
  - apply omap_Forall. intros x y. apply validate_alert_valid.
Qed.

(** X16: [extract_alerts] always answers, after exactly one call to the
    backend and without touching the database: with at most two alerts, each
    with a title and a due time that are not empty and a repeat rule that is
    [DAILY], [WEEKLY] or nothing; a failed call or an unusable reply gives
    no alert. *)
Theorem extracted_alerts_are_valid E persona mem recent final w :
  ∃ found w',
    extract_alerts E persona mem recent final w = (Ok found, w') ∧
    w_db w' = w_db w ∧ alert_calls w' = S (alert_calls w) ∧
    (length found <= 2)%nat ∧ Forall valid_alert found ∧
    (∀ e, alerts_backend E (alert_calls w) persona (take 20 mem) recent final
          = Raise e -> found = []).
Proof.
  unfold extract_alerts, try_except. rewrite bind_run.
  unfold _ollama_chat at 1.
  destruct (alerts_backend E _ _ _ _ _) as [raw|e].
  - unfold lift. destruct (alerts_of_reply E raw) as [found|e] eqn:Hr.
    + apply alerts_of_reply_valid in Hr as [Hlen Hall].
      eexists _, _. split; [reflexivity|]. cbn. by repeat split.
    + eexists _, _. split; [reflexivity|]. cbn.
      repeat split; first [done | lia | constructor].
  - eexists _, _. split; [reflexivity|]. cbn.
    repeat split; first [done | lia | constructor].
Qed.

Lemma extracted_alerts_are_valid_witness :
  ∃ found w',
    extract_alerts (Demo.env true 6) Demo.coach [] [] (JStr "ok") Demo.world0
      = (Ok found, w') ∧
    (length found <= 2)%nat ∧ Forall valid_alert found.
Proof.
  destruct (extracted_alerts_are_valid (Demo.env true 6) Demo.coach [] []
              (JStr "ok") Demo.world0)
    as (found & w' & Hrun & _ & _ & Hlen & Hall & _).
  by exists found, w'.
Defined.

End alert_extraction.

Section alert_creation.

Import tools.

#[local] Instance stored_alerts_observation : Observation stored_alerts.
Proof. intros w w' H _. unfold stored_alerts. by rewrite H. Qed.

#[local] Instance alerts_added_preorder scope session_id :
  PreOrder (alerts_added scope session_id).
Proof.
  split.
  - intros w. split; [done|]. intros id row H1 H2. congruence.
  - intros a b c [Hab1 Hab2] [Hbc1 Hbc2]. split; [by eauto|].
    intros id row Hc Ha.
    destruct (stored_alerts b !! id) as [row'|] eqn:Hb.
    + pose proof (Hbc1 _ _ Hb) as Hc'. rewrite Hc in Hc'.
      injection Hc' as ->. by eapply Hab2.
    + by eapply Hbc2.
Qed.

Lemma keeps_added_of_same {A} scope session_id (m : M A) :
  keeps (same stored_alerts) m -> keeps (alerts_added scope session_id) m.
Proof.
  intros H w. unfold alerts_added. rewrite (H w). split; [done|].
  intros id row H1 H2. congruence.
Qed.

Lemma alert_confidence_range E confidence c :
  alert_confidence E confidence = Ok c -> fle 0 c ∧ fle c 1.
Proof.
  unfold alert_confidence.
  destruct (memory_extractor.py_float E confidence) as [f|[?|cls msg]].
  - intros [= <-]. apply clamp_range.
  - discriminate.
  - destruct (String.eqb cls "ValueError") eqn:Hv.
    + apply String.eqb_eq in Hv as ->. intros [= <-]. by split.
    + destruct (String.eqb cls "TypeError") eqn:Ht.
      * apply String.eqb_eq in Ht as ->. intros [= <-]. by split.
      * intros H. exfalso. revert H Hv Ht.
        repeat match goal with
               | |- context [match ?x with _ => _ end] => destruct x
               end; cbn; congruence.
Qed.

Lemma keeps_create_one E session_id scope alert_data :
  keeps (alerts_added scope session_id) (create_one E session_id scope alert_data).
Proof.
  intros w. unfold create_one. rewrite bind_run. unfold lift at 1.
  destruct (as_dict alert_data) as [d|e]; [|reflexivity].
  set (title := strip (str_ E (py_or (get_or d "title" JNull) (JStr "")))).
  set (body := strip (str_ E (py_or (get_or d "body" JNull) (JStr "")))).
  set (due_at := strip (str_ E (py_or (get_or d "due_at" JNull) (JStr "")))).
  destruct (String.eqb title "" || String.eqb due_at "") eqn:Hempty;
    [reflexivity|].
  apply orb_false_iff in Hempty as [Ht%String.eqb_neq Hd%String.eqb_neq].
  rewrite bind_run. unfold lift at 1.
  destruct (alert_confidence E _) as [c|e] eqn:Hc; [|reflexivity].
  apply alert_confidence_range in Hc as [Hc0 Hc1].
  rewrite bind_run.
  pose proof (create_alert_run E scope title body (Some due_at) c
                (if String.eqb scope "session" then session_id else None)
                (get_or d "source_message_id" JNull) w) as Hrun.
  destruct (db.create_alert E _ _ _ _ _ _ _ w) as [[alert_id|e] w'];
    cbn [snd mret M_ret].
  - destruct Hrun as (Hnew & _ & src' & Hw'). split.
    + intros id row Hid. rewrite Hw'.
      rewrite lookup_insert_ne; [done|]. intros <-. congruence.
    + intros id row Hid Hnone. rewrite Hw' in Hid.
      destruct (decide (alert_id = id)) as [<-|Hne].
      * rewrite lookup_insert_eq in Hid. injection Hid as <-.
        unfold created_alert. cbn. repeat split; eauto.
      * rewrite lookup_insert_ne in Hid by done. congruence.
  - unfold alerts_added. rewrite Hrun. split; [done|]. congruence.
Qed.

Lemma create_each_run E session_id scope alerts evs w :
  ∃ out w',
    create_each E session_id scope alerts evs w = (Ok out, w') ∧
    (length out <= length evs + length alerts)%nat ∧
    alerts_added scope session_id w w'.
Proof.
  revert evs w. induction alerts as [|a alerts IH]; intros evs w.
  - eexists _, _. split; [reflexivity|]. split; [cbn; lia | reflexivity].
  - cbn [create_each]. rewrite bind_run. unfold try_except.
    rewrite bind_run.
    pose proof (keeps_create_one E session_id scope a w) as Hone.
    destruct (create_one E session_id scope a w) as [[r|e] w1]; cbn [snd] in Hone.
    + cbn [mret M_ret].
      destruct (IH (evs ++ from_option (λ e, [e]) [] r) w1)
        as (out & w' & -> & Hlen & Hadd).
      eexists _, _. split; [reflexivity|]. split.
      * rewrite length_app in Hlen. destruct r; cbn in *; lia.
      * by etransitivity.
    + cbn [mret M_ret].
      destruct (IH evs w1) as (out & w' & -> & Hlen & Hadd).
      eexists _, _. split; [reflexivity|]. split; [cbn; lia|].
      by etransitivity.
Qed.

Lemma alert_creation_run E alerts session_id scope w :
  ∃ events w',
    execute_alert_creation E alerts session_id scope w = (Ok events, w') ∧
    (length events <= 2)%nat ∧
    alerts_added scope session_id w w'.
Proof.
  unfold execute_alert_creation.
  destruct (create_each_run E session_id scope (take 2 alerts) [] w)
    as (out & w' & Hrun & Hlen & Hadd).
  exists out, w'. split; [exact Hrun|]. split; [|exact Hadd].
  rewrite length_take in Hlen. cbn [length] in Hlen. lia.
Qed.

(** X17: [execute_alert_creation] always answers, with at most two events
    whatever it is handed; it leaves every alert that existed as it was, and
    each alert it adds is active, in the scope asked for, with a title and a
    due time that are not empty and a confidence in the unit interval. *)
Theorem alert_creation_is_contained E alerts session_id scope w :
  ∃ events w',
    execute_alert_creation E alerts session_id scope w = (Ok events, w') ∧
    (length events <= 2)%nat ∧
    alerts_added scope session_id w w'.
Proof. apply alert_creation_run. Qed.

(** X18: the alerts tool never fails and reports at most one event; it
    leaves the stored conversation and every existing alert as they were,
    and what it adds are active alerts of the session of the turn. *)
Theorem alerts_tool_is_contained E ctx w :
  ∃ events w',
    AlertsTool_run E ctx w = (Ok (Some events), w') ∧
    (length events <= 1)%nat ∧
    stored_messages w' = stored_messages w ∧
    alerts_added "session" (Some (ctx_session_id ctx)) w w'.
Proof.
  unfold AlertsTool_run. rewrite bind_run.
  pose proof (keeps_extract_alerts stored_alerts E (ctx_persona ctx)
                (ctx_memory_items ctx) (ctx_recent_messages ctx)
                (ctx_assistant_final ctx) w) as Ha.
  pose proof (keeps_extract_alerts stored_messages E (ctx_persona ctx)
                (ctx_memory_items ctx) (ctx_recent_messages ctx)
                (ctx_assistant_final ctx) w) as Hm.
  destruct (extract_alerts E _ _ _ _ w) as [[found|e] w1] eqn:Hx;
    unfold same in Ha, Hm; cbn [snd] in Ha, Hm.
  - assert (Hadd1 : alerts_added "session" (Some (ctx_session_id ctx)) w w1).
    { unfold alerts_added. rewrite Ha. split; [done|]. congruence. }
    destruct found as [|a found].
    { eexists _, _. split; [reflexivity|]. cbn. split; [lia|]. done. }
    rewrite bind_run.
    pose proof (keeps_create_each stored_messages E
                  (create_alert_messages E) (Some (ctx_session_id ctx))
                  "session" (take 2 (a :: found)) [] w1) as Hm2.
    destruct (alert_creation_run E (a :: found) (Some (ctx_session_id ctx))
                "session" w1) as (created & w2 & Hrun & _ & Hadd2).
    unfold execute_alert_creation in Hrun |- *. rewrite Hrun in Hm2 |- *.
    unfold same in Hm2. cbn [snd] in Hm2.
    assert (Hadd : alerts_added "session" (Some (ctx_session_id ctx)) w w2)
      by (by etransitivity).
    destruct created as [|c created];
      (eexists _, _; split; [reflexivity|]; cbn [length];
       split; [lia|]; split; [congruence | exact Hadd]).
  - exfalso. unfold extract_alerts, try_except in Hx.
    match type of Hx with
    | context [match ?x with _ => _ end] => destruct x as [[?|?] ?]
    end; discriminate.
Qed.

End alert_creation.

Section registry.

Import tools.

Lemma dict_lookup_set {V} (k : string) (v : V) d name :
  dict_lookup name (dict_set k v d) =
  if decide (name = k) then Some v else dict_lookup name d.
Proof.
  induction d as [|[k' v'] d IH]; cbn [dict_set dict_lookup].
  - destruct (decide (name = k)) as [->|Hne].
    + by rewrite String.eqb_refl.
    + rewrite (proj2 (String.eqb_neq k name)); [done | congruence].
  - destruct (String.eqb k' k) eqn:Hk; cbn [dict_lookup].
    + apply String.eqb_eq in Hk as ->.
      destruct (decide (name = k)) as [->|Hne].
      * by rewrite String.eqb_refl.
      * by rewrite (proj2 (String.eqb_neq k name)) by congruence.
    + destruct (String.eqb k' name) eqn:Hn.
      * apply String.eqb_eq in Hn as ->. apply String.eqb_neq in Hk.
        by rewrite decide_False.
      * exact IH.
Qed.

Lemma dict_set_keys {V} (k : string) (v : V) d :
  map fst (dict_set k v d) =
  if bool_decide (k ∈ map fst d) then map fst d else map fst d ++ [k].
Proof.
  induction d as [|[k' v'] d IH]; cbn [dict_set map fst].
  - rewrite bool_decide_eq_false_2; [done | apply not_elem_of_nil].
  - destruct (String.eqb k' k) eqn:Hk; cbn [map fst].
    + apply String.eqb_eq in Hk as ->.
      rewrite bool_decide_eq_true_2; [done | by left].
    + apply String.eqb_neq in Hk. rewrite IH.
      destruct (bool_decide (k ∈ map fst d)) eqn:Hin.
      * apply bool_decide_eq_true in Hin.
        rewrite bool_decide_eq_true_2; [done | by right].
      * apply bool_decide_eq_false in Hin.
        rewrite bool_decide_eq_false_2; [done|].
        intros [?|?]%elem_of_cons; congruence.
Qed.

(** X19: register, then look up: the registry answers a registered tool
    under its name and every other name as before; a tool registered under a
    name that is taken replaces the holder of the name, in its place, so
    that names stay unique and the number of tools grows only with a new
    name. *)
Theorem register_replaces_by_name t reg name :
  get name (register t reg) =
    (if decide (name = tool_name t) then Some t else get name reg) ∧
  (NoDup (map fst (_tools reg)) -> NoDup (map fst (_tools (register t reg)))) ∧
  length (list_tools (register t reg)) =
    (if bool_decide (tool_name t ∈ map fst (_tools reg))
     then length (list_tools reg) else S (length (list_tools reg))).
Proof.
  unfold get, register, list_tools. cbn [_tools]. split; [|split].
  - apply dict_lookup_set.
  - intros Hnd. rewrite dict_set_keys.
    destruct (bool_decide _) eqn:Hin; [done|].
    apply bool_decide_eq_false in Hin.
    apply NoDup_app. split; [done|]. split; [|apply NoDup_singleton].
    intros x Hx ->%list_elem_of_singleton. done.
  - rewrite !length_map. rewrite <- !(length_map fst), dict_set_keys.
    destruct (bool_decide _); [done|]. rewrite length_app. cbn. lia.
Qed.

Lemma register_replaces_by_name_witness :
  get "B" Demo.registry_abc = Some Demo.tool_b ∧
  NoDup (map fst (_tools Demo.registry_abc)).
Proof.
  split.
  - reflexivity.
  - apply (register_replaces_by_name Demo.tool_c
             (register Demo.tool_b
                (register Demo.tool_a {| _tools := [] |})) "C").
    apply (register_replaces_by_name Demo.tool_b
             (register Demo.tool_a {| _tools := [] |}) "B").
    apply (register_replaces_by_name Demo.tool_a {| _tools := [] |} "A").
    apply NoDup_nil_2.
Defined.

End registry.

Section runner_more.

Import tools.

Lemma run_tools_from_all_disabled ts ctx em ev w :
  (∀ t, t ∈ ts -> em !! tool_id t = Some false) ->
  run_tools_from ts ctx em ev w = (Ok (ev ++ map skipped_event ts), w).
Proof.
  revert ev. induction ts as [|t ts IH]; intros ev Hoff.
  - cbn. by rewrite app_nil_r.
  - rewrite run_tools_from_disabled.
    + rewrite IH by (intros u Hu; apply Hoff; by right).
      cbn [map]. by rewrite <- app_assoc.
    + rewrite (Hoff t) by (by left). reflexivity.
Qed.

(** X20: [run_tools] always answers with a list of events, whatever the
    tools do; and when every registered tool is switched off it runs none of
    them: the world is untouched, and the events are, in registry order, one
    per tool, the event [skipped] with the tool's id, the title [Tool
    disabled], a message that names the tool and no data. *)
Theorem run_tools_never_fails registry ctx em w :
  (∃ events w', run_tools registry ctx em w = (Ok events, w')) ∧
  ((∀ t, t ∈ list_tools registry -> em !! tool_id t = Some false) ->
   run_tools registry ctx em w =
   (Ok (map (λ t, JDict [("tool_id", JStr (tool_id t));
                         ("event", JStr "skipped");
                         ("title", JStr "Tool disabled");
                         ("message",
                          JStr (tool_id t +:+ " is disabled for this session."));
                         ("data", JDict [])])
          (list_tools registry)), w)).
Proof.
  split; [apply run_tools_from_total|].
  intros Hoff. unfold run_tools. by rewrite run_tools_from_all_disabled.
Qed.

Lemma run_tools_never_fails_witness :
  run_tools Demo.registry_abc Demo.ctx0
    {[ "a" := false; "b" := false; "c" := false ]} Demo.world0 =
  (Ok [JDict [("tool_id", JStr "a"); ("event", JStr "skipped");
              ("title", JStr "Tool disabled");
              ("message", JStr "a is disabled for this session.");
              ("data", JDict [])];
       JDict [("tool_id", JStr "b"); ("event", JStr "skipped");
              ("title", JStr "Tool disabled");
              ("message", JStr "b is disabled for this session.");
              ("data", JDict [])];
       JDict [("tool_id", JStr "c"); ("event", JStr "skipped");
              ("title", JStr "Tool disabled");
              ("message", JStr "c is disabled for this session.");
              ("data", JDict [])]],
   Demo.world0).
Proof.
  apply (run_tools_never_fails Demo.registry_abc Demo.ctx0
           {[ "a" := false; "b" := false; "c" := false ]} Demo.world0).
  intros t Ht. apply list_elem_of_In in Ht. cbn in Ht.
  destruct Ht as [<-|[<-|[<-|[]]]]; reflexivity.
Defined.

End runner_more.

(* ===================================================================== *)
(** * Tool settings *)
(* ===================================================================== *)

Section tool_settings.

Import db.

(** X21: the enabled map answers exactly the tools it was asked about, each
    with the session's override if there is one, else the global override if
    there is one, else enabled; it reads and writes nothing else. *)
Theorem enabled_map_resolves_overrides session_id tool_ids w :
  ∃ em,
    get_effective_tool_enabled_map session_id tool_ids w = (Ok em, w) ∧
    ∀ tool,
      em !! tool =
      if decide (tool ∈ tool_ids)
      then Some (effective_enabled session_id (w_db w) tool)
      else None.
Proof.
  eexists. split; [reflexivity|]. intros tool.
  rewrite (enabled_map_lookup
             (λ tid, default true
                       (apply_settings _ (apply_settings _ _) !! tid))).
  destruct (decide (tool ∈ tool_ids)) as [Hin|Hnin]; [|reflexivity].
  f_equal.
  rewrite !apply_settings_lookup, (enabled_map_lookup (λ _, true)).
  rewrite decide_True by exact Hin.
  unfold effective_enabled, session_settings, global_settings.
  destruct (override (filter _ _) tool) as [b|]; [reflexivity|].
  by destruct (override (filter _ _) tool).
Qed.

Lemma setting_match_inv scope tool session_id r :
  setting_match scope tool session_id r = true ->
  ts_scope r = scope ∧ ts_tool_id r = tool ∧ ts_session_id r = session_id.
Proof.
  unfold setting_match. rewrite !andb_true_iff.
  intros [[Hs%String.eqb_eq Hk%String.eqb_eq] Hq%sql_match_eq]. done.
Qed.

Lemma setting_match_self r :
  setting_match (ts_scope r) (ts_tool_id r) (ts_session_id r) r = true.
Proof.
  unfold setting_match. by rewrite !String.eqb_refl, sql_match_refl.
Qed.

(** What a completed upsert did to the table. *)
Lemma upsert_tool_setting_run E scope tool enabled session_id w setting_id w' :
  upsert_tool_setting E scope tool enabled session_id w = (Ok setting_id, w') ->
  let rows := tool_settings (w_db w) in
  match head (settings_for scope session_id tool (w_db w)) with
  | Some row =>
      setting_id = ts_id row ∧
      tool_settings (w_db w') =
        map (λ r, if String.eqb (ts_id r) (ts_id row)
                  then update_setting_row enabled (now_of E w) r else r) rows
  | None =>
      tool_settings (w_db w') =
        rows ++ [{| ts_id := setting_id; ts_scope := scope;
                    ts_session_id := session_id; ts_tool_id := tool;
                    ts_enabled := enabled; ts_created_at := now_of E w;
                    ts_updated_at := now_of E w |}]
  end.
Proof.
  unfold upsert_tool_setting, settings_for, fetchone, now_of. intros H.
  do 3 (rewrite bind_run in H; cbn [new_uuid _utc_now get_db w_db] in H).
  destruct (head (filter _ (tool_settings (w_db w)))) as [row|].
  - rewrite bind_run in H. cbn in H. injection H as <- <-. by split.
  - destruct (negb _); [discriminate|].
    destruct (existsb _ _); [discriminate|].
    rewrite bind_run in H. cbn in H. by injection H as <- <-.
Qed.

Lemma settings_for_after_upsert E scope tool enabled session_id w setting_id w'
    scope' session_id' tool' :
  upsert_tool_setting E scope tool enabled session_id w = (Ok setting_id, w') ->
  (length (settings_for scope session_id tool (w_db w)) <= 1)%nat ->
  length (settings_for scope' session_id' tool' (w_db w')) =
  if decide ((scope', session_id', tool') = (scope, session_id, tool))
  then 1%nat
  else length (settings_for scope' session_id' tool' (w_db w)).
Proof.
  intros Hrun Hone.
  pose proof (upsert_tool_setting_run _ _ _ _ _ _ _ _ Hrun) as Hspec.
  cbv zeta in Hspec. unfold settings_for in *.
  destruct (filter _ (tool_settings (w_db w))) as [|row rest] eqn:Hf;
    cbn [head] in Hspec.
  - rewrite Hspec, filter_app, length_app, filter_cons, filter_nil.
    destruct (decide ((scope', session_id', tool') = _)) as [[= -> -> ->]|Hne].
    + rewrite Hf. rewrite decide_True; [reflexivity|].
      apply (setting_match_self
               {| ts_id := setting_id; ts_scope := scope;
                  ts_session_id := session_id; ts_tool_id := tool;
                  ts_enabled := enabled; ts_created_at := now_of E w;
                  ts_updated_at := now_of E w |}).
    + destruct (decide (setting_match scope' tool' session_id' _ = true))
        as [Hm|Hm]; [|cbn; lia].
      apply setting_match_inv in Hm. cbn in Hm.
      destruct Hm as (-> & -> & ->). by destruct Hne.
  - destruct Hspec as [_ Hspec]. rewrite Hspec.
    rewrite filter_map_stable, length_map.
    2:{ intros r. destruct (String.eqb (ts_id r) (ts_id row)); done. }
    destruct (decide ((scope', session_id', tool') = _)) as [[= -> -> ->]|Hne];
      [|reflexivity].
    rewrite Hf in *. cbn in *. lia.
Qed.

Lemma upserted_setting E scope tool enabled session_id w setting_id w' :
  (length (settings_for scope session_id tool (w_db w)) <= 1)%nat ->
  upsert_tool_setting E scope tool enabled session_id w = (Ok setting_id, w') ->
  ∃ row, settings_for scope session_id tool (w_db w') = [row]
         ∧ ts_id row = setting_id ∧ ts_enabled row = enabled.
Proof.
  intros Hone Hrun.
  pose proof (upsert_tool_setting_run _ _ _ _ _ _ _ _ Hrun) as Hspec.
  cbv zeta in Hspec. unfold settings_for in *.
  destruct (filter _ (tool_settings (w_db w))) as [|row rest] eqn:Hf;
    cbn [head] in Hspec.
  - rewrite Hspec, filter_app, Hf, filter_cons, filter_nil.
    rewrite decide_True.
    + eexists. split; [reflexivity|]. by cbn.
    + apply (setting_match_self
               {| ts_id := setting_id; ts_scope := scope;
                  ts_session_id := session_id; ts_tool_id := tool;
                  ts_enabled := enabled; ts_created_at := now_of E w;
                  ts_updated_at := now_of E w |}).
  - destruct Hspec as [-> Hspec]. rewrite Hspec.
    rewrite filter_map_stable.
    2:{ intros r. destruct (String.eqb (ts_id r) (ts_id row)); done. }
    rewrite Hf. destruct rest as [|? ?]; [|cbn in Hone; lia].
    cbn [map]. rewrite String.eqb_refl.
    eexists. split; [reflexivity|]. by cbn.
Qed.

(** X22: the invariant of the table of settings: when no (scope, session_id,
    tool_id) has more than one row, a completed upsert keeps it so, and
    leaves exactly one row for its own triple. *)
Theorem upsert_tool_setting_keeps_one_per_key E scope tool enabled session_id
    w setting_id w' :
  one_setting_per_key (w_db w) ->
  upsert_tool_setting E scope tool enabled session_id w = (Ok setting_id, w') ->
  one_setting_per_key (w_db w') ∧
  length (settings_for scope session_id tool (w_db w')) = 1%nat.
Proof.
  intros Hinv Hrun. split.
  - intros scope' session_id' tool'.
    rewrite (settings_for_after_upsert _ _ _ _ _ _ _ _ _ _ _ Hrun (Hinv _ _ _)).
    destruct (decide _); [lia | apply Hinv].
  - rewrite (settings_for_after_upsert _ _ _ _ _ _ _ _ _ _ _ Hrun (Hinv _ _ _)).
    by rewrite decide_True.
Qed.

Lemma upsert_tool_setting_keeps_one_per_key_witness :
  let E := Demo.env true 6 in
  let w' := (upsert_tool_setting E "session" "alerts" false (Some "s1")
               Demo.world0).2 in
  one_setting_per_key (w_db w') ∧
  length (settings_for "session" (Some "s1") "alerts" (w_db w')) = 1%nat.
Proof.
  refine (upsert_tool_setting_keeps_one_per_key (Demo.env true 6) "session"
            "alerts" false (Some "s1") Demo.world0 "uuid-0"
            (upsert_tool_setting (Demo.env true 6) "session" "alerts" false
               (Some "s1") Demo.world0).2 _ _).
  - intros scope session_id tool. cbn. lia.
  - reflexivity.
Defined.

Lemma session_rows_for_tool session_id tool d :
  filter (λ r, ts_tool_id r = tool) (session_settings session_id d) =
  settings_for "session" (Some session_id) tool d.
Proof.
  unfold session_settings, settings_for.
  induction (tool_settings d) as [|r l IH]; [reflexivity|].
  rewrite !(filter_cons _ r).
  assert (Hiff : setting_match "session" tool (Some session_id) r = true <->
                 (String.eqb (ts_scope r) "session"
                  && sql_eq (ts_session_id r) (Some session_id)) = true
                 ∧ ts_tool_id r = tool).
  { unfold setting_match. rewrite !andb_true_iff, !String.eqb_eq.
    assert ((sql_is (ts_session_id r) (Some session_id)
             || sql_eq (ts_session_id r) (Some session_id)) = true <->
            sql_eq (ts_session_id r) (Some session_id) = true) as ->.
    { destruct (ts_session_id r) as [x|]; cbn; [|done].
      by rewrite orb_diag. }
    tauto. }
  destruct (decide ((String.eqb (ts_scope r) "session"
                     && sql_eq (ts_session_id r) (Some session_id)) = true))
    as [Hs|Hs].
  - rewrite filter_cons.
    destruct (decide (ts_tool_id r = tool)) as [Ht|Ht].
    + rewrite decide_True by (apply Hiff; done). by rewrite IH.
    + rewrite decide_False by (intros [_ ?]%Hiff; done). exact IH.
  - rewrite decide_False by (intros [? _]%Hiff; done). exact IH.
Qed.

(** X23: upsert, then resolve: a session override that was just written is
    what the enabled map of that session answers for the tool, whatever the
    global setting says. *)
Theorem session_setting_round_trip E tool enabled session_id w setting_id w1
    tool_ids :
  (length (settings_for "session" (Some session_id) tool (w_db w)) <= 1)%nat ->
  upsert_tool_setting E "session" tool enabled (Some session_id) w
    = (Ok setting_id, w1) ->
  tool ∈ tool_ids ->
  ∃ em,
    get_effective_tool_enabled_map session_id tool_ids w1 = (Ok em, w1) ∧
    em !! tool = Some enabled.
Proof.
  intros Hone Hrun Hin.
  destruct (upserted_setting _ _ _ _ _ _ _ _ Hone Hrun)
    as (row & Hrows & _ & Hen).
  destruct (effective_enabled_map session_id tool_ids w1 tool Hin)
    as (em & Hem & Hlook).
  exists em. split; [exact Hem|]. rewrite Hlook. f_equal.
  unfold effective_enabled, override.
  rewrite session_rows_for_tool, Hrows. cbn. exact Hen.
Qed.

Lemma session_setting_round_trip_witness :
  let E := Demo.env true 6 in
  let w1 := (upsert_tool_setting E "session" "alerts" false (Some "s1")
               Demo.world0).2 in
  ∃ em,
    get_effective_tool_enabled_map "s1" ["alerts"] w1 = (Ok em, w1) ∧
    em !! "alerts" = Some false.
Proof.
  refine (session_setting_round_trip (Demo.env true 6) "alerts" false "s1"
            Demo.world0 "uuid-0"
            (upsert_tool_setting (Demo.env true 6) "session" "alerts" false
               (Some "s1") Demo.world0).2 ["alerts"] _ _ _).
  - cbn. lia.
  - reflexivity.
  - by left.
Defined.

End tool_settings.

(* ===================================================================== *)
(** * Sessions and the summary endpoint *)
(* ===================================================================== *)

Section sessions.

Import db main.

(** X24: create, then look up: [POST /sessions] refuses a persona it does
    not know with 400 and changes nothing; otherwise the id it answers with
    was not in use, the session is found under it with the persona asked for
    and the time of the call, and every other session is as it was. *)
Theorem created_session_is_found E persona_id w :
  (PERSONAS E !! persona_id = None ->
   create_session_api E persona_id w =
   (Raise (HTTPException 400 "Invalid persona_id"), w)) ∧
  (∀ session_id w',
     create_session_api E persona_id w = (Ok session_id, w') ->
     is_Some (PERSONAS E !! persona_id) ∧
     stored_sessions w !! session_id = None ∧
     (get_session session_id w').1 =
       Ok (Some {| s_persona_id := persona_id;
                   s_created_at := now_of E w |}) ∧
     (∀ sid, sid ≠ session_id ->
             stored_sessions w' !! sid = stored_sessions w !! sid) ∧
     stored_messages w' = stored_messages w).
Proof.
  unfold create_session_api. split.
  - by intros ->.
  - intros session_id w' H.
    destruct (PERSONAS E !! persona_id) as [p|]; [|discriminate].
    split; [by eexists|].
    unfold create_session, now_of, stored_sessions in *.
    do 3 (rewrite bind_run in H; cbn [new_uuid _utc_now get_db w_db] in H).
    destruct (sessions (w_db w) !! uuid4 E (uuid_calls w)) eqn:Hnew;
      [discriminate|].
    rewrite bind_run in H. cbn in H. injection H as <- <-.
    split; [exact Hnew|]. cbn. split; [|split; [|reflexivity]].
    + unfold get_session. rewrite bind_run. cbn.
      by rewrite lookup_insert_eq.
    + intros sid Hne. by rewrite lookup_insert_ne.
Qed.

Lemma created_session_is_found_witness :
  let E := Demo.env true 6 in
  create_session_api E "nobody" Demo.world0 =
    (Raise (HTTPException 400 "Invalid persona_id"), Demo.world0) ∧
  (get_session "uuid-0" (create_session_api E "coach" Demo.world0).2).1 =
    Ok (Some {| s_persona_id := "coach";
                s_created_at := now_of E Demo.world0 |}).
Proof.
  split.
  - apply (created_session_is_found (Demo.env true 6) "nobody" Demo.world0).
    reflexivity.
  - apply (proj2 (created_session_is_found (Demo.env true 6) "coach"
                    Demo.world0)
             "uuid-0"
             (create_session_api (Demo.env true 6) "coach" Demo.world0).2).
    reflexivity.
Defined.

(** X25: [GET /sessions/{id}/summary] answers 404 for a session it does not
    find; otherwise it reports the stored summary and the message count of
    the session, flags an update when the count is a multiple of 6, and
    announces the next update at the least multiple of 6 above the count. It
    writes nothing. *)
Theorem summary_endpoint_counts_by_six session_id w :
  (stored_sessions w !! session_id = None ->
   session_summary_api session_id w =
   (Raise (HTTPException 404 "Session not found"), w)) ∧
  (∀ s, stored_sessions w !! session_id = Some s ->
     ∃ info,
       session_summary_api session_id w = (Ok info, w) ∧
       si_session info = s ∧
       si_summary info = stored_summaries w !! session_id ∧
       si_message_count info = message_count session_id w ∧
       (si_should_update_at_next info = true <->
        (message_count session_id w mod 6 = 0)%Z) ∧
       (message_count session_id w < si_next_update_at info
        <= message_count session_id w + 6)%Z ∧
       (si_next_update_at info mod 6 = 0)%Z).
Proof.
  unfold session_summary_api, stored_sessions, stored_summaries.
  split.
  - intros Hnone. rewrite bind_run.
    change (get_session session_id w)
      with (Ok (sessions (w_db w) !! session_id), w).
    by rewrite Hnone.
  - intros s Hs. rewrite bind_run.
    change (get_session session_id w)
      with (Ok (sessions (w_db w) !! session_id), w).
    rewrite Hs.
    rewrite bind_run, get_session_summary_run.
    rewrite bind_run, count_messages_run.
    eexists. split; [reflexivity|].
    cbn [si_session si_summary si_message_count si_should_update_at_next
         si_next_update_at].
    set (n := message_count session_id w).
    repeat split; try done.
    + by intros ?%Z.eqb_eq.
    + by intros ?%Z.eqb_eq.
    + pose proof (Z.mod_pos_bound n 6). pose proof (Z.div_mod n 6). lia.
    + pose proof (Z.mod_pos_bound n 6). pose proof (Z.div_mod n 6). lia.
    + apply Z.mod_mul. lia.
Qed.

Lemma summary_endpoint_counts_by_six_witness :
  ∃ info,
    session_summary_api "s1" (Demo.world_with (Demo.conversation 7))
      = (Ok info, Demo.world_with (Demo.conversation 7)) ∧
    si_message_count info = 7%Z ∧ si_next_update_at info = 12%Z.
Proof.
  destruct (summary_endpoint_counts_by_six "s1"
              (Demo.world_with (Demo.conversation 7))) as [_ H].
  destruct (H {| s_persona_id := "coach";
                 s_created_at := "2026-01-01T00:00:00Z" |} eq_refl)
    as (info & Hrun & _ & _ & Hcount & _).
  exists info. split; [exact Hrun|].
  injection Hrun as <-. split; reflexivity.
Defined.

End sessions.

(* ===================================================================== *)
(** * The footprint of the pipeline *)
(* ===================================================================== *)

Section pipeline_footprint.

Import pipeline.

#[local] Instance stored_sessions_observation : Observation stored_sessions.
Proof. intros w w' H _. unfold stored_sessions. by rewrite H. Qed.

#[local] Instance stored_settings_observation : Observation stored_settings.
Proof. intros w w' H _. unfold stored_settings. by rewrite H. Qed.

#[local] Instance stored_alerts_observation' : Observation stored_alerts.
Proof. intros w w' H _. unfold stored_alerts. by rewrite H. Qed.

#[local] Instance other_summaries_observation session_id :
  Observation (λ w, delete session_id (stored_summaries w)).
Proof. intros w w' H _. unfold stored_summaries. by rewrite H. Qed.

Ltac frame_table :=
  intros w;
  unfold same, stored_sessions, stored_alerts, stored_settings,
    stored_summaries;
  repeat first
    [ rewrite bind_run
    | progress cbn [db.new_uuid db._utc_now get_db put_db lift raise
                    db.IntegrityError fst snd w_db chat_calls set_db
                    sessions alerts tool_settings session_summaries
                    db.set_memory_items db.set_session_summaries]
    | match goal with
      | |- context [match ?x with _ => _ end] => destruct x
      end ];
  try reflexivity.

Lemma upsert_memory_item_sessions E scope key value conf session_id src :
  keeps (same stored_sessions)
    (db.upsert_memory_item E scope key value conf session_id src).
Proof. unfold db.upsert_memory_item, db.fetchone. frame_table. Qed.

Lemma upsert_memory_item_alerts E scope key value conf session_id src :
  keeps (same stored_alerts)
    (db.upsert_memory_item E scope key value conf session_id src).
Proof. unfold db.upsert_memory_item, db.fetchone. frame_table. Qed.

Lemma upsert_memory_item_settings E scope key value conf session_id src :
  keeps (same stored_settings)
    (db.upsert_memory_item E scope key value conf session_id src).
Proof. unfold db.upsert_memory_item, db.fetchone. frame_table. Qed.

Lemma upsert_memory_item_other_summaries E sid scope key value conf
    session_id src :
  keeps (same (λ w, delete sid (stored_summaries w)))
    (db.upsert_memory_item E scope key value conf session_id src).
Proof. unfold db.upsert_memory_item, db.fetchone. frame_table. Qed.

Lemma upsert_session_summary_sessions E session_id summary open_loops :
  keeps (same stored_sessions)
    (db.upsert_session_summary E session_id summary open_loops).
Proof. unfold db.upsert_session_summary. frame_table. Qed.

Lemma upsert_session_summary_alerts E session_id summary open_loops :
  keeps (same stored_alerts)
    (db.upsert_session_summary E session_id summary open_loops).
Proof. unfold db.upsert_session_summary. frame_table. Qed.

Lemma upsert_session_summary_settings E session_id summary open_loops :
  keeps (same stored_settings)
    (db.upsert_session_summary E session_id summary open_loops).
Proof. unfold db.upsert_session_summary. frame_table. Qed.

Lemma upsert_session_summary_other_summaries E session_id summary open_loops :
  keeps (same (λ w, delete session_id (stored_summaries w)))
    (db.upsert_session_summary E session_id summary open_loops).
Proof.
  unfold db.upsert_session_summary. frame_table.
  - apply map_eq. intros i. rewrite !lookup_delete.
    destruct (decide (session_id = i)); [done|]. by rewrite lookup_alter_ne.
  - apply delete_insert_eq.
Qed.

Lemma pipeline_other_summaries E session_id persona :
  keeps (same (λ w, delete session_id (stored_summaries w)))
    (run_post_chat_pipeline E session_id persona).
Proof.
  set (f := λ w, delete session_id (stored_summaries w)).
  pose proof (upsert_memory_item_other_summaries E session_id) as Hmem.
  pose proof (upsert_session_summary_other_summaries E session_id) as Hsum.
  fold f in Hmem, Hsum.
  pose proof (other_summaries_observation session_id : Observation f) as Hobs.
  pose proof (keeps_upsert_items f E Hmem) as Hitems.
  assert (Hbody : keepsP (same f) (pipeline_body E session_id persona)).
  { unfold pipeline_body. framesP. }
  assert (Hem : keepsP (same f) (emergency_body E session_id)).
  { unfold emergency_body. framesP. }
  intros w. unfold run_post_chat_pipeline.
  match goal with
  | |- context [p_try ?m ?h ?d w] =>
      assert (Hk : keepsP (same f) (p_try m h)) by framesP;
      specialize (Hk d w); destruct (p_try m h d w) as [[r dbg] w']
  end.
  exact Hk.
Qed.

(** X26: the pipeline writes memory items and the summary of its own session
    and nothing else: sessions, messages, alerts and tool settings are as
    before, so is the summary of every other session, and no draft is
    requested. *)
Theorem pipeline_writes_memory_and_own_summary_only E session_id persona w :
  let w' := (run_post_chat_pipeline E session_id persona w).2 in
  stored_sessions w' = stored_sessions w ∧
  stored_messages w' = stored_messages w ∧
  stored_alerts w' = stored_alerts w ∧
  stored_settings w' = stored_settings w ∧
  chat_calls w' = chat_calls w ∧
  ∀ sid, sid ≠ session_id ->
         stored_summaries w' !! sid = stored_summaries w !! sid.
Proof.
  cbv zeta. repeat split.
  - apply (keeps_run_post_chat_pipeline stored_sessions E
             (upsert_memory_item_sessions E)
             (upsert_session_summary_sessions E)).
  - apply pipeline_messages.
  - apply (keeps_run_post_chat_pipeline stored_alerts E
             (upsert_memory_item_alerts E)
             (upsert_session_summary_alerts E)).
  - apply (keeps_run_post_chat_pipeline stored_settings E
             (upsert_memory_item_settings E)
             (upsert_session_summary_settings E)).
  - apply pipeline_drafts.
  - intros sid Hne.
    pose proof (pipeline_other_summaries E session_id persona w) as H.
    unfold same in H. cbv beta in H.
    apply (f_equal (λ m, m !! sid)) in H.
    by rewrite !lookup_delete_ne in H.
Qed.

Lemma pipeline_writes_memory_and_own_summary_only_witness :
  let E := Demo.env true 6 in
  let w := Demo.world_with (Demo.conversation 6) in
  let w' := (run_post_chat_pipeline E "s1" Demo.coach w).2 in
  stored_messages w' = stored_messages w ∧
  stored_summaries w' !! "s2" = stored_summaries w !! "s2".
Proof.
  pose proof (pipeline_writes_memory_and_own_summary_only (Demo.env true 6)
                "s1" Demo.coach (Demo.world_with (Demo.conversation 6)))
    as (_ & Hm & _ & _ & _ & Hs).
  split; [exact Hm|]. apply Hs. discriminate.
Defined.

End pipeline_footprint.

Section pipeline_memory.

Import pipeline.

#[local] Instance stored_memory_observation : Observation stored_memory.
Proof. intros w w' H _. unfold stored_memory. by rewrite H. Qed.

Lemma upsert_session_summary_memory E session_id summary open_loops :
  keeps (same stored_memory)
    (db.upsert_session_summary E session_id summary open_loops).
Proof.
  intros w. unfold same, stored_memory, db.upsert_session_summary.
  do 2 (rewrite bind_run; cbn [db._utc_now get_db w_db]).
  by destruct (session_summaries (w_db w) !! session_id).
Qed.

Lemma upsert_memory_item_grows E scope key value conf session_id src w :
  (length (stored_memory
             (db.upsert_memory_item E scope key value conf session_id src w).2)
   <= S (length (stored_memory w)))%nat.
Proof.
  unfold db.upsert_memory_item, db.fetchone, stored_memory.
  do 3 (rewrite bind_run; cbn [db.new_uuid db._utc_now get_db w_db]).
  destruct (head _) as [row|].
  - destruct (PrimFloat.is_nan conf); [cbn; lia|].
    rewrite bind_run. cbn. rewrite length_map. lia.
  - destruct (negb _); [cbn; lia|].
    destruct (PrimFloat.is_nan conf); [cbn; lia|].
    destruct (existsb _ _); [cbn; lia|].
    rewrite bind_run. cbn. rewrite length_app. cbn. lia.
Qed.

Lemma upsert_items_run E session_id items n w :
  let out := upsert_items E session_id items n w in
  (length (stored_memory out.2) <= length (stored_memory w) + length items)%nat
  ∧ ∀ k, out.1 = Ok k -> k = (n + length items)%nat.
Proof.
  cbv zeta. revert n w. induction items as [|it items IH]; intros n w.
  - cbn. split; [lia|]. intros k [= <-]. lia.
  - cbn [upsert_items length]. rewrite bind_run.
    pose proof (upsert_memory_item_grows E (memory_extractor.mc_scope it)
                  (memory_extractor.mc_key it) (memory_extractor.mc_value it)
                  (memory_extractor.mc_confidence it)
                  (if String.eqb (memory_extractor.mc_scope it) "session"
                   then Some session_id else None) None w) as Hone.
    destruct (db.upsert_memory_item E _ _ _ _ _ _ w) as [[id|e] w1];
      cbn [snd] in Hone.
    + destruct (IH (S n) w1) as [Hlen Hk]. split; [lia|].
      intros k Hout. apply Hk in Hout. lia.
    + cbn [fst snd]. split; [lia | discriminate].
Qed.

Lemma accepted_length E data thr allow_scopes :
  (length (memory_extractor.validate_mx1_output E data thr allow_scopes).1
   <= 5)%nat.
Proof.
  unfold memory_extractor.validate_mx1_output. cbn [fst].
  etransitivity; [apply omap_length|]. rewrite length_take. lia.
Qed.

(** What the body of the pipeline does to the memory table and to the
    count it reports. *)
Lemma pipeline_body_upserts E session_id persona dbg w :
  ∃ r dbg' w',
    pipeline_body E session_id persona dbg w = (r, dbg', w') ∧
    (length (stored_memory w') <= length (stored_memory w) + 5)%nat ∧
    (dbg_memory_items_upserted dbg' = dbg_memory_items_upserted dbg
     ∨ (dbg_memory_items_upserted dbg' <= 5)%nat).
Proof.
  unfold pipeline_body.
  rewrite bindP_run. unfold call at 1.
  rewrite get_messages_run by reflexivity.
  cbv beta iota zeta.
  rewrite bindP_run. unfold call at 1. rewrite count_messages_run.
  cbv beta iota zeta.
  rewrite bindP_run. unfold call at 1, lift at 1.
  destruct (py_mod _ _) as [r|e]; cbv beta iota zeta;
    [|eexists _, _, _; split; [reflexivity|]; split; [lia | by left]].
  rewrite bindP_run. unfold update_debug at 1. cbv beta iota zeta.
  rewrite bindP_run. unfold call at 1. rewrite get_session_summary_run.
  cbv beta iota zeta.
  rewrite bindP_run. unfold call at 1.
  match goal with
  | |- context [memory_extractor.extract_mx1 E ?p ?ss ?rc ?thr ?al w] =>
      destruct (extract_mx1_run E p ss rc thr al w) as (w1 & Hrun & Hdb1);
      rewrite Hrun; clear Hrun
  end.
  assert (Hm1 : length (stored_memory w1) = length (stored_memory w))
    by (unfold stored_memory; by rewrite Hdb1).
  destruct (mx1_backend E _ _ _ _ _) as [raw|e]; cbv beta iota zeta;
    [|eexists _, _, _; split; [reflexivity|]; split; [lia | by left]].
  destruct (as_dict _) as [data|e]; cbv beta iota zeta;
    [|eexists _, _, _; split; [reflexivity|]; split; [lia | by left]].
  pose proof (accepted_length E data (MX1_CONFIDENCE_THRESHOLD E)
                (if ALLOW_GLOBAL_WRITE E then ["global"; "session"]
                 else ["session"])) as Hfive.
  destruct (memory_extractor.validate_mx1_output _ _ _ _) as [items patch].
  cbn [fst] in Hfive. rewrite bindP_run. unfold call at 1.
  destruct (upsert_items_run E session_id items 0 w1) as [Hlen Hk].
  destruct (upsert_items E session_id items 0 w1) as [[k|e] w2];
    cbn [fst snd] in Hlen, Hk; cbv beta iota zeta;
    [|eexists _, _, _; split; [reflexivity|]; split; [lia | by left]].
  specialize (Hk k eq_refl).
  rewrite bindP_run. unfold update_debug at 1. cbv beta iota zeta.
  destruct (r =? 0)%Z.
  - destruct (negb _).
    + rewrite bindP_run. unfold call at 1.
      pose proof (upsert_session_summary_memory E session_id
                    (strip (memory_extractor.sp_summary patch))
                    (memory_extractor.sp_open_loops patch) w2) as Hs.
      destruct (db.upsert_session_summary E _ _ _ w2) as [[[]|e] w3];
        unfold same in Hs; cbn [snd] in Hs; apply (f_equal length) in Hs;
        cbv beta iota zeta;
        eexists _, _, _; (split; [reflexivity|]); cbn; split; lia.
    + rewrite bindP_run. unfold call at 1.
      match goal with
      | |- context [db.upsert_session_summary E ?s ?t ?o w2] =>
          pose proof (upsert_session_summary_memory E s t o w2) as Hs;
          destruct (db.upsert_session_summary E s t o w2) as [[[]|e] w3]
      end; unfold same in Hs; cbn [snd] in Hs; apply (f_equal length) in Hs;
        cbv beta iota zeta;
        eexists _, _, _; (split; [reflexivity|]); cbn; split; lia.
  - eexists _, _, _. split; [reflexivity|]. cbn. split; lia.
Qed.

Lemma emergency_body_upserts E session_id dbg w :
  ∃ r dbg' w',
    emergency_body E session_id dbg w = (r, dbg', w') ∧
    stored_memory w' = stored_memory w ∧
    dbg_memory_items_upserted dbg' = dbg_memory_items_upserted dbg.
Proof.
  unfold emergency_body.
  rewrite bindP_run. unfold call at 1. rewrite count_messages_run.
  cbv beta iota zeta.
  rewrite bindP_run. unfold call at 1, lift at 1.
  destruct (py_mod _ _) as [r|e]; cbv beta iota zeta;
    [|by eexists _, _, _].
  destruct (r =? 0)%Z; [|by eexists _, _, _].
  rewrite bindP_run. unfold call at 1.
  match goal with
  | |- context [db.upsert_session_summary E ?s ?t ?o w] =>
      pose proof (upsert_session_summary_memory E s t o w) as Hs;
      destruct (db.upsert_session_summary E s t o w) as [[[]|e] w3]
  end; unfold same in Hs; cbn [snd] in Hs; cbv beta iota zeta;
    by eexists _, _, _.
Qed.

(** X27: one run of the pipeline adds at most five rows to the memory table,
    whatever the model returned and however the run ends, and the count of
    upserted items it reports is at most five. *)
Theorem pipeline_upserts_at_most_five E session_id persona w :
  ∃ dbg w',
    run_post_chat_pipeline E session_id persona w = (Ok dbg, w') ∧
    (dbg_memory_items_upserted dbg <= 5)%nat ∧
    (length (stored_memory w') <= length (stored_memory w) + 5)%nat.
Proof.
  unfold run_post_chat_pipeline, p_try.
  set (dbg0 := {| dbg_session_id := session_id; dbg_msg_count := None;
                  dbg_should_update_summary := None;
                  dbg_memory_items_upserted := 0;
                  dbg_summary_updated := false; dbg_summary_len := 0;
                  dbg_errors := [] |}).
  destruct (pipeline_body_upserts E session_id persona dbg0 w)
    as (r & dbg1 & w1 & -> & Hlen & Hcount).
  assert (Hc1 : (dbg_memory_items_upserted dbg1 <= 5)%nat).
  { destruct Hcount as [->|?]; [cbn; lia | done]. }
  destruct r as [[]|e].
  - eexists _, _. split; [reflexivity|]. by split.
  - rewrite bindP_run. unfold update_debug at 1. cbv beta iota zeta.
    destruct (emergency_body_upserts E session_id
                (add_error ("pipeline_error: " +:+ exn_str e) dbg1) w1)
      as (r2 & dbg2 & w2 & -> & Hm2 & Hc2).
    apply (f_equal length) in Hm2. cbn in Hc2.
    destruct r2 as [[]|e2]; eexists _, _; (split; [reflexivity|]);
      cbn; split; lia.
Qed.

End pipeline_memory.

(* ===================================================================== *)
(** * Listings are scoped *)
(* ===================================================================== *)

Section scoped_listings.

Import db.

Lemma list_memory_items_run scope session_id limit w :
  in_int64 limit = true ->
  ∃ rows,
    list_memory_items scope session_id limit w = (Ok rows, w) ∧
    ((0 <= limit)%Z -> (Z.of_nat (length rows) <= limit)%Z) ∧
    ∀ r, r ∈ rows ->
      r ∈ stored_memory w ∧
      if String.eqb scope "global" then mi_scope r = "global"
      else mi_scope r = "session" ∧ mi_session_id r = session_id.
Proof.
  intros Hfits. unfold list_memory_items, stored_memory. rewrite bind_run.
  cbn [get_db w_db].
  assert (Hnil : ∃ rows : list MemoryRow,
            (Ok [], w) = (Ok rows, w) ∧
            ((0 <= limit)%Z -> (Z.of_nat (length rows) <= limit)%Z) ∧
            ∀ r, r ∈ rows ->
              r ∈ memory_items (w_db w) ∧
              (mi_scope r = "session" ∧ mi_session_id r = session_id)).
  { exists []. split; [done|]. split; [cbn; lia|]. by intros r ?%elem_of_nil. }
  destruct (String.eqb scope "global").
  - rewrite bind_int_bind, Hfits. eexists. split; [reflexivity|]. split; [apply sql_limit_length|].
    intros r Hr%sql_limit_subseteq. rewrite order_by_Permutation in Hr.
    apply list_elem_of_filter in Hr as [Hs%String.eqb_eq Hr]. done.
  - destruct session_id as [[|c s]|]; [exact Hnil| |exact Hnil].
    rewrite bind_int_bind, Hfits. eexists. split; [reflexivity|]. split; [apply sql_limit_length|].
    intros r Hr%sql_limit_subseteq. rewrite order_by_Permutation in Hr.
    apply list_elem_of_filter in Hr as [Hp Hr].
    apply andb_true_iff in Hp as [Hs%String.eqb_eq Hq]. split; [done|].
    split; [done|]. unfold sql_eq in Hq.
    destruct (mi_session_id r) as [x|]; [|discriminate].
    by apply String.eqb_eq in Hq as ->.
Qed.

(** X28: the memory a turn reads is scoped: [read_memory] writes nothing and
    hands on at most 100 items, each a row of the table that is global or
    belongs to the session of the turn; the memory of another session never
    reaches the prompt. *)
Theorem read_memory_is_scoped persona session_id w items w' :
  main.read_memory persona session_id w = (Ok items, w') ->
  w' = w ∧ (length items <= 100)%nat ∧
  ∀ item, item ∈ items ->
    ∃ r, item = main.memory_row_dict r ∧ r ∈ stored_memory w ∧
         (mi_scope r = "global"
          ∨ (mi_scope r = "session" ∧ mi_session_id r = Some session_id)).
Proof.
  unfold main.read_memory. intros H.
  rewrite bind_run in H. unfold lift at 1 in H.
  destruct (as_dict _) as [mem_policy|e]; [|discriminate].
  destruct (truthy _).
  - destruct (list_memory_items_run "global" None 50 w eq_refl)
      as (g & Hg & Hglen & Hgrows).
    specialize (Hglen ltac:(lia)). cbn [String.eqb Ascii.eqb Bool.eqb] in Hgrows.
    destruct (eq_str _ "global").
    + rewrite bind_run, Hg in H. injection H as <- <-.
      split; [done|]. split; [rewrite length_map; lia|].
      intros item (r & <- & Hr%list_elem_of_In)%list_elem_of_In%in_map_iff.
      exists r. split; [done|]. destruct (Hgrows r Hr). eauto.
    + destruct (list_memory_items_run "session" (Some session_id) 50 w eq_refl)
        as (s & Hs & Hslen & Hsrows).
      specialize (Hslen ltac:(lia)).
      cbn [String.eqb Ascii.eqb Bool.eqb] in Hsrows.
      rewrite bind_run, Hg, bind_run, Hs in H. injection H as <- <-.
      split; [done|]. split; [rewrite length_map, length_app; lia|].
      intros item (r & <- & Hr%list_elem_of_In)%list_elem_of_In%in_map_iff.
      exists r. split; [done|]. apply elem_of_app in Hr as [Hr|Hr].
      * destruct (Hgrows r Hr). eauto.
      * destruct (Hsrows r Hr) as (? & ? & ?). eauto.
  - injection H as <- <-. split; [done|]. split; [cbn; lia|].
    by intros item ?%elem_of_nil.
Qed.

Lemma read_memory_is_scoped_witness :
  let E := Demo.env true 6 in
  let w := (upsert_memory_item E "global" "city" "Pune" 0.9%float None None
              (upsert_memory_item E "session" "pet_name" "Milo" 0.9%float
                 (Some "s2") None Demo.world0).2).2 in
  let policy := [("memory_policy",
                  JDict [("enabled", JBool true); ("scope", JStr "session")])] in
  let items := match (main.read_memory policy "s1" w).1 with
               | Ok l => l
               | Raise _ => []
               end in
  (length items <= 100)%nat ∧
  ∀ item, item ∈ items ->
    ∃ r, item = main.memory_row_dict r ∧ r ∈ stored_memory w ∧
         (mi_scope r = "global"
          ∨ (mi_scope r = "session" ∧ mi_session_id r = Some "s1")).
Proof.
  intros E w policy items.
  refine (proj2 (read_memory_is_scoped policy "s1" w items w _)).
  vm_compute. reflexivity.
Defined.

(** X29: [list_alerts] answers within the scope it is asked for, and writes
    nothing. Asked for the session scope without a session id it lists
    nothing, whatever the limit. Otherwise a limit that does not fit 64 bits
    makes it fail with [OverflowError]; with one that does, every alert it
    lists is in the table with that scope, with the status asked for when
    one is given, and, for the session scope, with the session asked for,
    and no more than [limit] alerts are listed. *)
Theorem list_alerts_is_scoped scope session_id status limit w :
  (scope ≠ "global" -> (session_id = None ∨ session_id = Some "") ->
   list_alerts scope session_id status limit w = (Ok [], w)) ∧
  ((scope = "global" ∨ ∃ sid, session_id = Some sid ∧ sid ≠ "") ->
   ¬ int64 limit ->
   list_alerts scope session_id status limit w = (Raise overflow, w)) ∧
  (int64 limit ->
   ∃ rows,
     list_alerts scope session_id status limit w = (Ok rows, w) ∧
     ((0 <= limit)%Z -> (Z.of_nat (length rows) <= limit)%Z) ∧
     ∀ id row, (id, row) ∈ rows ->
       stored_alerts w !! id = Some row ∧
       (∀ st, status = Some st -> st ≠ "" -> a_status row = st) ∧
       if String.eqb scope "global" then a_scope row = "global"
       else a_scope row = "session" ∧ a_session_id row = session_id).
Proof.
  unfold list_alerts, stored_alerts, alert_rows. rewrite bind_run.
  cbn [get_db w_db].
  assert (Hstatus : ∀ r : string * AlertRow,
            match status with
            | None | Some "" => true
            | Some st => String.eqb (a_status r.2) st
            end = true ->
            ∀ st, status = Some st -> st ≠ "" -> a_status r.2 = st).
  { intros r Hr st -> Hne. destruct st as [|c s]; [done|].
    by apply String.eqb_eq in Hr. }
  split; [|split].
  - intros Hscope%String.eqb_neq Hnone. rewrite Hscope.
    by destruct Hnone as [-> | ->].
  - intros Hasked Hbig%in_int64_false.
    destruct (String.eqb scope "global") eqn:Hscope.
    + by rewrite bind_int_bind, Hbig.
    + destruct Hasked as [->|(sid & -> & Hsid)]; [discriminate|].
      destruct sid as [|c s]; [done|]. by rewrite bind_int_bind, Hbig.
  - intros Hfits%in_int64_true.
    destruct (String.eqb scope "global") eqn:Hscope.
    + rewrite bind_int_bind, Hfits.
      eexists. split; [reflexivity|]. split; [apply sql_limit_length|].
      intros id row Hr%sql_limit_subseteq. rewrite order_by_Permutation in Hr.
      apply list_elem_of_filter in Hr as [Hp Hr].
      apply andb_true_iff in Hp as [Hs%String.eqb_eq Hst].
      apply elem_of_map_to_list in Hr. split; [done|].
      split; [exact (Hstatus (id, row) Hst) | done].
    + destruct session_id as [[|c s]|].
      * exists []. split; [done|]. split; [cbn; lia|].
        by intros id row ?%elem_of_nil.
      * rewrite bind_int_bind, Hfits.
        eexists. split; [reflexivity|]. split; [apply sql_limit_length|].
        intros id row Hr%sql_limit_subseteq.
        rewrite order_by_Permutation in Hr.
        apply list_elem_of_filter in Hr as [Hp Hr].
        apply andb_true_iff in Hp as [Hp Hst].
        apply andb_true_iff in Hp as [Hs%String.eqb_eq Hq].
        apply elem_of_map_to_list in Hr. split; [done|].
        split; [exact (Hstatus (id, row) Hst)|]. split; [done|].
        cbn [snd] in Hq. unfold sql_eq in Hq.
        destruct (a_session_id row) as [x|]; [|discriminate].
        by apply String.eqb_eq in Hq as ->.
      * exists []. split; [done|]. split; [cbn; lia|].
        by intros id row ?%elem_of_nil.
Qed.

Lemma list_alerts_is_scoped_witness :
  list_alerts "session" None (Some "active") (2 ^ 63) Demo.world_done
    = (Ok [], Demo.world_done) ∧
  list_alerts "global" None None (2 ^ 63) Demo.world_done
    = (Raise overflow, Demo.world_done) ∧
  ∃ rows,
    list_alerts "session" (Some "s1") (Some "done") 50 Demo.world_done
      = (Ok rows, Demo.world_done) ∧
    (Z.of_nat (length rows) <= 50)%Z.
Proof.
  split; [|split].
  - apply (list_alerts_is_scoped "session" None (Some "active") (2 ^ 63)
             Demo.world_done); [discriminate | by left].
  - apply (list_alerts_is_scoped "global" None None (2 ^ 63) Demo.world_done);
      [by left | unfold int64; lia].
  - destruct (proj2 (proj2 (list_alerts_is_scoped "session" (Some "s1")
                              (Some "done") 50 Demo.world_done)))
      as (rows & Hrun & Hlen & _); [unfold int64; lia|].
    exists rows. split; [exact Hrun|]. apply Hlen. lia.
Defined.

(** X30: [list_tool_settings] answers within the scope it is asked for, and
    writes nothing. Asked for the session scope without a session id it
    lists nothing, whatever the limit. Otherwise a limit that does not fit
    64 bits makes it fail with [OverflowError]; with one that does, every
    setting it lists is a row of the table with that scope and, for the
    session scope, with the session asked for, and no more than [limit] rows
    are listed. *)
Theorem list_tool_settings_is_scoped scope session_id limit w :
  (scope ≠ "global" -> (session_id = None ∨ session_id = Some "") ->
   list_tool_settings scope session_id limit w = (Ok [], w)) ∧
  ((scope = "global" ∨ ∃ sid, session_id = Some sid ∧ sid ≠ "") ->
   ¬ int64 limit ->
   list_tool_settings scope session_id limit w = (Raise overflow, w)) ∧
  (int64 limit ->
   ∃ rows,
     list_tool_settings scope session_id limit w = (Ok rows, w) ∧
     ((0 <= limit)%Z -> (Z.of_nat (length rows) <= limit)%Z) ∧
     ∀ r, r ∈ rows ->
       r ∈ stored_settings w ∧
       if String.eqb scope "global" then ts_scope r = "global"
       else ts_scope r = "session" ∧ ts_session_id r = session_id).
Proof.
  unfold list_tool_settings, stored_settings. rewrite bind_run.
  cbn [get_db w_db].
  split; [|split].
  - intros Hscope%String.eqb_neq Hnone. rewrite Hscope.
    by destruct Hnone as [-> | ->].
  - intros Hasked Hbig%in_int64_false.
    destruct (String.eqb scope "global") eqn:Hscope.
    + by rewrite bind_int_bind, Hbig.
    + destruct Hasked as [->|(sid & -> & Hsid)]; [discriminate|].
      destruct sid as [|c s]; [done|]. by rewrite bind_int_bind, Hbig.
  - intros Hfits%in_int64_true.
    assert (Hnil : ∃ rows : list ToolSettingRow,
              (Ok [], w) = (Ok rows, w) ∧
              ((0 <= limit)%Z -> (Z.of_nat (length rows) <= limit)%Z) ∧
              ∀ r, r ∈ rows ->
                r ∈ tool_settings (w_db w) ∧
                (ts_scope r = "session" ∧ ts_session_id r = session_id)).
    { exists []. split; [done|]. split; [cbn; lia|].
      by intros r ?%elem_of_nil. }
    destruct (String.eqb scope "global").
    + rewrite bind_int_bind, Hfits.
      eexists. split; [reflexivity|]. split; [apply sql_limit_length|].
      intros r Hr%sql_limit_subseteq. rewrite order_by_Permutation in Hr.
      apply list_elem_of_filter in Hr as [Hs%String.eqb_eq Hr]. done.
    + destruct session_id as [[|c s]|]; [exact Hnil| |exact Hnil].
      rewrite bind_int_bind, Hfits.
      eexists. split; [reflexivity|]. split; [apply sql_limit_length|].
      intros r Hr%sql_limit_subseteq. rewrite order_by_Permutation in Hr.
      apply list_elem_of_filter in Hr as [Hp Hr].
      apply andb_true_iff in Hp as [Hs%String.eqb_eq Hq]. split; [done|].
      split; [done|]. unfold sql_eq in Hq.
      destruct (ts_session_id r) as [x|]; [|discriminate].
      by apply String.eqb_eq in Hq as ->.
Qed.

Lemma list_tool_settings_is_scoped_witness :
  let E := Demo.env true 6 in
  let w := (upsert_tool_setting E "session" "alerts" false (Some "s1")
              Demo.world0).2 in
  list_tool_settings "session" (Some "") (2 ^ 63) w = (Ok [], w) ∧
  list_tool_settings "session" (Some "s1") (2 ^ 63) w = (Raise overflow, w) ∧
  ∃ rows,
    list_tool_settings "session" (Some "s1") 100 w = (Ok rows, w) ∧
    (Z.of_nat (length rows) <= 100)%Z.
Proof.
  cbv zeta. split; [|split].
  - apply (list_tool_settings_is_scoped "session" (Some "") (2 ^ 63)
             (upsert_tool_setting (Demo.env true 6) "session" "alerts" false
                (Some "s1") Demo.world0).2); [discriminate | by right].
  - apply (list_tool_settings_is_scoped "session" (Some "s1") (2 ^ 63)
             (upsert_tool_setting (Demo.env true 6) "session" "alerts" false
                (Some "s1") Demo.world0).2);
      [right; exists "s1"; by split | unfold int64; lia].
  - destruct (proj2 (proj2 (list_tool_settings_is_scoped "session" (Some "s1")
                 100 (upsert_tool_setting (Demo.env true 6) "session" "alerts"
                        false (Some "s1") Demo.world0).2)))
      as (rows & Hrun & Hlen & _); [unfold int64; lia|].
    exists rows. split; [exact Hrun|]. apply Hlen. lia.
Defined.

End scoped_listings.

(* ===================================================================== *)
(** * The lifetime of an alert *)
(* ===================================================================== *)

Section alert_lifetime.

Import db tools main.

#[local] Instance alerts_table_observation : Observation stored_alerts.
Proof. intros w w' H _. unfold stored_alerts. by rewrite H. Qed.

#[local] Hint Resolve alerts_table_observation : frames.

#[local] Existing Instance alerts_added_preorder.

#[local] Instance stays_closed_preorder alert_id :
  PreOrder (stays_closed alert_id).
Proof. split; [by intros ? ?|]. intros a b c Hab Hbc H. by apply Hbc, Hab. Qed.

Lemma keeps_closed_of_same {A} alert_id (m : M A) :
  keeps (same stored_alerts) m -> keeps (stays_closed alert_id) m.
Proof.
  intros H w. unfold stays_closed, closed, status_of.
  pose proof (H w) as Hw. unfold same, stored_alerts in Hw. by rewrite Hw.
Qed.

Lemma keeps_closed_of_added {A} alert_id scope session_id (m : M A) :
  keeps (alerts_added scope session_id) m -> keeps (stays_closed alert_id) m.
Proof.
  intros H w (status & Hst & Ht). destruct (H w) as [Hold _].
  exists status. split; [|exact Ht]. unfold status_of, stored_alerts in *.
  destruct (alerts (w_db w) !! alert_id) as [row|] eqn:Hrow; [|discriminate].
  by rewrite (Hold _ _ Hrow).
Qed.

Ltac frame_alerts :=
  intros w; unfold same, stored_alerts;
  repeat first
    [ rewrite bind_run
    | progress cbn [db.new_uuid db._utc_now get_db put_db lift raise
                    db.IntegrityError fst snd w_db set_db alerts mret
                    M_ret db.set_memory_items db.set_messages
                    db.set_sessions db.set_tool_settings]
    | match goal with
      | |- context [match ?x with _ => _ end] => destruct x
      end ];
  try reflexivity.

Lemma add_message_alerts E session_id role content :
  keeps (same stored_alerts) (add_message E session_id role content).
Proof. unfold add_message. frame_alerts. Qed.

Lemma create_session_alerts E persona_id :
  keeps (same stored_alerts) (create_session_api E persona_id).
Proof. unfold create_session_api, create_session. frame_alerts. Qed.

Lemma delete_memory_alerts mem_id :
  keeps (same stored_alerts) (delete_memory_api mem_id).
Proof. unfold delete_memory_api, delete_memory_item. frame_alerts. Qed.

Lemma upsert_memory_api_alerts E scope key value confidence session_id :
  keeps (same stored_alerts)
    (upsert_memory_api E scope key value confidence session_id).
Proof.
  unfold upsert_memory_api. cbv zeta.
  destruct (_ && _); [by intros w|]. apply upsert_memory_item_alerts.
Qed.

Lemma upsert_tool_setting_api_alerts E scope tool enabled session_id :
  keeps (same stored_alerts)
    (upsert_tool_setting_api E scope tool enabled session_id).
Proof.
  unfold upsert_tool_setting_api. cbv zeta.
  destruct (_ && _); [by intros w|].
  unfold upsert_tool_setting, fetchone. frame_alerts.
Qed.

Lemma get_due_alerts_alerts E session_id limit :
  keeps (same stored_alerts) (get_due_alerts_api E session_id limit).
Proof. unfold get_due_alerts_api, get_due_alerts. frames. Qed.

Lemma ollama_chat_alerts E system_prompt history message :
  keeps (same stored_alerts) (ollama_chat E system_prompt history message).
Proof. intros w. reflexivity. Qed.

Lemma pipeline_alerts E session_id persona :
  keeps (same stored_alerts)
    (pipeline.run_post_chat_pipeline E session_id persona).
Proof.
  apply (keeps_run_post_chat_pipeline stored_alerts E
           (upsert_memory_item_alerts E) (upsert_session_summary_alerts E)).
Qed.

#[local] Hint Resolve add_message_alerts
  ollama_chat_alerts pipeline_alerts keeps_run_judge keeps_read_memory
  : frames.

Lemma retry_loop_alerts E persona mem system_prompt message attempts st :
  keeps (same stored_alerts)
    (retry_loop E persona mem system_prompt message attempts st).
Proof.
  revert st. induction attempts as [|attempt rest IH]; intros st; cbn; frames.
Qed.

#[local] Hint Resolve retry_loop_alerts : frames.

Lemma keeps_create_each_added E session_id scope alerts evs :
  keeps (alerts_added scope session_id)
    (create_each E session_id scope alerts evs).
Proof.
  intros w.
  destruct (create_each_run E session_id scope alerts evs w)
    as (out & w' & -> & _ & Hadd).
  exact Hadd.
Qed.

(** The alerts tool leaves every alert it finds as it is. *)
Lemma keeps_AlertsTool_added E ctx :
  keeps (alerts_added "session" (Some (ctx_session_id ctx)))
    (AlertsTool_run E ctx).
Proof.
  unfold AlertsTool_run, execute_alert_creation.
  repeat first
    [ apply keeps_create_each_added
    | apply keeps_added_of_same; solve [frames]
    | keeps_step; try match goal with |- PreOrder _ => apply _ end ].
Qed.

Lemma run_tools_closed E alert_id ctx em :
  keeps (stays_closed alert_id) (run_tools (TOOLS_REGISTRY E) ctx em).
Proof.
  apply keeps_run_tools_from; [apply _|].
  intros t ->%registry_tools.
  apply (keeps_closed_of_added alert_id "session" (Some (ctx_session_id ctx))).
  apply keeps_AlertsTool_added.
Qed.

(** A turn of the chat may add alerts; it closes or reopens none. *)
Lemma chat_send_closed E alert_id session_id message :
  keeps (stays_closed alert_id) (chat_send_api E session_id message).
Proof.
  unfold chat_send_api, chat_turn.
  repeat first
    [ apply run_tools_closed
    | apply keeps_closed_of_same; solve [frames]
    | keeps_step; try match goal with |- PreOrder _ => apply _ end ].
Qed.

Lemma status_op_closed E alert_id op :
  keeps (stays_closed alert_id) (run_op E op).
Proof.
  intros w (status & Hst & Ht). unfold closed.
  rewrite status_after_op, Hst.
  destruct op as [a|a]; destruct (decide (a = alert_id));
    eexists; (split; [reflexivity|]);
    first [exact Ht | by left | by right].
Qed.

Lemma serve_closed E alert_id r w : stays_closed alert_id w (serve E r w).
Proof.
  destruct r; cbn [serve].
  - apply keeps_closed_of_same, create_session_alerts.
  - apply keeps_closed_of_same, upsert_memory_api_alerts.
  - apply keeps_closed_of_same, delete_memory_alerts.
  - apply chat_send_closed.
  - apply (status_op_closed E alert_id (MarkDone alert_id0)).
  - apply (status_op_closed E alert_id (MarkCancelled alert_id0)).
  - apply keeps_closed_of_same, upsert_tool_setting_api_alerts.
  - apply keeps_closed_of_same, get_due_alerts_alerts.
Qed.

Lemma serve_all_closed E alert_id requests w :
  stays_closed alert_id w (serve_all E requests w).
Proof.
  revert w. induction requests as [|r rest IH]; intros w; cbn [serve_all].
  - done.
  - intros H. by apply IH, serve_closed.
Qed.

Lemma done_is_closed E alert_id w w1 :
  mark_alert_done_api E alert_id w = (Ok tt, w1) -> closed alert_id w1.
Proof.
  unfold mark_alert_done_api, mark_alert_done. rewrite bind_run.
  destruct (update_alert_status_run E alert_id "done" w eq_refl)
    as (now & w' & Hrun & Halerts).
  rewrite Hrun.
  destruct (bool_decide _) eqn:Hsome; [|discriminate].
  apply bool_decide_eq_true in Hsome as [row Hrow].
  intros [= <-]. exists "done". split; [|by left].
  unfold status_of. by rewrite Halerts, lookup_alter_eq, Hrow.
Qed.

(** X9: an alert that was marked done is never again reported as due. Once
    [POST /alerts/{id}/done] has answered, then whatever requests follow to
    the endpoints that write to the database ([POST /sessions], [POST
    /memory], [DELETE /memory/{id}], [POST /chat/send], [POST
    /alerts/{id}/done], [POST /alerts/{id}/cancel], [PUT /tools/settings]),
    with polls of [GET /alerts/due] among them, and whatever they answer,
    [GET /alerts/due] does not list the alert, for any session asked for:
    it answers with a list without it when the limit fits 64 bits and fails
    with [OverflowError] when it does not. *)
Theorem done_alert_is_not_due E alert_id requests session_id limit w w1 :
  mark_alert_done_api E alert_id w = (Ok tt, w1) ->
  (int64 limit ->
   ∃ rows w2,
     get_due_alerts_api E session_id limit (serve_all E requests w1)
       = (Ok rows, w2) ∧
     alert_id ∉ rows.*1) ∧
  (¬ int64 limit ->
   ∃ w2,
     get_due_alerts_api E session_id limit (serve_all E requests w1)
       = (Raise overflow, w2)).
Proof.
  intros Hdone%done_is_closed.
  apply (serve_all_closed E alert_id requests) in Hdone
    as (status & Hst & Ht).
  split.
  - intros Hfits.
    destruct (get_due_alerts_run E session_id limit (serve_all E requests w1)
                Hfits)
      as (rows & w2 & Hrun & _ & _ & _ & Hsound & _).
    exists rows, w2. split; [exact Hrun|].
    intros ((id & row) & Hid & Hin)%list_elem_of_fmap. cbn in Hid. subst id.
    apply Hsound in Hin as (Hrow & [Hactive _] & _).
    unfold status_of, stored_alerts in *. rewrite Hrow in Hst. cbn in Hst.
    injection Hst as <-. destruct Ht as [Ht|Ht]; congruence.
  - intros Hbig.
    destruct (get_due_alerts_overflow E session_id limit
                (serve_all E requests w1) Hbig) as (w2 & Hrun & _).
    by exists w2.
Qed.

Lemma done_alert_is_not_due_witness :
  let E := Demo.env true 6 in
  let w := (create_alert E "session" "Call mum" "" (Some "2025-12-31T09:00:00")
              0.8%float (Some "s1") JNull Demo.world0).2 in
  let requests := [ChatSend "s1" "remind me to call mum tomorrow";
                   DueAlerts (Some "s1") 10;
                   AlertCancel "uuid-0";
                   UpsertMemory "global" "city" "Pune" 0.9%float None] in
  ∃ rows w2,
    get_due_alerts_api E None 10
      (serve_all E requests (mark_alert_done_api E "uuid-0" w).2)
      = (Ok rows, w2) ∧
    "uuid-0" ∉ rows.*1.
Proof.
  cbv zeta.
  refine (proj1 (done_alert_is_not_due (Demo.env true 6) "uuid-0"
            [ChatSend "s1" "remind me to call mum tomorrow";
             DueAlerts (Some "s1") 10;
             AlertCancel "uuid-0";
             UpsertMemory "global" "city" "Pune" 0.9%float None]
            None 10
            (create_alert (Demo.env true 6) "session" "Call mum" ""
               (Some "2025-12-31T09:00:00") 0.8%float (Some "s1") JNull
               Demo.world0).2
            (mark_alert_done_api (Demo.env true 6) "uuid-0"
               (create_alert (Demo.env true 6) "session" "Call mum" ""
                  (Some "2025-12-31T09:00:00") 0.8%float (Some "s1") JNull
                  Demo.world0).2).2 _) _).
  - vm_compute. reflexivity.
  - unfold int64. lia.
Defined.

End alert_lifetime.
